(** * Retro Neural Fusion: training orchestration, weight fusion and
      network visualisation, embedded from [src/App.tsx] and
      [NetworkVisualization.tsx].

    JavaScript numbers are IEEE-754 binary64 values and tfjs [float32]
    tensors hold binary32 values.  Both are modelled with the executable
    IEEE specification of the Standard Library ([SpecFloat]), so every
    definition below can be evaluated on concrete data.  The only place
    where real numbers are used is the sine wave of the activation
    animation, for which no executable floating-point model exists. *)

From Stdlib Require Import ZArith List Bool Lia Reals Lra.
From Stdlib Require Import Floats.SpecFloat Sorting.Sorted.
From stdpp Require Import gmap list.
Import ListNotations.

#[global] Instance spec_float_eq_dec : EqDecision spec_float.
Proof. solve_decision. Defined.

(* ===================================================================== *)
(** * Numbers *)
(* ===================================================================== *)

(** JavaScript [number]: binary64. *)
Module Num.
Local Open Scope Z_scope.

Definition number := spec_float.

Definition prec : Z := 53.
Definition emax : Z := 1024.

Definition add : number -> number -> number := SFadd prec emax.
Definition sub : number -> number -> number := SFsub prec emax.
Definition mul : number -> number -> number := SFmul prec emax.
Definition div : number -> number -> number := SFdiv prec emax.
Definition abs : number -> number := SFabs.
Definition ltb : number -> number -> bool := SFltb.
Definition leb : number -> number -> bool := SFleb.
Definition valid : number -> bool := valid_binary prec emax.

(** An integer as a number (exact below 2^53). *)
Definition of_Z (z : Z) : number := binary_normalize prec emax z 0 false.

(** The decimal literal [n/d]: both parts are exact, so the correctly
    rounded quotient is the value a JavaScript parser produces. *)
Definition lit (n d : Z) : number := div (of_Z n) (of_Z d).

Definition zero : number := S754_zero false.
Definition one : number := of_Z 1.
Definition half : number := lit 5 10.

Definition is_nan (x : number) : bool :=
  match x with S754_nan => true | _ => false end.

Definition is_finite (x : number) : bool :=
  match x with S754_zero _ | S754_finite _ _ _ => true | _ => false end.

(** [x || 0] on a number: zero and NaN are falsy. *)
Definition or_zero (x : number) : number :=
  match x with
  | S754_zero _ | S754_nan => zero
  | _ => x
  end.

(** [Math.ceil] of a finite number, as an integer. *)
Definition ceil (x : number) : Z :=
  match x with
  | S754_finite s m e =>
      let v := cond_Zopp s (Zpos m) in
      if 0 <=? e then v * 2 ^ e else - ((- v) / 2 ^ (- e))
  | _ => 0
  end.

(** Membership in the closed interval [0,1]. *)
Definition in_unit (x : number) : bool := leb zero x && leb x one.
End Num.

(** Elements of a [float32] tensor: binary32. *)
Module F32.
Local Open Scope Z_scope.

Definition f32 := spec_float.

Definition prec : Z := 24.
Definition emax : Z := 128.

Definition add : f32 -> f32 -> f32 := SFadd prec emax.
Definition sub : f32 -> f32 -> f32 := SFsub prec emax.
Definition div : f32 -> f32 -> f32 := SFdiv prec emax.
Definition abs : f32 -> f32 := SFabs.
Definition leb : f32 -> f32 -> bool := SFleb.
Definition ltb : f32 -> f32 -> bool := SFltb.
Definition valid : f32 -> bool := valid_binary prec emax.

(** Storing a number into a [Float32Array] rounds it to binary32. *)
Definition fround (x : Num.number) : f32 :=
  match x with
  | S754_finite s m e => binary_normalize prec emax (cond_Zopp s (Zpos m)) e s
  | _ => x
  end.

(** Reading an element of a [Float32Array] widens it (exactly). *)
Definition to_number (x : f32) : Num.number :=
  match x with
  | S754_finite s m e =>
      binary_normalize Num.prec Num.emax (cond_Zopp s (Zpos m)) e s
  | _ => x
  end.

Definition of_Z (z : Z) : f32 := binary_normalize prec emax z 0 false.

Definition two : f32 := of_Z 2.
Definition half : f32 := fround Num.half.
End F32.

(* ===================================================================== *)
(** * Tensors *)
(* ===================================================================== *)

Module Tensor.
Import F32.

(** A [float32] tensor: its shape and its row-major data. *)
Record t := mk { shape : list nat; data : list f32 }.

Definition size (s : list nat) : nat := fold_right Nat.mul 1 s.

Definition well_formed (x : t) : Prop :=
  length (data x) = size (shape x).

Definition shape_eqb (s1 s2 : list nat) : bool :=
  bool_decide (s1 = s2).

(** ** Broadcasting, as in numpy and tfjs: shapes are aligned from the
    last axis, an axis of extent 1 is stretched. *)
Fixpoint broadcast_rev (r1 r2 : list nat) : option (list nat) :=
  match r1, r2 with
  | [], r => Some r
  | r, [] => Some r
  | a :: r1', b :: r2' =>
      match broadcast_rev r1' r2' with
      | None => None
      | Some r =>
          if (a =? b)%nat then Some (a :: r)
          else if (a =? 1)%nat then Some (b :: r)
          else if (b =? 1)%nat then Some (a :: r)
          else None
      end
  end.

Definition broadcast_shape (s1 s2 : list nat) : option (list nat) :=
  option_map (@rev nat) (broadcast_rev (rev s1) (rev s2)).

(** Position in the operand (reversed shape [rin]) of the element used
    for flat position [i] of the result (reversed shape [rout]). *)
Fixpoint operand_index (rin rout : list nat) (i : nat) : nat :=
  match rin, rout with
  | d :: rin', o :: rout' =>
      (if (d =? 1)%nat then 0 else i mod o) + d * operand_index rin' rout' (i / o)
  | _, _ => 0
  end.

Definition broadcast_op (op : f32 -> f32 -> f32) (a b : t) : option t :=
  if shape_eqb (shape a) (shape b) then
    Some (mk (shape a) (zip_with op (data a) (data b)))
  else
    match broadcast_shape (shape a) (shape b) with
    | None => None
    | Some s =>
        let at_ (x : t) (i : nat) :=
          nth (operand_index (rev (shape x)) (rev s) i) (data x) S754_nan in
        Some (mk s (map (fun i => op (at_ a i) (at_ b i)) (seq 0 (size s))))
    end.

(** [a.add(b)], [a.sub(b)]: [None] when the shapes are incompatible
    (the library throws). *)
Definition add : t -> t -> option t := broadcast_op F32.add.
Definition sub : t -> t -> option t := broadcast_op F32.sub.

(** [a.div(c)] and [a.abs()] for a scalar [c]. *)
Definition div_scalar (a : t) (c : f32) : t :=
  mk (shape a) (map (fun x => F32.div x c) (data a)).
Definition abs (a : t) : t := mk (shape a) (map F32.abs (data a)).

(** [a.lessEqual(c)]: a [bool] tensor, kept as its data. *)
Definition lessEqual (a : t) (c : f32) : list bool :=
  map (fun x => F32.leb x c) (data a).

(** [int32] results wrap around. *)
Definition wrap32 (z : Z) : Z := ((z + 2 ^ 31) mod 2 ^ 32 - 2 ^ 31)%Z.

(** [.sum().dataSync()[0]] of a [bool] tensor: the [int32] number of
    [true] entries. *)
Definition sum_bool (bs : list bool) : Z :=
  fold_left (fun acc (b : bool) => wrap32 (acc + (if b then 1 else 0))%Z) bs 0%Z.

(** [tf.tensor2d(rows)]: the shape is inferred from the nested array. *)
Definition tensor2d (rows : list (list Num.number)) : t :=
  mk [length rows; length (hd [] rows)] (map fround (concat rows)).

(** [tf.tensor2d(values, [n, 1])]. *)
Definition tensor2d_column (values : list Num.number) : t :=
  mk [length values; 1] (map fround values).

(** The rows of a rank-2 tensor. *)
Fixpoint chunks (w : nat) (n : nat) (l : list f32) : list (list f32) :=
  match n with
  | O => []
  | S n' => take w l :: chunks w n' (drop w l)
  end.

Definition rows (x : t) : list (list f32) :=
  match shape x with
  | [n; w] => chunks w n (data x)
  | _ => []
  end.
End Tensor.

(* ===================================================================== *)
(** * Dataset generation ([App.tsx], lines 38-75) *)
(* ===================================================================== *)

Module Dataset.
Record t := mk { inputs : Tensor.t; outputs : Tensor.t }.

(** [for (let x = lo; x <= hi; x++)]: the values taken by [x]. *)
Definition range (lo hi : Z) : list Z :=
  map (fun i => (lo + Z.of_nat i)%Z) (seq 0 (Z.to_nat (hi - lo + 1))).

(** The two nested loops; every iteration pushes one input pair and
    one output. *)
Definition loop (lo hi : Z) (f : Num.number -> Num.number -> Num.number)
  : list (list Num.number * Num.number) :=
  flat_map (fun a =>
    map (fun b => ([Num.of_Z a; Num.of_Z b], f (Num.of_Z a) (Num.of_Z b)))
        (range lo hi))
    (range lo hi).

Definition of_loop (l : list (list Num.number * Num.number)) : t :=
  mk (Tensor.tensor2d (map fst l)) (Tensor.tensor2d_column (map snd l)).

Definition generateAdditionData : t := of_loop (loop 0 9 Num.add).
Definition generateMultiplicationData : t := of_loop (loop 0 9 Num.mul).
Definition generateDivisionData : t := of_loop (loop 1 9 Num.div).

(** All pairs [(a, b)] with [lo <= a, b <= hi], as tensor rows. *)
Definition all_pairs (lo hi : Z) : list (list F32.f32) :=
  map (fun p => [F32.of_Z (fst p); F32.of_Z (snd p)])
      (list_prod (range lo hi) (range lo hi)).
End Dataset.

(* ===================================================================== *)
(** * The tfjs runtime: tensor handles, disposal, models *)
(* ===================================================================== *)

Module TF.
Inductive error :=
| ShapeMismatch      (* incompatible shapes or weight counts *)
| Disposed           (* use of a disposed tensor *)
| NotATensor         (* [undefined] passed where a tensor is expected *)
| FitFailed
| PredictFailed.

Inductive result (A : Type) :=
| Ok (a : A)
| Throw (e : error).
Arguments Ok {A} a.
Arguments Throw {A} e.

(** Tensors live in the engine; the program holds handles.  Handles are
    never reused. *)
Record heap := mkHeap { tensors : gmap nat Tensor.t; next : nat }.

Definition empty : heap := mkHeap ∅ 0.

Definition M (A : Type) : Type := heap -> result A * heap.

Definition ret {A} (a : A) : M A := fun h => (Ok a, h).
Definition throw {A} (e : error) : M A := fun h => (Throw e, h).
Definition bind {A B} (m : M A) (k : A -> M B) : M B :=
  fun h => match m h with
           | (Ok a, h') => k a h'
           | (Throw e, h') => (Throw e, h')
           end.

Notation "'let*' x ':=' m 'in' k" := (bind m (fun x => k))
  (at level 10, x pattern, m at level 100, k at level 200).
Notation "m ';;' k" := (bind m (fun _ => k))
  (at level 100, k at level 200, right associativity).

Fixpoint mapM {A B} (f : A -> M B) (l : list A) : M (list B) :=
  match l with
  | [] => ret []
  | a :: l' => let* b := f a in let* bs := mapM f l' in ret (b :: bs)
  end.

(** A new tensor; its content may depend on the handle (used as the
    seed of random initialisers). *)
Definition alloc_with (f : nat -> Tensor.t) : M nat :=
  fun h => let id := next h in
           (Ok id, mkHeap (<[id := f id]> (tensors h)) (S id)).
Definition alloc (x : Tensor.t) : M nat := alloc_with (fun _ => x).

Definition read (id : nat) : M Tensor.t :=
  fun h => match tensors h !! id with
           | Some x => (Ok x, h)
           | None => (Throw Disposed, h)
           end.

Definition dispose (id : nat) : M unit :=
  fun h => (Ok tt, mkHeap (delete id (tensors h)) (next h)).

Definition dispose_all (ids : list nat) : M unit :=
  fun h => (Ok tt, mkHeap (foldr delete (tensors h) ids) (next h)).

(** [variable.assign(x)]: the shapes must agree. *)
Definition assign (var : nat) (x : Tensor.t) : M unit :=
  let* old := read var in
  if Tensor.shape_eqb (Tensor.shape old) (Tensor.shape x)
  then fun h => (Ok tt, mkHeap (<[var := x]> (tensors h)) (next h))
  else throw ShapeMismatch.

(** [tf.tidy(fn)]: every tensor created by [fn] is disposed when it
    ends, except the one it returns. *)
Definition tidy (fn : M nat) : M nat :=
  fun h =>
    let created h' := seq (next h) (next h' - next h) in
    match fn h with
    | (Ok r, h') =>
        (Ok r, snd (dispose_all (filter (fun id => id <> r) (created h')) h'))
    | (Throw e, h') => (Throw e, snd (dispose_all (created h') h'))
    end.

(** [a.add(b)] and [a.div(c)] on handles. *)
Definition add (a b : nat) : M nat :=
  let* x := read a in
  let* y := read b in
  match Tensor.add x y with
  | Some z => alloc z
  | None => throw ShapeMismatch
  end.

Definition div (a : nat) (c : F32.f32) : M nat :=
  let* x := read a in alloc (Tensor.div_scalar x c).

(** A [tf.Sequential] model: the handles of its weight variables, in
    the order of [getWeights()] (kernel and bias of every layer). *)
Record Sequential := mkSequential { weights : list nat }.

Definition getWeights (net : Sequential) : list nat := weights net.

(** [model.setWeights(ws)]: counts and shapes are checked first, then
    every variable is assigned. *)
Definition setWeights (net : Sequential) (ws : list nat) : M unit :=
  if negb (length (weights net) =? length ws)%nat then throw ShapeMismatch
  else
    let* values := mapM read ws in
    let* _ := mapM (fun '(var, x) => assign var x) (zip (weights net) values) in
    ret tt.

Definition dispose_model (net : Sequential) : M unit :=
  dispose_all (weights net).

(** What the program cannot determine: random initialisation and the
    numerical work of the optimiser and of inference.  [fit] receives
    the number of the epoch (the optimiser keeps state between calls)
    and answers with the updated weights and the training loss;
    [None] stands for a rejected or throwing call. *)
Record Runtime := mkRuntime {
  glorotUniform : nat -> nat -> F32.f32;
  fit : nat -> list Tensor.t -> Tensor.t -> Tensor.t -> nat ->
        option (list Tensor.t * Num.number);
  predict : list Tensor.t -> Tensor.t -> option Tensor.t;
  meanSquaredError : Tensor.t -> Tensor.t -> option F32.f32
}.
End TF.

(* ===================================================================== *)
(** * The application ([App.tsx]) *)
(* ===================================================================== *)

Module App.
Import TF.

Record NetworkStats := mkStats {
  epoch : nat;
  loss : Num.number;
  accuracy : Num.number;
  testLoss : option Num.number;
  testAccuracy : option Num.number
}.

(** The React state of the component. *)
Record State := mkState {
  additionNet : option Sequential;
  multiplicationNet : option Sequential;
  mergedNet : option Sequential;
  additionStats : list NetworkStats;
  multiplicationStats : list NetworkStats;
  mergedStats : list NetworkStats;
  isTraining : bool;
  currentEpoch : nat
}.

(** The shapes of [getWeights()] for the architecture 2 -> 16 -> 1. *)
Definition architecture : list (list nat) := [[2; 16]; [16]; [16; 1]; [1]].

Section WithRuntime.
Variable rt : Runtime.

(** ** [createNetwork] (lines 27-36): kernels are drawn at random,
    biases start at zero. *)
Definition random_tensor (s : list nat) (seed : nat) : Tensor.t :=
  Tensor.mk s (map (glorotUniform rt seed) (seq 0 (Tensor.size s))).
Definition zeros (s : list nat) : Tensor.t :=
  Tensor.mk s (repeat (S754_zero false) (Tensor.size s)).

Definition createNetwork : M Sequential :=
  let* kernel1 := alloc_with (random_tensor [2; 16]) in
  let* bias1 := alloc (zeros [16]) in
  let* kernel2 := alloc_with (random_tensor [16; 1]) in
  let* bias2 := alloc (zeros [1]) in
  ret (mkSequential [kernel1; bias1; kernel2; bias2]).

(** ** [averageWeights] (lines 78-90) *)
Definition averageWeights (net1 net2 : Sequential) : M Sequential :=
  let* merged := createNetwork in
  let weights1 := getWeights net1 in
  let weights2 := getWeights net2 in
  let* averagedWeights :=
    mapM (fun '(i, w1) =>
            match weights2 !! i with
            | None => throw NotATensor
            | Some w2 => tidy (let* s := add w1 w2 in div s F32.two)
            end)
         (imap pair weights1) in
  setWeights merged averagedWeights ;;
  ret merged.

(** ** [calculateAccuracy] (lines 93-99).  The result of the whole
    [tf.tidy] is a number, so every tensor it creates is gone when it
    returns; only the values are kept here. *)
Definition calculateAccuracy (predictions targets : Tensor.t)
  : result Num.number :=
  match Tensor.sub predictions targets with
  | None => Throw ShapeMismatch
  | Some d =>
      let diff := Tensor.abs d in
      let correct := Tensor.sum_bool (Tensor.lessEqual diff F32.half) in
      Ok (match Tensor.shape predictions !! 0%nat with
          | Some n => Num.div (Num.of_Z correct) (Num.of_Z (Z.of_nat n))
          | None => S754_nan
          end)
  end.

Definition lift {A} (r : result A) : M A := fun h => (r, h).

(** ** [trainNetworks] (lines 102-189) *)

(** The local variables of one activation of [trainNetworks];
    [staleMerged] is the [mergedNet] captured by the closure. *)
Record Locals := mkLocals {
  addNet : Sequential;
  multNet : Sequential;
  addData : nat * nat;
  multData : nat * nat;
  divData : nat * nat;
  staleMerged : option Sequential
}.

(** The activation is suspended at one of its three [await]s (with
    the current value of [epoch]), has returned, or was rejected. *)
Inductive Task :=
| Idle
| AwaitAddFit (l : Locals) (epoch : nat)
| AwaitMultFit (l : Locals) (epoch : nat)
| AwaitDelay (l : Locals) (epoch : nat)
| Rejected (e : error).

Record Config := mkConfig { app : State; engine : heap; task : Task }.

Definition epochs : nat := 50.
Definition batchSize : nat := 32.

Definition alloc_dataset (d : Dataset.t) : M (nat * nat) :=
  let* i := alloc (Dataset.inputs d) in
  let* o := alloc (Dataset.outputs d) in
  ret (i, o).

(** [net.fit(inputs, outputs, ...)]: the optimiser rewrites the
    variables of the model and reports the loss. *)
Definition run_fit (e : nat) (net : Sequential) (d : nat * nat) : M Num.number :=
  let* ws := mapM read (weights net) in
  let* x := read (fst d) in
  let* y := read (snd d) in
  match fit rt e ws x y batchSize with
  | None => throw FitFailed
  | Some (ws', l) =>
      (fun h => (Ok l, mkHeap (foldr (fun '(var, w) m => <[var := w]> m)
                                     (tensors h) (zip (weights net) ws'))
                              (next h)))
  end.

(** [net.predict(inputs)] *)
Definition run_predict (net : Sequential) (inputs : nat) : M nat :=
  let* ws := mapM read (weights net) in
  let* x := read inputs in
  match predict rt ws x with
  | None => throw PredictFailed
  | Some p => alloc p
  end.

(** Loss, prediction and accuracy of one network after its fit
    resolved (lines 133-136 and 145-148). *)
Definition evaluate (net : Sequential) (d : nat * nat) : M Num.number :=
  let* pred := run_predict net (fst d) in
  let* p := read pred in
  let* y := read (snd d) in
  let* acc := lift (calculateAccuracy p y) in
  dispose pred ;;
  ret acc.

(** Lines 152-157: fusion; the closure still holds the merged
    network of the render in which it was created, and that is the
    one disposed. *)
Definition fuse (l : Locals) : M Sequential :=
  let* merged := averageWeights (addNet l) (multNet l) in
  match staleMerged l with
   | Some m => dispose_model m
   | None => ret tt
   end ;;
  ret merged.

(** Lines 160-167: evaluation of the merged network on the division
    data. *)
Definition test_merged (l : Locals) (merged : Sequential)
  : M (Num.number * Num.number) :=
  let* divPred := run_predict merged (fst (divData l)) in
  let* p := read divPred in
  let* y := read (snd (divData l)) in
  let* divLoss :=
     match meanSquaredError rt y p with
     | Some v => tidy (alloc (Tensor.mk [] [v]))
     | None => throw ShapeMismatch
     end in
  let* lossT := read divLoss in
  let divLossVal := F32.to_number (hd S754_nan (Tensor.data lossT)) in
  dispose divLoss ;;
  let* divAcc := lift (calculateAccuracy p y) in
  dispose divPred ;;
  ret (divLossVal, divAcc).

(** The state setters; the list setters are always called with an
    updater function. *)
Definition setAdditionNet v (s : State) : State :=
  mkState v (multiplicationNet s) (mergedNet s) (additionStats s)
          (multiplicationStats s) (mergedStats s) (isTraining s) (currentEpoch s).
Definition setMultiplicationNet v (s : State) : State :=
  mkState (additionNet s) v (mergedNet s) (additionStats s)
          (multiplicationStats s) (mergedStats s) (isTraining s) (currentEpoch s).
Definition setMergedNet v (s : State) : State :=
  mkState (additionNet s) (multiplicationNet s) v (additionStats s)
          (multiplicationStats s) (mergedStats s) (isTraining s) (currentEpoch s).
Definition setAdditionStats (f : list NetworkStats -> list NetworkStats) (s : State) : State :=
  mkState (additionNet s) (multiplicationNet s) (mergedNet s) (f (additionStats s))
          (multiplicationStats s) (mergedStats s) (isTraining s) (currentEpoch s).
Definition setMultiplicationStats (f : list NetworkStats -> list NetworkStats) (s : State) : State :=
  mkState (additionNet s) (multiplicationNet s) (mergedNet s) (additionStats s)
          (f (multiplicationStats s)) (mergedStats s) (isTraining s) (currentEpoch s).
Definition setMergedStats (f : list NetworkStats -> list NetworkStats) (s : State) : State :=
  mkState (additionNet s) (multiplicationNet s) (mergedNet s) (additionStats s)
          (multiplicationStats s) (f (mergedStats s)) (isTraining s) (currentEpoch s).
Definition setIsTraining v (s : State) : State :=
  mkState (additionNet s) (multiplicationNet s) (mergedNet s) (additionStats s)
          (multiplicationStats s) (mergedStats s) v (currentEpoch s).
Definition setCurrentEpoch v (s : State) : State :=
  mkState (additionNet s) (multiplicationNet s) (mergedNet s) (additionStats s)
          (multiplicationStats s) (mergedStats s) (isTraining s) v.

(** The loop test (line 124): either the body starts and runs up to
    [await addNet.fit], or the code after the loop runs (lines
    180-188). *)
Definition enter_epoch (s : State) (h : heap) (l : Locals) (e : nat) : Config :=
  if (e <? epochs)%nat then
    mkConfig (setCurrentEpoch (e + 1) s) h (AwaitAddFit l e)
  else
    let h' := snd (dispose_all [fst (addData l); snd (addData l);
                                fst (multData l); snd (multData l);
                                fst (divData l); snd (divData l)] h) in
    mkConfig (setIsTraining false s) h' Idle.

(** A click on the button: [trainNetworks()] runs up to its first
    [await] (lines 103-128). *)
Definition trainNetworks (c : Config) : Config :=
  let s := app c in
  if isTraining s then c
  else
    let s := setIsTraining true s in
    let s := setCurrentEpoch 0 s in
    let s := setAdditionStats (fun _ => []) s in
    let s := setMultiplicationStats (fun _ => []) s in
    let s := setMergedStats (fun _ => []) s in
    match (let* addNet := createNetwork in
           let* multNet := createNetwork in
           ret (addNet, multNet)) (engine c) with
    | (Throw e, h) => mkConfig s h (Rejected e)
    | (Ok (addNet, multNet), h) =>
        let s := setAdditionNet (Some addNet) s in
        let s := setMultiplicationNet (Some multNet) s in
        match (let* addData := alloc_dataset Dataset.generateAdditionData in
               let* multData := alloc_dataset Dataset.generateMultiplicationData in
               let* divData := alloc_dataset Dataset.generateDivisionData in
               ret (mkLocals addNet multNet addData multData divData
                             (mergedNet (app c)))) h with
        | (Throw e, h) => mkConfig s h (Rejected e)
        | (Ok l, h) => enter_epoch s h l 0
        end
    end.

(** The suspended activation is resumed: it runs up to its next
    [await], to its end, or to the first exception, which rejects
    the promise of the activation (nothing catches it). *)
Definition resume (c : Config) : Config :=
  let s := app c in
  match task c with
  | Idle | Rejected _ => c
  | AwaitAddFit l e =>
      (* lines 128-140 *)
      match (let* addLoss := run_fit e (addNet l) (addData l) in
             let* addAcc := evaluate (addNet l) (addData l) in
             ret (addLoss, addAcc)) (engine c) with
      | (Throw err, h) => mkConfig s h (Rejected err)
      | (Ok (addLoss, addAcc), h) =>
          let s := setAdditionStats
                     (fun prev => prev ++ [mkStats (e + 1) addLoss addAcc None None]) s in
          mkConfig s h (AwaitMultFit l e)
      end
  | AwaitMultFit l e =>
      (* lines 140-177 *)
      match (let* multLoss := run_fit e (multNet l) (multData l) in
             let* multAcc := evaluate (multNet l) (multData l) in
             ret (multLoss, multAcc)) (engine c) with
      | (Throw err, h) => mkConfig s h (Rejected err)
      | (Ok (multLoss, multAcc), h) =>
          let s := setMultiplicationStats
                     (fun prev => prev ++ [mkStats (e + 1) multLoss multAcc None None]) s in
          match fuse l h with
          | (Throw err, h) => mkConfig s h (Rejected err)
          | (Ok merged, h) =>
              let s := setMergedNet (Some merged) s in
              match test_merged l merged h with
              | (Throw err, h) => mkConfig s h (Rejected err)
              | (Ok (divLossVal, divAcc), h) =>
                  let s := setMergedStats
                             (fun prev => prev ++ [mkStats (e + 1) divLossVal divAcc
                                                     (Some divLossVal) (Some divAcc)]) s in
                  mkConfig s h (AwaitDelay l e)
              end
          end
      end
  | AwaitDelay l e =>
      (* line 177, then [epoch++] and the loop test *)
      enter_epoch s (engine c) l (e + 1)
  end.

(** The component when it is mounted (lines 15-24 and 192-202). *)
Definition mount : Config :=
  match (let* a := createNetwork in let* m := createNetwork in ret (a, m)) TF.empty with
  | (Ok (a, m), h) => mkConfig (mkState (Some a) (Some m) None [] [] [] false 0) h Idle
  | (Throw e, h) => mkConfig (mkState None None None [] [] [] false 0) h Idle
  end.

Inductive Event := Click | Resume.

Definition step (c : Config) (ev : Event) : Config :=
  match ev with
  | Click => trainNetworks c
  | Resume => resume c
  end.

Definition run (c : Config) (evs : list Event) : Config :=
  fold_left step evs c.
End WithRuntime.
End App.

(* ===================================================================== *)
(** * The visualisation ([NetworkVisualization.tsx]) *)
(* ===================================================================== *)

Module Viz.

(** ** Simulated activations (lines 26-36).  The sine is the real one:
    rounding in [Math.sin] is not modelled. *)
Section Activations.
Local Open Scope R_scope.

(** Truncation towards zero, and the remainder [x % y] it defines. *)
Definition trunc (x : R) : Z :=
  if Rle_dec 0 x then Int_part x else (- Int_part (- x))%Z.
Definition rem (x y : R) : R := x - IZR (trunc (x / y)) * y.


Definition activation (time : R) (layerIdx nodeIdx : nat) : R :=
  let phase := rem (time * 0.5 + INR layerIdx * 0.3 + INR nodeIdx * 0.1) (PI * 2) in
  0.3 + 0.4 * sin phase.


(** The activation a node is drawn with (lines 163-175). *)
Definition node_activation (activations : list (list R)) (isTraining : bool)
           (time : R) (layerIdx nodeIdx : nat) : R :=
  let activation :=
    match activations !! layerIdx with
    | Some layer =>
        match layer !! nodeIdx with
        | Some a => a
        | None => if isTraining
                  then 0.5 + 0.3 * sin (time * 2 + INR layerIdx + INR nodeIdx)
                  else 0.5
        end
    | None => if isTraining
              then 0.5 + 0.3 * sin (time * 2 + INR layerIdx + INR nodeIdx)
              else 0.5
    end in
  Rmax 0 (Rmin 1 activation).

Definition glowIntensity (activations : list (list R)) (isTraining : bool)
           (time : R) (layerIdx nodeIdx : nat) : R :=
  if isTraining then node_activation activations isTraining time layerIdx nodeIdx
  else 0.5.
End Activations.

(** ** Connections (lines 94-156) *)

Record Connection := mkConnection {
  fromIdx : nat;
  toIdx : nat;
  weight : Num.number;
  absWeight : Num.number
}.

Definition layers : list nat := [2; 16; 1].

Inductive outcome (A : Type) :=
| Drawn (a : A)
| TypeError.   (* a property of [undefined] was read *)
Arguments Drawn {A} a.
Arguments TypeError {A}.

(** [weightData[i]], widened; outside the array it is [undefined],
    whose absolute value is NaN. *)
Definition weight_at (weightData : list F32.f32) (i : nat) : Num.number :=
  match weightData !! i with
  | Some w => F32.to_number w
  | None => S754_nan
  end.

(** Lines 114-122.  [fromLen] and [toLen] are the numbers of nodes of
    the two layers; a missing extent of the weight shape makes the
    loop bound NaN and the loop empty. *)
Definition collect (fromLen toLen : nat) (weightMatrix : Tensor.t) : list Connection :=
  match Tensor.shape weightMatrix !! 0%nat, Tensor.shape weightMatrix !! 1%nat with
  | Some fromNodes, Some toNodes =>
      flat_map (fun fromIdx =>
        map (fun toIdx =>
               let w := weight_at (Tensor.data weightMatrix) (fromIdx * toNodes + toIdx) in
               mkConnection fromIdx toIdx w (Num.abs w))
            (seq 0 (Nat.min toLen toNodes)))
        (seq 0 (Nat.min fromLen fromNodes))
  | _, _ => []
  end.

(** [Array.prototype.sort] with a comparison function: the sort is
    stable, [a] stays before [b] unless [compare a b > 0].  (With a
    comparison that is not consistent, as NaN magnitudes make it, the
    order is left to the implementation; this is one such order.) *)
Section Sort.
Context {A : Type} (compare : A -> A -> Num.number).

Fixpoint insert (x : A) (l : list A) : list A :=
  match l with
  | [] => [x]
  | y :: l' => if Num.ltb Num.zero (compare x y) then y :: insert x l' else x :: l
  end.

Definition sort (l : list A) : list A := foldr insert [] l.
End Sort.

(** Line 125: [(a, b) => b.absWeight - a.absWeight]. *)
Definition by_magnitude (a b : Connection) : Num.number :=
  Num.sub (absWeight b) (absWeight a).

(** Lines 126-129. *)
Definition topConnections (count fromLen toLen : nat) : Z :=
  Z.max (Num.ceil (Num.mul (Num.of_Z (Z.of_nat count)) (Num.lit 3 10)))
        (Z.min (Z.of_nat fromLen) (Z.of_nat toLen)).

(** [a[i]] for a numeric index. *)
Definition at_index {A} (l : list A) (i : Z) : option A :=
  if (i <? 0)%Z then None else l !! Z.to_nat i.

(** Line 130: [connectionWeights[topConnections - 1]?.absWeight || 0]. *)
Definition threshold (sorted : list Connection) (k : Z) : Num.number :=
  match at_index sorted (k - 1) with
  | Some c => Num.or_zero (absWeight c)
  | None => Num.zero
  end.

(** Lines 138-153: the connections that are stroked, in this order;
    [n] counts the iterations that are left. *)
Fixpoint draw_loop (sorted : list Connection) (thr : Num.number) (i n : nat)
  : outcome (list Connection) :=
  match n with
  | O => Drawn []
  | S n' =>
      match sorted !! i with
      | None => TypeError
      | Some conn =>
          if Num.ltb (absWeight conn) (Num.mul thr Num.half) then Drawn []
          else match draw_loop sorted thr (S i) n' with
               | Drawn l => Drawn (conn :: l)
               | TypeError => TypeError
               end
      end
  end.

(** The connections drawn between two adjacent layers. *)
Definition draw_connections (fromLen toLen : nat) (weightMatrix : Tensor.t)
  : outcome (list Connection) :=
  let connectionWeights := sort by_magnitude (collect fromLen toLen weightMatrix) in
  let k := topConnections (length connectionWeights) fromLen toLen in
  draw_loop connectionWeights (threshold connectionWeights k) 0 (Z.to_nat k).

(** Lines 96-156: all adjacent pairs of [layers]; the kernel of pair
    number [weightPairIdx] is weight [2 * weightPairIdx]. *)
Fixpoint draw_pairs (weights : list Tensor.t) (ls : list nat) (weightPairIdx : nat)
  : outcome (list (list Connection)) :=
  match ls with
  | fromLen :: ((toLen :: _) as rest) =>
      match weights !! (weightPairIdx * 2)%nat with
      | Some weightMatrix =>
          match draw_connections fromLen toLen weightMatrix with
          | TypeError => TypeError
          | Drawn l =>
              match draw_pairs weights rest (S weightPairIdx) with
              | TypeError => TypeError
              | Drawn ls' => Drawn (l :: ls')
              end
          end
      | None => draw_pairs weights rest weightPairIdx
      end
  | _ => Drawn []
  end.

Definition draw (weights : list Tensor.t) : outcome (list (list Connection)) :=
  draw_pairs weights layers 0.
End Viz.

(* ===================================================================== *)
(** * Vocabulary of the statements *)
(* ===================================================================== *)

Module FloatSpec.
Local Open Scope Z_scope.

(** A non-negative binary64 value that is zero, infinite, or normal. *)
Definition is_magnitude (x : Num.number) : Prop :=
  match x with
  | S754_zero false | S754_infinity false => True
  | S754_finite false m e => Zpos (digits2_pos m) = 53 /\ -1074 <= e <= 971
  | _ => False
  end.

(** The position of a magnitude in the order of magnitudes. *)
Definition key (x : Num.number) : Z * Z * Z :=
  match x with
  | S754_zero _ => (0, 0, 0)
  | S754_finite _ m e => (1, e, Zpos m)
  | S754_infinity _ => (2, 0, 0)
  | S754_nan => (3, 0, 0)
  end.

Definition key_le (a b : Z * Z * Z) : Prop :=
  let '(a1, a2, a3) := a in
  let '(b1, b2, b3) := b in
  a1 < b1 \/ (a1 = b1 /\ (a2 < b2 \/ (a2 = b2 /\ a3 <= b3))).

(** The last step of [binary_round_aux]: the rounded mantissa is shifted
    once more if rounding made it too long, then packed. *)
Definition pack (s : bool) (m : Z) (e : Z) : Num.number :=
  let '(mrs, e') := shr_fexp 53 1024 m e loc_Exact in
  match shr_m mrs with
  | Z0 => S754_zero s
  | Zpos m' => if e' <=? 1024 - 53 then S754_finite s m' e' else S754_infinity s
  | Zneg _ => S754_nan
  end.
End FloatSpec.

Module DatasetSpec.
Definition digits : list Z := [0; 1; 2; 3; 4; 5; 6; 7; 8; 9]%Z.
Definition nonzero_digits : list Z := [1; 2; 3; 4; 5; 6; 7; 8; 9]%Z.

(** The rows made of all pairs over [ds], first component slowest. *)
Definition pairs_over (ds : list Z) : list (list F32.f32) :=
  map (fun p => [F32.of_Z (fst p); F32.of_Z (snd p)]) (list_prod ds ds).

(** The second component of a record is present and is not a zero. *)
Definition nonzero_second (row : list F32.f32) : bool :=
  match row !! 1%nat with
  | Some b => negb (SFeqb b (S754_zero false))
  | None => false
  end.
End DatasetSpec.

Module FusionSpec.
Import TF App.

(** The value stored at position [p] of parameter tensor [i] of [net]. *)
Definition param (h : heap) (net : Sequential) (i p : nat) : option F32.f32 :=
  match weights net !! i with
  | Some id =>
      match tensors h !! id with
      | Some x => Tensor.data x !! p
      | None => None
      end
  | None => None
  end.

(** [net] is a live network of the fixed architecture. *)
Definition has_architecture (h : heap) (net : Sequential) : Prop :=
  Forall2 (fun id s => exists x, tensors h !! id = Some x /\ Tensor.shape x = s
                                 /\ Tensor.well_formed x /\ id < next h)
          (weights net) architecture.

(** All the handles of [net] were handed out by the engine. *)
Definition allocated (h : heap) (net : Sequential) : Prop :=
  Forall (fun id => id < next h) (weights net).

(** The parameter tensors of [net], as the engine holds them. *)
Definition params (h : heap) (net : Sequential) : list (option Tensor.t) :=
  map (fun id => tensors h !! id) (weights net).


(** The element-wise mean of two tensors of one shape. *)
Definition average (x y : Tensor.t) : Tensor.t :=
  Tensor.div_scalar (Tensor.mk (Tensor.shape x) (zip_with F32.add (Tensor.data x) (Tensor.data y)))
                    F32.two.

(** Computations that leave the handles below [n] alone and answer
    with a value satisfying [Q]. *)
Definition frames {A} (n : nat) (m : M A) (Q : A -> Prop) : Prop :=
  forall h, n <= next h ->
    next h <= next (snd (m h))
    /\ (forall id, id < n -> tensors (snd (m h)) !! id = tensors h !! id)
    /\ (forall a, fst (m h) = Ok a -> Q a).
End FusionSpec.

Module TrainerSpec.
Import TF App.

(** Every entry carries its 1-based position as its epoch number. *)
Definition indexed (l : list NetworkStats) : Prop :=
  map epoch l = seq 1 (length l).

(** The three histories of a state. *)
Definition histories (s : State) : list NetworkStats * list NetworkStats * list NetworkStats :=
  (additionStats s, multiplicationStats s, mergedStats s).

Definition is_rejected (t : Task) : Prop :=
  match t with Rejected _ => True | _ => False end.

(** What relates the histories to the place where the activation is
    suspended. *)
Definition consistent (c : Config) : Prop :=
  let s := app c in
  indexed (additionStats s) /\ indexed (multiplicationStats s) /\ indexed (mergedStats s)
  /\ match task c with
     | AwaitAddFit _ e =>
         e < epochs /\ isTraining s = true /\ length (additionStats s) = e
         /\ length (multiplicationStats s) = e /\ length (mergedStats s) = e
     | AwaitMultFit _ e =>
         e < epochs /\ isTraining s = true /\ length (additionStats s) = S e
         /\ length (multiplicationStats s) = e /\ length (mergedStats s) = e
     | AwaitDelay _ e =>
         e < epochs /\ isTraining s = true /\ length (additionStats s) = S e
         /\ length (multiplicationStats s) = S e /\ length (mergedStats s) = S e
     | Rejected _ => isTraining s = true
     | Idle => True
     end.

(** The number of resumptions since the click. *)
Definition position (t : Task) : option nat :=
  match t with
  | AwaitAddFit _ e => Some (3 * e)
  | AwaitMultFit _ e => Some (3 * e + 1)
  | AwaitDelay _ e => Some (3 * e + 2)
  | _ => None
  end.

End TrainerSpec.

Module AccuracySpec.
(** The absolute prediction error of a record is at most 0.5. *)
Definition within_tolerance (p t : F32.f32) : bool :=
  F32.leb (F32.abs (F32.sub p t)) F32.half.


(** The number of records within tolerance. *)
Definition hits (ps ts : list F32.f32) : nat :=
  length (filter (fun pt => within_tolerance (fst pt) (snd pt) = true) (zip ps ts)).

(** A column of [n] records. *)
Definition column (n : nat) (x : Tensor.t) : Prop :=
  Tensor.shape x = [n; 1] /\ length (Tensor.data x) = n.

End AccuracySpec.

Module VizSpec.
Import Viz.

(** The adjacent pairs of layers that [draw] goes through. *)
Definition layer_pairs : list (nat * nat) := zip layers (tl layers).

(** [w] is the kernel between a layer of [fromLen] nodes and a layer of
    [toLen] nodes: a well-formed matrix of binary32 values. *)
Definition is_kernel (fromLen toLen : nat) (w : Tensor.t) : Prop :=
  Tensor.shape w = [fromLen; toLen]
  /\ Tensor.well_formed w
  /\ Forall (fun x => F32.valid x = true) (Tensor.data w).

(** [a] is at least as strong as [b]. *)
Definition stronger (a b : Connection) : Prop :=
  Num.leb (absWeight b) (absWeight a) = true.

(** The test of the early stop (line 140). *)
Definition below_half (thr : Num.number) (c : Connection) : bool :=
  Num.ltb (absWeight c) (Num.mul thr Num.half).

(** The connections of a pair of layers, ranked. *)
Definition ranked (fromLen toLen : nat) (w : Tensor.t) : list Connection :=
  sort by_magnitude (collect fromLen toLen w).

(** The least integer that is at least three tenths of [total]. *)
Definition ceil_30_percent (total : Z) : Z := ((3 * total + 9) / 10)%Z.

(** The strength of a connection is an ordinary magnitude (not NaN). *)
Definition has_magnitude (c : Connection) : Prop :=
  FloatSpec.is_magnitude (absWeight c).

(** The count of line 127 agrees with the exact ceiling. *)
Definition ceil_agrees (total : nat) : bool :=
  (Num.ceil (Num.mul (Num.of_Z (Z.of_nat total)) (Num.lit 3 10))
   =? ceil_30_percent (Z.of_nat total))%Z.
End VizSpec.

(* ===================================================================== *)
(** * Concrete runtimes and inputs *)
(* ===================================================================== *)

Module Examples.
Import TF App.

#[global] Instance tensor_eq_dec : EqDecision Tensor.t.
Proof. solve_decision. Defined.

(** Inference that answers 0 for every record. *)
Definition predict_zero (ws : list Tensor.t) (x : Tensor.t) : option Tensor.t :=
  let n := hd 0 (Tensor.shape x) in
  Some (Tensor.mk [n; 1] (repeat (S754_zero false) n)).

(** A runtime in which nothing fails: kernels are initialised with small
    integers, the optimiser leaves the weights alone. *)
Definition rt_ok : Runtime :=
  mkRuntime (fun seed i => F32.of_Z (Z.of_nat (seed + i)))
            (fun _ ws _ _ _ => Some (ws, Num.one))
            predict_zero
            (fun _ _ => Some (S754_zero false)).

(** The same runtime, except that fitting on the multiplication targets
    is rejected. *)
Definition rt_mult_fails : Runtime :=
  mkRuntime (glorotUniform rt_ok)
            (fun e ws x y b =>
               if bool_decide (y = Dataset.outputs Dataset.generateMultiplicationData)
               then None else fit rt_ok e ws x y b)
            predict_zero
            (meanSquaredError rt_ok).

Definition started : Config :=
  trainNetworks rt_mult_fails (mount rt_mult_fails).

(** The two networks of the mounted component. *)
Definition heap0 : heap := engine (mount rt_ok).
Definition netA : Sequential := mkSequential [0; 1; 2; 3].
Definition netB : Sequential := mkSequential [4; 5; 6; 7].

(** A 2 x 16 kernel with the entries -0.7, -0.6, ..., 2.4. *)
Definition kernel_ramp : Tensor.t :=
  Tensor.mk [2; 16] (map (fun i => F32.fround (Num.lit (Z.of_nat i - 7) 10)) (seq 0 32)).

(** A 16 x 1 kernel whose entries are 0.5 and -0.5 in turn. *)
Definition kernel_flat : Tensor.t :=
  Tensor.mk [16; 1]
    (map (fun i => if Nat.even i then F32.half else SFopp F32.half) (seq 0 16)).

(** A column of a hundred predictions, all 0. *)
Definition zero_predictions : Tensor.t :=
  Tensor.mk [100; 1] (repeat (S754_zero false) 100).
End Examples.

(* ===================================================================== *)
(** * The panels ([App.tsx], lines 213-356) *)
(* ===================================================================== *)

Module Panel.
Import App.

(** Line 213: [stats[stats.length - 1] || { epoch: 0, loss: 0, accuracy: 0 }].
    An entry of the history is an object, which is never falsy. *)
Definition no_stats : NetworkStats := mkStats 0 Num.zero Num.zero None None.

Definition getLatestStats (stats : list NetworkStats) : NetworkStats :=
  match Viz.at_index stats (Z.of_nat (length stats) - 1) with
  | Some s => s
  | None => no_stats
  end.

(** Lines 223-229: the button. *)
Inductive Label :=
| StartTraining
| TrainingEpoch (currentEpoch : nat).   (* TRAINING... EPOCH currentEpoch/50 *)

Record Button := mkButton { disabled : bool; label : Label }.

Definition button (s : State) : Button :=
  mkButton (isTraining s)
           (if isTraining s then TrainingEpoch (currentEpoch s) else StartTraining).

(** [l.slice(-n)]: the last [n] elements, all of them when there are
    fewer. *)
Definition slice_last {A} (n : nat) (l : list A) : list A :=
  drop (length l - n) l.

(** [Math.max]: NaN as soon as one argument is NaN, [+0] above [-0],
    minus infinity without arguments. *)
Definition max2 (a b : Num.number) : Num.number :=
  match a, b with
  | S754_nan, _ | _, S754_nan => S754_nan
  | S754_zero sa, S754_zero sb => S754_zero (sa && sb)
  | _, _ => if Num.ltb a b then b else a
  end.

Definition Math_max (xs : list Num.number) : Num.number :=
  fold_left max2 xs (S754_infinity true).

(** Lines 259-269 and 301-311: the heights, in percent, of the bars of
    a loss chart. *)
Definition loss_bars (stats : list NetworkStats) : list Num.number :=
  map (fun stat =>
         let maxLoss := Math_max (map loss stats ++ [Num.lit 1 10]) in
         let normalizedHeight :=
           Math_max [Num.of_Z 10; Num.mul (Num.div (loss stat) maxLoss) (Num.of_Z 100)] in
         normalizedHeight)
      (slice_last 10 stats).

(** Lines 343-353: the bars of the accuracy chart of the merged
    network. *)
Definition accuracy_bars (stats : list NetworkStats) : list Num.number :=
  map (fun stat =>
         let accuracy := match testAccuracy stat with
                         | Some a => Num.or_zero a
                         | None => Num.zero
                         end in
         let normalizedHeight := Math_max [Num.of_Z 10; Num.mul accuracy (Num.of_Z 100)] in
         normalizedHeight)
      (slice_last 10 stats).
End Panel.

(* ===================================================================== *)
(** * Drawing a node ([NetworkVisualization.tsx], lines 159-205) *)
(* ===================================================================== *)

Module Canvas.
Import TF.

(** What a call of [draw] leaves on the canvas (lines 54-216): the
    placeholder text, the connections that were stroked, or the error
    text of the [catch] block. *)
Inductive Frame :=
| Placeholder
| Rendered (connections : list (list Viz.Connection))
| VisualizationError.

(** [network.getWeights()] reads every variable of the model and throws
    when one of them is disposed; any exception inside the [try] block
    ends in the error text. *)
Definition draw (h : heap) (network : option Sequential) : Frame :=
  match network with
  | None => Placeholder
  | Some net =>
      match mapM read (getWeights net) h with
      | (Ok weights, _) =>
          match Viz.draw weights with
          | Viz.Drawn connections => Rendered connections
          | Viz.TypeError => VisualizationError
          end
      | (Throw _, _) => VisualizationError
      end
  end.

Local Open Scope R_scope.

Definition nodeRadius : R := 4.

(** The disc of a node, the halo around it and its three colour stops,
    the brightness of the disc and the blur of its shadow, all from the
    glow intensity of the node.  The quantities are real numbers, as the
    activations are. *)
Definition nodeSize (glowIntensity : R) : R := nodeRadius * (1 + glowIntensity * 0.5).
Definition haloRadius (glowIntensity : R) : R := nodeSize glowIntensity * 3.
Definition haloStops (glowIntensity : R) : list (R * R) :=
  [(0, 0.8 * glowIntensity); (0.5, 0.4 * glowIntensity); (1, 0)].
Definition brightness (glowIntensity : R) : R := 0.5 + glowIntensity * 0.5.
Definition shadowBlur (glowIntensity : R) : R := 8 * glowIntensity.
End Canvas.

(* ===================================================================== *)
(** * More vocabulary *)
(* ===================================================================== *)

Module CanvasSpec.
Import Viz.
(** The number of connections that lines 114-122 collect. *)
Definition connection_count (fromLen toLen : nat) (w : Tensor.t) : nat :=
  match Tensor.shape w !! 0%nat, Tensor.shape w !! 1%nat with
  | Some fromNodes, Some toNodes => Nat.min fromLen fromNodes * Nat.min toLen toNodes
  | _, _ => 0
  end.

(** The two ends of a connection. *)
Definition ends (c : Connection) : nat * nat := (fromIdx c, toIdx c).

(** The entry of a matrix at a row and a column. *)
Definition entry (w : Tensor.t) (i j : nat) : option F32.f32 :=
  match Tensor.rows w !! i with
  | Some row => row !! j
  | None => None
  end.
End CanvasSpec.

Module SessionSpec.
Import TF App.

(** What the display shows of a session, by the place where the
    activation is suspended. *)
Definition progress (c : Config) : Prop :=
  let s := app c in
  let a := length (additionStats s) in
  let m := length (multiplicationStats s) in
  let g := length (mergedStats s) in
  match task c with
  | Idle =>
      isTraining s = false /\ a = currentEpoch s /\ m = currentEpoch s /\ g = currentEpoch s
      /\ (currentEpoch s = 0 \/ currentEpoch s = epochs)
  | AwaitAddFit _ e =>
      isTraining s = true /\ e < epochs /\ currentEpoch s = e + 1 /\ a = e /\ m = e /\ g = e
  | AwaitMultFit _ e =>
      isTraining s = true /\ e < epochs /\ currentEpoch s = e + 1
      /\ a = e + 1 /\ m = e /\ g = e
  | AwaitDelay _ e =>
      isTraining s = true /\ e < epochs /\ currentEpoch s = e + 1
      /\ a = e + 1 /\ m = e + 1 /\ g = e + 1
  | Rejected _ =>
      isTraining s = true /\ 1 <= currentEpoch s <= epochs
      /\ g <= m /\ m <= a /\ a <= currentEpoch s /\ currentEpoch s <= g + 1
  end.

(** ** The engine during a session *)

(** Inference answers with one value per record. *)
Definition predicts_columns (rt : Runtime) : Prop :=
  forall ws x p,
    predict rt ws x = Some p -> AccuracySpec.column (hd 0 (Tensor.shape x)) p.

(** The optimiser returns weights of the shapes it was given. *)
Definition fit_keeps_shapes (rt : Runtime) : Prop :=
  forall e ws x y b ws' l,
    fit rt e ws x y b = Some (ws', l) ->
    Forall2 (fun w w' => Tensor.shape w' = Tensor.shape w) ws ws'.

(** [net] is allocated and its tensors have the shapes of the fixed
    architecture. *)
Definition shaped (h : heap) (net : Sequential) : Prop :=
  Forall2 (fun id s => id < next h
                       /\ exists x, tensors h !! id = Some x /\ Tensor.shape x = s)
          (weights net) architecture.

(** The two tensors of a dataset are in the engine, untouched. *)
Definition holds (h : heap) (d : nat * nat) (data : Dataset.t) : Prop :=
  tensors h !! fst d = Some (Dataset.inputs data)
  /\ tensors h !! snd d = Some (Dataset.outputs data).

(** The local variables of the activation started when the engine had
    handed out [n0] handles. *)
Definition session_locals (n0 : nat) (stale : option Sequential) : Locals :=
  mkLocals (mkSequential [n0; 1 + n0; 2 + n0; 3 + n0])
           (mkSequential [4 + n0; 5 + n0; 6 + n0; 7 + n0])
           (8 + n0, 9 + n0) (10 + n0, 11 + n0) (12 + n0, 13 + n0) stale.

Definition datasets_live (n0 : nat) (h : heap) : Prop :=
  holds h (8 + n0, 9 + n0) Dataset.generateAdditionData
  /\ holds h (10 + n0, 11 + n0) Dataset.generateMultiplicationData
  /\ holds h (12 + n0, 13 + n0) Dataset.generateDivisionData.

Definition datasets_gone (n0 : nat) (h : heap) : Prop :=
  forall id, 8 + n0 <= id < 14 + n0 -> tensors h !! id = None.

(** The activation started at [n0], wherever it stands. *)
Definition in_session (n0 : nat) (c : Config) : Prop :=
  match task c with
  | Idle => datasets_gone n0 (engine c)
  | Rejected _ => datasets_live n0 (engine c)
  | AwaitAddFit l _ | AwaitMultFit l _ | AwaitDelay l _ =>
      l = session_locals n0 (staleMerged l)
      /\ (forall m, staleMerged l = Some m -> Forall (fun id => id < n0) (weights m))
      /\ 14 + n0 <= next (engine c)
      /\ datasets_live n0 (engine c)
  end.

Definition pending (t : Task) : option Locals :=
  match t with
  | AwaitAddFit l _ | AwaitMultFit l _ | AwaitDelay l _ => Some l
  | _ => None
  end.

(** What every reachable configuration satisfies. *)
Definition sound (c : Config) : Prop :=
  let s := app c in
  let h := engine c in
  (forall net, additionNet s = Some net -> FusionSpec.allocated h net)
  /\ (forall net, multiplicationNet s = Some net -> FusionSpec.allocated h net)
  /\ (forall net, mergedNet s = Some net -> FusionSpec.allocated h net)
  /\ (forall l, pending (task c) = Some l ->
        additionNet s = Some (addNet l) /\ multiplicationNet s = Some (multNet l)
        /\ exists n0, in_session n0 c).

(** The two networks that are trained are there and have the fixed
    architecture. *)
Definition shaped_nets (c : Config) : Prop :=
  exists a m,
    additionNet (app c) = Some a /\ multiplicationNet (app c) = Some m
    /\ shaped (engine c) a /\ shaped (engine c) m.

(** The variables of the two networks of the session started at [n0]
    are still there in [h'], with the shapes they had in [h]. *)
Definition keeps (n0 : nat) (h h' : heap) : Prop :=
  next h <= next h'
  /\ forall id x, n0 <= id < 8 + n0 -> tensors h !! id = Some x ->
       exists x', tensors h' !! id = Some x' /\ Tensor.shape x' = Tensor.shape x.

(** The weights that fitting writes back. *)
Definition store (m : gmap nat Tensor.t) (l : list (nat * Tensor.t)) : gmap nat Tensor.t :=
  foldr (fun '(var, w) m => <[var := w]> m) m l.

(** A frame with the connections of the two pairs of layers. *)
Definition renders (f : Canvas.Frame) : Prop :=
  exists l1 l2, f = Canvas.Rendered [l1; l2] /\ length l1 <= 10 /\ length l2 <= 5.

(** An accuracy is the fraction of [n] records. *)
Definition fraction_of (n : nat) (a : Num.number) : Prop :=
  exists k, k <= n /\ a = Num.div (Num.of_Z (Z.of_nat k)) (Num.of_Z (Z.of_nat n)).

Definition recorded (n : nat) (stats : list NetworkStats) : Prop :=
  Forall (fun st => fraction_of n (accuracy st)) stats.

(** The histories hold fractions of the 100, 100 and 81 records, and
    an entry of the merged network repeats its loss and its accuracy
    as test loss and test accuracy. *)
Definition scores (c : Config) : Prop :=
  recorded 100 (additionStats (app c))
  /\ recorded 100 (multiplicationStats (app c))
  /\ recorded 81 (mergedStats (app c))
  /\ Forall (fun st => testLoss st = Some (loss st)
                       /\ testAccuracy st = Some (accuracy st))
            (mergedStats (app c)).
End SessionSpec.

(* ===================================================================== *)
(** * More examples *)
(* ===================================================================== *)

Module Scenarios.
Import TF App Examples.

(** A kernel with a single entry. *)
Definition kernel_single : Tensor.t := Tensor.mk [1; 1] [F32.of_Z 1].

(** The connections drawn for the ramp kernel between the layers of 2
    and of 16 nodes. *)
Definition ramp_connections : list Viz.Connection :=
  match Viz.draw_connections 2 16 kernel_ramp with
  | Viz.Drawn l => l
  | _ => []
  end.

(** The weights of a network of the fixed architecture: the two
    kernels, and biases that are all 0. *)
Definition ramp_weights : list Tensor.t :=
  [kernel_ramp; Tensor.mk [16] (repeat (S754_zero false) 16);
   kernel_flat; Tensor.mk [1] [S754_zero false]].

(** A network that lost two of its weight tensors. *)
Definition netShort : Sequential := mkSequential [4; 5].

(** One prediction, 1, against two targets, both 1. *)
Definition one_prediction : Tensor.t := Tensor.mk [1; 1] [F32.of_Z 1].
Definition two_targets : Tensor.t := Tensor.mk [2; 1] [F32.of_Z 1; F32.of_Z 1].
End Scenarios.

(* ===================================================================== *)
(** * Facts about binary64 and binary32 arithmetic *)
(* ===================================================================== *)

Module FloatFacts.
Import FloatSpec.
Local Open Scope Z_scope.

(** ** Binary digits *)

Lemma digits2_pos_size p : digits2_pos p = Pos.size p.
Proof. induction p; cbn; congruence. Qed.

Lemma digits_bounds p :
  2 ^ (Zpos (digits2_pos p) - 1) <= Zpos p < 2 ^ Zpos (digits2_pos p).
Proof.
  rewrite digits2_pos_size.
  pose proof (Pos.size_gt p) as Hgt. pose proof (Pos.size_le p) as Hle.
  apply Pos2Z.pos_lt_pos in Hgt. apply Pos2Z.pos_le_pos in Hle.
  rewrite Pos2Z.inj_pow in Hgt, Hle. rewrite (Pos2Z.inj_xO p) in Hle.
  split; [|exact Hgt].
  replace (Zpos (Pos.size p)) with (Zpos (Pos.size p) - 1 + 1) in Hle by lia.
  rewrite Z.pow_add_r in Hle by lia. lia.
Qed.

Lemma digits_unique p d :
  2 ^ (d - 1) <= Zpos p < 2 ^ d -> Zpos (digits2_pos p) = d.
Proof.
  intros [Hl Hu]. pose proof (digits_bounds p) as [Bl Bu].
  assert (0 < d).
  { destruct (Z_lt_le_dec 0 d); [assumption|].
    assert (2 ^ d <= 2 ^ 0) by (apply Z.pow_le_mono_r; lia).
    change (2 ^ 0) with 1 in *. lia. }
  assert (d - 1 < Zpos (digits2_pos p)).
  { apply (Z.pow_lt_mono_r_iff 2); lia. }
  assert (Zpos (digits2_pos p) - 1 < d).
  { apply (Z.pow_lt_mono_r_iff 2); lia. }
  lia.
Qed.

Lemma iter_xO m k : Zpos (Pos.iter xO m k) = Zpos m * 2 ^ Zpos k.
Proof.
  change (Pos.iter xO m k) with (shift_pos k m).
  rewrite shift_pos_correct. change (Z.pow_pos 2 k) with (2 ^ Zpos k). ring.
Qed.

(** ** Rounding of mantissas that need no rounding *)

Lemma fexp64 x : fexp 53 1024 x = Z.max (x - 53) (-1074).
Proof. reflexivity. Qed.

Lemma fexp32 x : fexp 24 128 x = Z.max (x - 24) (-149).
Proof. reflexivity. Qed.

Lemma binary_round_aux_exact s m e :
  Zpos (digits2_pos m) = 53 -> -1074 <= e <= 971 ->
  binary_round_aux 53 1024 s (Zpos m) e loc_Exact = S754_finite s m e.
Proof.
  intros Hd He. unfold binary_round_aux, shr_fexp.
  cbn [Zdigits2 shr_record_of_loc]. rewrite Hd, fexp64.
  replace (Z.max (53 + e - 53) (-1074) - e) with 0 by lia.
  cbn [shr shr_m loc_of_shr_record round_nearest_even Zdigits2 shr_record_of_loc].
  rewrite Hd, fexp64.
  replace (Z.max (53 + e - 53) (-1074) - e) with 0 by lia.
  cbn [shr shr_m].
  replace (e <=? 1024 - 53) with true by (symmetry; apply Z.leb_le; lia).
  reflexivity.
Qed.

Lemma binary_round_normal s m e :
  Zpos (digits2_pos m) <= 53 ->
  -1074 <= Zpos (digits2_pos m) + e - 53 <= 971 ->
  exists m',
    binary_round 53 1024 s m e = S754_finite s m' (Zpos (digits2_pos m) + e - 53)
    /\ Zpos (digits2_pos m') = 53
    /\ Zpos m' = Zpos m * 2 ^ (53 - Zpos (digits2_pos m)).
Proof.
  intros Hd He. unfold binary_round. rewrite fexp64.
  rewrite Z.max_l by lia. unfold shl_align.
  pose proof (digits_bounds m) as [Bl Bu].
  destruct (Zpos (digits2_pos m) + e - 53 - e) as [|p|p] eqn:E; [|lia|].
  - assert (Hd53 : Zpos (digits2_pos m) = 53) by lia.
    exists m. rewrite binary_round_aux_exact by lia.
    rewrite Hd53. split; [f_equal; lia|]. split; [reflexivity|].
    change (2 ^ (53 - 53)) with 1. lia.
  - assert (Hp : Zpos p = 53 - Zpos (digits2_pos m)) by lia.
    assert (Hm : Zpos (Pos.iter xO m p) = Zpos m * 2 ^ (53 - Zpos (digits2_pos m))).
    { rewrite iter_xO. now rewrite Hp. }
    assert (Hd' : Zpos (digits2_pos (Pos.iter xO m p)) = 53).
    { apply digits_unique. rewrite Hm.
      assert (E52 : 2 ^ (53 - 1) = 2 ^ (Zpos (digits2_pos m) - 1) * 2 ^ (53 - Zpos (digits2_pos m))).
      { rewrite <- Z.pow_add_r by lia. f_equal. lia. }
      assert (E53 : 2 ^ 53 = 2 ^ Zpos (digits2_pos m) * 2 ^ (53 - Zpos (digits2_pos m))).
      { rewrite <- Z.pow_add_r by lia. f_equal. lia. }
      rewrite E52, E53.
      assert (0 < 2 ^ (53 - Zpos (digits2_pos m))) by (apply Z.pow_pos_nonneg; lia).
      split; [apply Z.mul_le_mono_nonneg_r; lia | apply Z.mul_lt_mono_pos_r; lia]. }
    exists (Pos.iter xO m p). rewrite binary_round_aux_exact by lia. auto.
Qed.

Lemma of_Z_normal n :
  0 < n < 2 ^ 53 ->
  exists m e,
    Num.of_Z n = S754_finite false m e
    /\ Zpos (digits2_pos m) = 53 /\ -52 <= e <= 0
    /\ Zpos m = n * 2 ^ (- e)
    /\ e = Zpos (digits2_pos (Z.to_pos n)) - 53.
Proof.
  intros [Hn0 Hn]. destruct n as [|p|p]; try lia.
  pose proof (digits_bounds p) as [Bl Bu].
  assert (Hd : Zpos (digits2_pos p) <= 53).
  { assert (Zpos (digits2_pos p) - 1 < 53); [|lia].
    apply (Z.pow_lt_mono_r_iff 2); lia. }
  destruct (binary_round_normal false p 0) as (m & E & Hm & Hv); [lia | lia |].
  exists m, (Zpos (digits2_pos p) + 0 - 53).
  split; [exact E|]. split; [exact Hm|]. split; [lia|]. split.
  - rewrite Hv. f_equal. f_equal. lia.
  - cbn [Z.to_pos]. lia.
Qed.

Lemma valid32_bounds s m e :
  F32.valid (S754_finite s m e) = true ->
  Zpos (digits2_pos m) <= 24 /\ -149 <= e <= 104.
Proof.
  unfold F32.valid, valid_binary, bounded, canonical_mantissa. rewrite fexp32.
  intros H. apply andb_true_iff in H as [H1 H2].
  apply Z.eqb_eq in H1. apply Z.leb_le in H2.
  change (F32.emax - F32.prec) with 104 in H2. lia.
Qed.

(** A binary32 value, read as a number, is zero, infinite, NaN or a
    normal binary64 value of moderate exponent. *)
Lemma to_number_normal s m e :
  F32.valid (S754_finite s m e) = true ->
  exists m' e',
    F32.to_number (S754_finite s m e) = S754_finite s m' e'
    /\ Zpos (digits2_pos m') = 53 /\ -201 <= e' <= 75.
Proof.
  intros Hv. apply valid32_bounds in Hv as [Hd He].
  pose proof (Pos2Z.is_pos (digits2_pos m)).
  destruct (binary_round_normal s m e) as (m' & E & Hm & _); [lia | lia |].
  exists m', (Zpos (digits2_pos m) + e - 53).
  split; [|split; [exact Hm | lia]].
  unfold F32.to_number, binary_normalize. destruct s; exact E.
Qed.

Lemma half_value : Num.half = S754_finite false 4503599627370496 (-53).
Proof. reflexivity. Qed.

Lemma shr_52 m :
  SpecFloat.iter_pos shr_1 52 (Build_shr_record (Zpos (4503599627370496 * m)) false false)
  = Build_shr_record (Zpos m) false false.
Proof. simpl Pos.mul. reflexivity. Qed.

Lemma mul_half m e :
  Zpos (digits2_pos m) = 53 -> -1073 <= e <= 971 ->
  Num.mul (S754_finite false m e) Num.half = S754_finite false m (e - 1).
Proof.
  intros Hd He. rewrite half_value. unfold Num.mul, Num.prec, Num.emax, SFmul. cbn [xorb].
  rewrite Pos.mul_comm.
  unfold binary_round_aux, shr_fexp.
  assert (Hd' : Zdigits2 (Zpos (4503599627370496 * m)) = 105).
  { cbn [Zdigits2]. apply digits_unique. rewrite Pos2Z.inj_mul.
    pose proof (digits_bounds m) as B. rewrite Hd in B.
    change (2 ^ (53 - 1)) with 4503599627370496 in B.
    change (2 ^ 53) with 9007199254740992 in B.
    change (2 ^ (105 - 1)) with (4503599627370496 * 4503599627370496).
    change (2 ^ 105) with (4503599627370496 * 9007199254740992). lia. }
  rewrite Hd', fexp64.
  replace (Z.max (105 + (e + -53) - 53) (-1074) - (e + -53)) with 52 by lia.
  cbn [shr shr_record_of_loc]. rewrite shr_52.
  cbn [shr_m loc_of_shr_record round_nearest_even Zdigits2 shr_record_of_loc].
  rewrite Hd, fexp64.
  replace (Z.max (53 + (e + -53 + 52) - 53) (-1074) - (e + -53 + 52)) with 0 by lia.
  cbn [shr shr_m].
  replace (e + -53 + 52 <=? 1024 - 53) with true by (symmetry; apply Z.leb_le; lia).
  f_equal. lia.
Qed.

(** ** Right shifts *)

Lemma iter_pos_nat {A} (f : A -> A) p x :
  SpecFloat.iter_pos f p x = Nat.iter (Pos.to_nat p) f x.
Proof.
  revert x. induction p as [p IH|p IH|]; intros x; cbn [SpecFloat.iter_pos].
  - rewrite !IH, Pos2Nat.inj_xI.
    replace (S (2 * Pos.to_nat p)) with (Pos.to_nat p + S (Pos.to_nat p))%nat by lia.
    rewrite Nat.iter_add. f_equal. symmetry. apply Nat.iter_succ_r.
  - rewrite !IH, Pos2Nat.inj_xO.
    replace (2 * Pos.to_nat p)%nat with (Pos.to_nat p + Pos.to_nat p)%nat by lia.
    now rewrite Nat.iter_add.
  - reflexivity.
Qed.

Lemma shr_1_m mrs : 0 <= shr_m mrs -> shr_m (shr_1 mrs) = shr_m mrs / 2.
Proof.
  destruct mrs as [m r s]. cbn [shr_m]. intros Hm.
  rewrite <- Z.div2_div. destruct m as [|[p|p|]|p]; try reflexivity; lia.
Qed.

Lemma shr_m_iter_nat n mrs :
  0 <= shr_m mrs -> shr_m (Nat.iter n shr_1 mrs) = shr_m mrs / 2 ^ Z.of_nat n.
Proof.
  intros Hm. induction n as [|n IH].
  - cbn. now rewrite Z.div_1_r.
  - rewrite Nat.iter_succ, shr_1_m.
    + rewrite IH, Nat2Z.inj_succ, Z.pow_succ_r by lia.
      rewrite Z.div_div by lia. f_equal. lia.
    + rewrite IH. apply Z.div_pos; lia.
Qed.

Lemma shr_m_iter_pos p mrs :
  0 <= shr_m mrs -> shr_m (SpecFloat.iter_pos shr_1 p mrs) = shr_m mrs / 2 ^ Zpos p.
Proof.
  intros Hm. rewrite iter_pos_nat, shr_m_iter_nat by exact Hm.
  now rewrite positive_nat_Z.
Qed.

Lemma shr_m_of_loc m l : shr_m (shr_record_of_loc m l) = m.
Proof. destruct l as [|[]]; reflexivity. Qed.

Lemma loc_of_shr_record_of_loc m l : loc_of_shr_record (shr_record_of_loc m l) = l.
Proof. destruct l as [|[]]; reflexivity. Qed.

Lemma round_nearest_even_range m l :
  m <= round_nearest_even m l <= m + 1.
Proof. destruct l as [|[]]; cbn; try destruct (Z.even m); lia. Qed.

(** A positive mantissa with an exponent in range stays positive. *)
Lemma shr_fexp_pos m e l :
  0 < m -> -1074 <= e ->
  0 < shr_m (fst (shr_fexp 53 1024 m e l)) /\ -1074 <= snd (shr_fexp 53 1024 m e l).
Proof.
  intros Hm He. unfold shr_fexp, shr. rewrite fexp64.
  destruct (Z.max (Zdigits2 m + e - 53) (-1074) - e) as [|p|p] eqn:E; cbn [fst snd];
    rewrite ?shr_m_of_loc; try (split; lia).
  rewrite shr_m_iter_pos by (rewrite shr_m_of_loc; lia). rewrite shr_m_of_loc.
  split; [|lia].
  destruct m as [|q|q]; try lia. cbn [Zdigits2] in E.
  pose proof (digits_bounds q) as [Bl _].
  apply Z.div_str_pos. split; [apply Z.pow_pos_nonneg; lia|].
  apply Z.le_trans with (2 ^ (Zpos (digits2_pos q) - 1)); [|exact Bl].
  apply Z.pow_le_mono_r; lia.
Qed.

(** Rounding a positive mantissa never yields a zero or a NaN, and keeps
    the sign. *)
Lemma binary_round_aux_sign s m e l :
  0 < m -> -1074 <= e ->
  (exists m' e', binary_round_aux 53 1024 s m e l = S754_finite s m' e')
  \/ binary_round_aux 53 1024 s m e l = S754_infinity s.
Proof.
  intros Hm He. unfold binary_round_aux.
  pose proof (shr_fexp_pos m e l Hm He) as [P1 P2].
  destruct (shr_fexp 53 1024 m e l) as [mrs' e']. cbn [fst snd] in P1, P2.
  pose proof (round_nearest_even_range (shr_m mrs') (loc_of_shr_record mrs')) as [R _].
  pose proof (shr_fexp_pos (round_nearest_even (shr_m mrs') (loc_of_shr_record mrs'))
                e' loc_Exact ltac:(lia) P2) as [Q1 _].
  destruct (shr_fexp 53 1024 _ e' loc_Exact) as [mrs'' e'']. cbn [fst] in Q1.
  destruct (shr_m mrs'') as [|q|q]; try lia.
  destruct (e'' <=? 1024 - 53); eauto.
Qed.

Lemma shl_align_fst m e e' :
  e' <= e -> Zpos (fst (shl_align m e e')) = Zpos m * 2 ^ (e - e').
Proof.
  intros H. unfold shl_align. destruct (e' - e) as [|p|p] eqn:E; cbn [fst]; try lia.
  - replace (e - e') with 0 by lia. change (2 ^ 0) with 1. lia.
  - rewrite iter_xO. f_equal. f_equal. lia.
Qed.

Lemma shl_align_snd m e e' : e' <= e -> snd (shl_align m e e') = e'.
Proof.
  intros H. unfold shl_align. destruct (e' - e) as [|p|p] eqn:E; cbn [snd]; lia.
Qed.

Lemma binary_normalize_sign d e :
  -1074 <= e -> d <> 0 ->
  (exists m' e', binary_normalize 53 1024 d e false = S754_finite (d <? 0) m' e')
  \/ binary_normalize 53 1024 d e false = S754_infinity (d <? 0).
Proof.
  intros He Hd. unfold binary_normalize, binary_round.
  destruct d as [|p|p]; try lia.
  - destruct (shl_align p e _) as [mz ez] eqn:E.
    apply binary_round_aux_sign; [lia|].
    unfold shl_align in E. rewrite fexp64 in E.
    destruct (Z.max _ _ - e) in E; injection E as <- <-; lia.
  - destruct (shl_align p e _) as [mz ez] eqn:E.
    apply binary_round_aux_sign; [lia|].
    unfold shl_align in E. rewrite fexp64 in E.
    destruct (Z.max _ _ - e) in E; injection E as <- <-; lia.
Qed.

(** ** The order of magnitudes *)

Lemma leb_key a b :
  is_magnitude a -> is_magnitude b -> (Num.leb a b = true <-> key_le (key a) (key b)).
Proof.
  unfold Num.leb, SFleb, SFcompare, key_le, key.
  destruct a as [[]|[]| |[] ma ea], b as [[]|[]| |[] mb eb]; cbn [is_magnitude];
    try contradiction; intros _ _; try (split; [intros _; lia | reflexivity]);
    try (split; [discriminate | lia]).
  change (Pos.compare_cont Eq ma mb) with (Pos.compare ma mb).
  destruct (Z.compare_spec ea eb); [destruct (Pos.compare_spec ma mb)| |];
    split; try discriminate; try reflexivity; try lia.
Qed.

Lemma ltb_key a b :
  is_magnitude a -> is_magnitude b -> (Num.ltb a b = true <-> ~ key_le (key b) (key a)).
Proof.
  unfold Num.ltb, SFltb, SFcompare, key_le, key.
  destruct a as [[]|[]| |[] ma ea], b as [[]|[]| |[] mb eb]; cbn [is_magnitude];
    try contradiction; intros _ _; try (split; [intros _; lia | reflexivity]);
    try (split; [discriminate | lia]).
  change (Pos.compare_cont Eq ma mb) with (Pos.compare ma mb).
  destruct (Z.compare_spec ea eb); [destruct (Pos.compare_spec ma mb)| |];
    split; try discriminate; try reflexivity; try lia.
Qed.

Lemma ltb_false_leb a b :
  is_magnitude a -> is_magnitude b -> Num.ltb a b = false -> Num.leb b a = true.
Proof.
  intros Ha Hb H. apply (leb_key b a Hb Ha).
  destruct (key a) as [[a1 a2] a3] eqn:Ka, (key b) as [[b1 b2] b3] eqn:Kb.
  assert (N : ~ ~ key_le (b1, b2, b3) (a1, a2, a3)).
  { intros C. rewrite <- Ka, <- Kb in C. apply (ltb_key a b Ha Hb) in C. congruence. }
  unfold key_le in *. lia.
Qed.

Lemma ltb_true_leb a b :
  is_magnitude a -> is_magnitude b -> Num.ltb a b = true -> Num.leb a b = true.
Proof.
  intros Ha Hb H. apply (leb_key a b Ha Hb). apply (ltb_key a b Ha Hb) in H.
  destruct (key a) as [[a1 a2] a3], (key b) as [[b1 b2] b3]. unfold key_le in *. lia.
Qed.

Lemma leb_trans a b c :
  is_magnitude a -> is_magnitude b -> is_magnitude c ->
  Num.leb a b = true -> Num.leb b c = true -> Num.leb a c = true.
Proof.
  intros Ha Hb Hc H1 H2. apply (leb_key a c Ha Hc).
  apply (leb_key a b Ha Hb) in H1. apply (leb_key b c Hb Hc) in H2.
  destruct (key a) as [[a1 a2] a3], (key b) as [[b1 b2] b3], (key c) as [[c1 c2] c3].
  unfold key_le in *. lia.
Qed.

(** ** The sign of a difference of magnitudes *)

Lemma pow2_ge_2 k : 1 <= k -> 2 <= 2 ^ k.
Proof. intros H. change 2 with (2 ^ 1) at 1. apply Z.pow_le_mono_r; lia. Qed.

Lemma sub_positive a b :
  is_magnitude a -> is_magnitude b ->
  Num.ltb Num.zero (Num.sub a b) = Num.ltb b a.
Proof.
  destruct a as [[]|[]| |[] ma ea], b as [[]|[]| |[] mb eb]; cbn [is_magnitude];
    try contradiction; intros Ha Hb; try reflexivity.
  destruct Ha as [Da Ea], Hb as [Db Eb].
  pose proof (digits_bounds ma) as Ba. pose proof (digits_bounds mb) as Bb.
  rewrite Da in Ba. rewrite Db in Bb.
  change (2 ^ (53 - 1)) with 4503599627370496 in *.
  change (2 ^ 53) with 9007199254740992 in *.
  unfold Num.sub, Num.prec, Num.emax, SFsub. cbn [cond_Zopp].
  set (ez := Z.min ea eb).
  rewrite !shl_align_fst by (subst ez; lia).
  set (D := Zpos ma * 2 ^ (ea - ez) - Zpos mb * 2 ^ (eb - ez)).
  assert (HD : Num.ltb Num.zero (binary_normalize 53 1024 D ez false) = (0 <? D)).
  { destruct (Z.eq_dec D 0) as [->|Hne]; [reflexivity|].
    destruct (binary_normalize_sign D ez ltac:(subst ez; lia) Hne) as [(m' & e' & ->) | ->];
      destruct (Z.ltb_spec D 0), (Z.ltb_spec 0 D); try reflexivity; lia. }
  rewrite HD.
  unfold Num.ltb, SFltb, SFcompare.
  change (Pos.compare_cont Eq mb ma) with (Pos.compare mb ma).
  subst D ez.
  destruct (Z.compare_spec eb ea) as [Heq|Hlt|Hgt].
  - subst eb. rewrite Z.min_id, Z.sub_diag. change (2 ^ 0) with 1.
    destruct (Pos.compare_spec mb ma), (Z.ltb_spec 0 (Zpos ma * 1 - Zpos mb * 1));
      try reflexivity; lia.
  - rewrite Z.min_r by lia. rewrite Z.sub_diag. change (2 ^ 0) with 1.
    pose proof (pow2_ge_2 (ea - eb) ltac:(lia)).
    destruct (Z.ltb_spec 0 (Zpos ma * 2 ^ (ea - eb) - Zpos mb * 1)); [reflexivity|nia].
  - rewrite Z.min_l by lia. rewrite Z.sub_diag. change (2 ^ 0) with 1.
    pose proof (pow2_ge_2 (eb - ea) ltac:(lia)).
    destruct (Z.ltb_spec 0 (Zpos ma * 1 - Zpos mb * 2 ^ (eb - ea))); [nia|reflexivity].
Qed.

(** ** Rounding of quotients *)

Lemma binary_round_aux_pack s m e l :
  binary_round_aux 53 1024 s m e l =
  pack s (round_nearest_even (shr_m (fst (shr_fexp 53 1024 m e l)))
                             (loc_of_shr_record (fst (shr_fexp 53 1024 m e l))))
       (snd (shr_fexp 53 1024 m e l)).
Proof.
  unfold binary_round_aux, pack. destruct (shr_fexp 53 1024 m e l) as [mrs' e'].
  reflexivity.
Qed.

Lemma pack_normal s m e :
  2 ^ 52 <= m <= 2 ^ 53 -> -1074 <= e <= 970 ->
  exists m' e',
    pack s m e = S754_finite s m' e' /\ Zpos (digits2_pos m') = 53
    /\ ((e' = e /\ Zpos m' = m) \/ (e' = e + 1 /\ Zpos m' = 2 ^ 52 /\ m = 2 ^ 53)).
Proof.
  intros Hm He. unfold pack, shr_fexp. rewrite fexp64.
  destruct (Z.eq_dec m (2 ^ 53)) as [->|Hne].
  - change (Zdigits2 (2 ^ 53)) with 54.
    replace (Z.max (54 + e - 53) (-1074) - e) with 1 by lia.
    cbn [shr shr_record_of_loc SpecFloat.iter_pos shr_1 shr_m].
    replace (e + 1 <=? 1024 - 53) with true by (symmetry; apply Z.leb_le; lia).
    do 2 eexists. split; [reflexivity|]. split; [reflexivity|]. right. auto.
  - destruct m as [|p|p]; try lia.
    assert (Hd : Zpos (digits2_pos p) = 53) by (apply digits_unique; lia).
    cbn [Zdigits2]. rewrite Hd.
    replace (Z.max (53 + e - 53) (-1074) - e) with 0 by lia.
    cbn [shr shr_record_of_loc shr_m].
    replace (e <=? 1024 - 53) with true by (symmetry; apply Z.leb_le; lia).
    do 2 eexists. split; [reflexivity|]. split; [exact Hd|]. left. auto.
Qed.

Lemma binary_round_aux_bounds s q e l :
  2 ^ 52 <= q < 2 ^ 54 -> -1074 <= e <= 969 ->
  exists m' e',
    binary_round_aux 53 1024 s q e l = S754_finite s m' e'
    /\ Zpos (digits2_pos m') = 53
    /\ ((q < 2 ^ 53 /\ (e' = e \/ (e' = e + 1 /\ Zpos m' = 2 ^ 52)))
        \/ (2 ^ 53 <= q /\ (e' = e + 1 \/ (e' = e + 2 /\ Zpos m' = 2 ^ 52)))).
Proof.
  intros Hq He. rewrite binary_round_aux_pack. unfold shr_fexp. rewrite fexp64.
  destruct q as [|p|p]; try lia. cbn [Zdigits2].
  destruct (Z_lt_le_dec (Zpos p) (2 ^ 53)) as [Hlt|Hge].
  - assert (Hd : Zpos (digits2_pos p) = 53) by (apply digits_unique; lia).
    rewrite Hd. replace (Z.max (53 + e - 53) (-1074) - e) with 0 by lia.
    cbn [shr fst snd]. rewrite shr_m_of_loc, loc_of_shr_record_of_loc.
    pose proof (round_nearest_even_range (Zpos p) l) as R.
    destruct (pack_normal s (round_nearest_even (Zpos p) l) e) as (m' & e' & E & D & C);
      [lia | lia |].
    exists m', e'. split; [exact E|]. split; [exact D|]. left. split; [exact Hlt|].
    destruct C as [[-> _] | (-> & Hm & _)]; auto.
  - assert (Hd : Zpos (digits2_pos p) = 54) by (apply digits_unique; lia).
    rewrite Hd. replace (Z.max (54 + e - 53) (-1074) - e) with 1 by lia.
    cbn [shr fst snd SpecFloat.iter_pos].
    set (mrs := shr_1 (shr_record_of_loc (Zpos p) l)).
    assert (Hm : shr_m mrs = Zpos p / 2).
    { subst mrs. rewrite shr_1_m; rewrite shr_m_of_loc; lia. }
    assert (Hr : 2 ^ 52 <= Zpos p / 2 < 2 ^ 53).
    { split; [apply Z.div_le_lower_bound; lia | apply Z.div_lt_upper_bound; lia]. }
    pose proof (round_nearest_even_range (shr_m mrs) (loc_of_shr_record mrs)) as R.
    rewrite Hm in R.
    destruct (pack_normal s (round_nearest_even (shr_m mrs) (loc_of_shr_record mrs)) (e + 1))
      as (m' & e' & E & D & C); [rewrite Hm; lia | lia |].
    exists m', e'. split; [exact E|]. split; [exact D|]. right. split; [exact Hge|].
    destruct C as [[-> _] | (-> & Hm' & _)]; [auto|].
    right. split; [lia | exact Hm'].
Qed.

Lemma div_core mc ec mN eN :
  Zpos (digits2_pos mc) = 53 -> Zpos (digits2_pos mN) = 53 -> -100 <= ec - eN <= 100 ->
  SFdiv_core_binary 53 1024 (Zpos mc) ec (Zpos mN) eN =
  (Zpos mc * 2 ^ 53 / Zpos mN, ec - eN - 53,
   new_location (Zpos mN) ((Zpos mc * 2 ^ 53) mod Zpos mN)).
Proof.
  intros Dc DN He. unfold SFdiv_core_binary. cbn [Zdigits2]. rewrite Dc, DN, fexp64.
  replace (Z.min (Z.max (53 + ec - (53 + eN) - 53) (-1074)) (ec - eN)) with (ec - eN - 53)
    by lia.
  replace (ec - eN - (ec - eN - 53)) with 53 by lia.
  cbv iota. rewrite Z.shiftl_mul_pow2 by lia.
  unfold Z.div, Z.modulo. destruct (Z.div_eucl _ _). reflexivity.
Qed.

Lemma one_value : Num.one = S754_finite false 4503599627370496 (-52).
Proof. reflexivity. Qed.

Lemma leb_one m e :
  Zpos (digits2_pos m) = 53 -> -1074 <= e ->
  e < -52 \/ (e = -52 /\ Zpos m = 2 ^ 52) ->
  Num.leb (S754_finite false m e) Num.one = true.
Proof.
  intros Hd He H. rewrite one_value. apply leb_key.
  - cbn. lia.
  - cbn. split; [reflexivity | lia].
  - unfold key, key_le. change (2 ^ 52) with 4503599627370496 in H. lia.
Qed.

Lemma digits_mono p q :
  (p <= q)%positive -> Zpos (digits2_pos p) <= Zpos (digits2_pos q).
Proof.
  intros H. pose proof (digits_bounds p) as [Bp _]. pose proof (digits_bounds q) as [_ Bq].
  assert (Zpos (digits2_pos p) - 1 < Zpos (digits2_pos q)); [|lia].
  apply (Z.pow_lt_mono_r_iff 2); lia.
Qed.

(** The quotient of two integers [0 <= c <= n], as JavaScript computes
    it, lies in [0,1]; it is 1 when [c = n] and 0 when [c = 0]. *)
Lemma div_of_Z_unit c n :
  0 <= c <= n -> 0 < n < 2 ^ 53 ->
  Num.in_unit (Num.div (Num.of_Z c) (Num.of_Z n)) = true
  /\ (c = n -> Num.div (Num.of_Z c) (Num.of_Z n) = Num.one)
  /\ (c = 0 -> Num.div (Num.of_Z c) (Num.of_Z n) = Num.zero).
Proof.
  intros Hc Hn.
  destruct (of_Z_normal n Hn) as (mN & eN & EN & DN & RN & VN & LN).
  destruct (Z.eq_dec c 0) as [->|Hc0].
  { rewrite EN. split; [reflexivity|]. split; [lia | reflexivity]. }
  destruct (of_Z_normal c ltac:(lia)) as (mc & ec & Ec & Dc & Rc & Vc & Lc).
  rewrite Ec, EN. unfold Num.div, Num.prec, Num.emax, SFdiv. cbn [xorb].
  rewrite div_core by (assumption || lia).
  destruct (Z.eq_dec c n) as [->|Hne].
  - assert (mc = mN) by congruence. assert (ec = eN) by congruence.
    clear Lc Vc Rc Ec LN VN. subst mc ec.
    rewrite Z.mul_comm, Z.div_mul, Z.mod_mul by lia.
    replace (eN - eN - 53) with (-53) by lia.
    assert (L : new_location (Zpos mN) 0 = loc_Exact).
    { unfold new_location, new_location_even, new_location_odd.
      destruct (Z.even (Zpos mN)); reflexivity. }
    rewrite L. split; [reflexivity|]. split; [reflexivity | lia].
  - split; [|split; lia].
    assert (Hle : ec <= eN).
    { rewrite Lc, LN. destruct c as [|pc|pc], n as [|pn|pn]; try lia.
      cbn [Z.to_pos]. pose proof (digits_mono pc pn ltac:(lia)). lia. }
    pose proof (digits_bounds mc) as Bc. pose proof (digits_bounds mN) as BN.
    rewrite Dc in Bc. rewrite DN in BN.
    change (2 ^ (53 - 1)) with 4503599627370496 in *.
    change (2 ^ 53) with 9007199254740992 in *.
    set (q := Zpos mc * 9007199254740992 / Zpos mN).
    assert (Hq : 2 ^ 52 <= q < 2 ^ 54).
    { subst q. change (2 ^ 52) with 4503599627370496. change (2 ^ 54) with 18014398509481984.
      split; [apply Z.div_le_lower_bound; lia | apply Z.div_lt_upper_bound; lia]. }
    destruct (binary_round_aux_bounds false q (ec - eN - 53)
                (new_location (Zpos mN) ((Zpos mc * 9007199254740992) mod Zpos mN)) Hq
                ltac:(lia)) as (m' & e' & E & D & C).
    rewrite E. unfold Num.in_unit. apply andb_true_iff. split; [reflexivity|].
    apply leb_one; [exact D | lia |].
    destruct (Z.eq_dec ec eN) as [Heq|Hlt].
    + assert (Hmlt : Zpos mc < Zpos mN).
      { rewrite Vc, VN, Heq.
        apply Z.mul_lt_mono_pos_r; [apply Z.pow_pos_nonneg; lia | lia]. }
      assert (q < 2 ^ 53).
      { subst q. change (2 ^ 53) with 9007199254740992.
        apply Z.div_lt_upper_bound; lia. }
      change (2 ^ 53) with 9007199254740992 in *.
      destruct C as [[_ [-> | [-> Hm]]] | [Hge _]]; lia.
    + change (2 ^ 52) with 4503599627370496 in *.
      destruct C as [[_ [-> | [-> Hm]]] | [_ [-> | [-> Hm]]]]; lia.
Qed.

(** ** Products *)

(** Rounding a mantissa of at least 53 digits: the result is normal and
    exceeds the exact value by less than one unit of the kept digits. *)
Lemma binary_round_aux_upper s p e l :
  53 <= Zpos (digits2_pos p) ->
  -1074 <= e -> e + (Zpos (digits2_pos p) - 53) <= 970 ->
  exists m' e',
    binary_round_aux 53 1024 s (Zpos p) e l = S754_finite s m' e'
    /\ Zpos (digits2_pos m') = 53
    /\ e + (Zpos (digits2_pos p) - 53) <= e' <= e + (Zpos (digits2_pos p) - 53) + 1
    /\ Zpos m' * 2 ^ (e' - e) <= Zpos p + 2 ^ (Zpos (digits2_pos p) - 53).
Proof.
  intros Hd He Hu. set (n := Zpos (digits2_pos p) - 53) in *.
  pose proof (digits_bounds p) as [Bl Bu].
  assert (E52 : 2 ^ (Zpos (digits2_pos p) - 1) = 2 ^ 52 * 2 ^ n).
  { rewrite <- Z.pow_add_r by lia. f_equal. lia. }
  assert (E53 : 2 ^ Zpos (digits2_pos p) = 2 ^ 53 * 2 ^ n).
  { rewrite <- Z.pow_add_r by lia. f_equal. lia. }
  assert (Hn : 0 < 2 ^ n) by (apply Z.pow_pos_nonneg; lia).
  rewrite binary_round_aux_pack. unfold shr_fexp. rewrite fexp64. cbn [Zdigits2].
  replace (Z.max (Zpos (digits2_pos p) + e - 53) (-1074) - e) with n by lia.
  assert (Hm : shr_m (fst (shr (shr_record_of_loc (Zpos p) l) e n)) = Zpos p / 2 ^ n
               /\ snd (shr (shr_record_of_loc (Zpos p) l) e n) = e + n).
  { unfold shr. destruct n as [|q|q] eqn:En; try lia; cbn [fst snd].
    - rewrite shr_m_of_loc. change (2 ^ 0) with 1. rewrite Z.div_1_r. split; [reflexivity | lia].
    - rewrite shr_m_iter_pos by (rewrite shr_m_of_loc; lia). now rewrite shr_m_of_loc. }
  destruct Hm as [Hm ->].
  set (mrs := fst (shr (shr_record_of_loc (Zpos p) l) e n)) in *.
  assert (Hq : 2 ^ 52 <= Zpos p / 2 ^ n < 2 ^ 53).
  { split; [apply Z.div_le_lower_bound; lia | apply Z.div_lt_upper_bound; lia]. }
  pose proof (round_nearest_even_range (shr_m mrs) (loc_of_shr_record mrs)) as R.
  destruct (pack_normal s (round_nearest_even (shr_m mrs) (loc_of_shr_record mrs)) (e + n))
    as (m' & e' & E & D & C); [lia | lia |].
  exists m', e'. split; [exact E|]. split; [exact D|].
  pose proof (Z.mul_div_le (Zpos p) (2 ^ n) Hn) as Hfloor.
  assert (Hup : round_nearest_even (shr_m mrs) (loc_of_shr_record mrs) * 2 ^ n
                <= Zpos p + 2 ^ n).
  { apply Z.le_trans with ((Zpos p / 2 ^ n + 1) * 2 ^ n);
      [apply Z.mul_le_mono_nonneg_r; lia|].
    rewrite Z.mul_add_distr_r, Z.mul_1_l. rewrite (Z.mul_comm (2 ^ n)) in Hfloor. lia. }
  destruct C as [[-> Hv] | (-> & Hv & Hr)].
  - split; [lia|]. replace (e + n - e) with n by lia. now rewrite Hv.
  - split; [lia|]. replace (e + n + 1 - e) with (n + 1) by lia.
    rewrite Z.pow_add_r by lia. rewrite Hv. rewrite Hr in Hup.
    change (2 ^ 1) with 2. change (2 ^ 53) with (2 ^ 52 * 2) in Hup. lia.
Qed.

Lemma lit_3_10 : Num.lit 3 10 = S754_finite false 5404319552844595 (-54).
Proof. reflexivity. Qed.

(** Three tenths of a positive integer, rounded up, do not exceed it. *)
Lemma ceil_three_tenths n :
  0 < n < 2 ^ 53 ->
  0 <= Num.ceil (Num.mul (Num.of_Z n) (Num.lit 3 10)) <= n.
Proof.
  intros Hn. destruct (of_Z_normal n Hn) as (m & e & En & Dm & Re & Vm & _).
  rewrite En, lit_3_10. unfold Num.mul, Num.prec, Num.emax, SFmul. cbn [xorb].
  pose proof (digits_bounds m) as Bm. rewrite Dm in Bm.
  change (2 ^ (53 - 1)) with 4503599627370496 in Bm.
  change (2 ^ 53) with 9007199254740992 in Bm.
  set (P := (m * 5404319552844595)%positive).
  assert (HP : Zpos P = Zpos m * 5404319552844595) by (subst P; apply Pos2Z.inj_mul).
  pose proof (digits_bounds P) as BP.
  assert (HdP : 105 <= Zpos (digits2_pos P) <= 106).
  { assert (104 < Zpos (digits2_pos P)).
    { apply (Z.pow_lt_mono_r_iff 2); [lia | lia |].
      eapply Z.le_lt_trans; [|apply BP]. rewrite HP.
      change (2 ^ 104) with (4503599627370496 * 4503599627370496). nia. }
    assert (Zpos (digits2_pos P) - 1 < 106).
    { apply (Z.pow_lt_mono_r_iff 2); [lia | lia |].
      eapply Z.le_lt_trans; [apply BP|]. rewrite HP.
      change (2 ^ 106) with (9007199254740992 * 9007199254740992). nia. }
    lia. }
  destruct (binary_round_aux_upper false P (e + -54) loc_Exact)
    as (m' & e' & -> & D' & Re' & Hup); [lia | lia | lia |].
  set (d := Zpos (digits2_pos P)) in *.
  assert (H2n : 2 ^ (d - 53) <= 2 ^ 53) by (apply Z.pow_le_mono_r; lia).
  change (2 ^ 53) with 9007199254740992 in H2n.
  (* the exact value of [n], scaled like the product *)
  assert (Hscale : Zpos m * 2 ^ 54 = n * 2 ^ (54 - e)).
  { rewrite Vm. rewrite <- Z.mul_assoc, <- Z.pow_add_r by lia. do 2 f_equal. lia. }
  assert (Hle : Zpos m' * 2 ^ (e' - (e + -54)) <= n * 2 ^ (54 - e)).
  { rewrite <- Hscale. change (2 ^ 54) with 18014398509481984. lia. }
  unfold Num.ceil. cbn [cond_Zopp].
  assert (Hpos : 0 < 2 ^ (e' - (e + -54))) by (apply Z.pow_pos_nonneg; lia).
  destruct (Z.leb_spec 0 e') as [H0|H0].
  - assert (e' = 0) by lia. subst e'. change (2 ^ 0) with 1.
    replace (0 - (e + -54)) with (54 - e) in * by lia. split; [lia | nia].
  - assert (Hk : 0 < 2 ^ (- e')) by (apply Z.pow_pos_nonneg; lia).
    assert (Hsplit : 2 ^ (54 - e) = 2 ^ (- e') * 2 ^ (e' - (e + -54))).
    { rewrite <- Z.pow_add_r by lia. f_equal. lia. }
    rewrite Hsplit in Hle.
    assert (Hm' : Zpos m' <= n * 2 ^ (- e')) by nia.
    split.
    + assert (- Zpos m' / 2 ^ (- e') <= 0); [|lia].
      apply Z.div_le_upper_bound; lia.
    + assert (- n <= - Zpos m' / 2 ^ (- e')); [|lia].
      apply Z.div_le_lower_bound; lia.
Qed.
End FloatFacts.

(* ===================================================================== *)
(** * Properties of the datasets *)
(* ===================================================================== *)

Module DatasetFacts.
Import Dataset DatasetSpec.

(** C8. The addition and the multiplication datasets hold exactly the
    100 records [(a, b)] with [a] and [b] in 0..9, the division
    dataset exactly the 81 records with [a] and [b] in 1..9, every
    dataset has one target per record, and no division record has a
    zero second component. *)
Theorem dataset_records :
  (Tensor.rows (inputs generateAdditionData) = pairs_over digits
   /\ length (Tensor.rows (inputs generateAdditionData)) = 100%nat
   /\ Tensor.shape (outputs generateAdditionData) = [100; 1]%nat)
  /\ (Tensor.rows (inputs generateMultiplicationData) = pairs_over digits
      /\ length (Tensor.rows (inputs generateMultiplicationData)) = 100%nat
      /\ Tensor.shape (outputs generateMultiplicationData) = [100; 1]%nat)
  /\ (Tensor.rows (inputs generateDivisionData) = pairs_over nonzero_digits
      /\ length (Tensor.rows (inputs generateDivisionData)) = 81%nat
      /\ Tensor.shape (outputs generateDivisionData) = [81; 1]%nat
      /\ forallb nonzero_second (Tensor.rows (inputs generateDivisionData)) = true).
Proof. repeat split; vm_compute; reflexivity. Qed.
End DatasetFacts.

(* ===================================================================== *)
(** * Properties of the fusion *)
(* ===================================================================== *)

Module FusionFacts.
Import TF App FusionSpec.

Lemma bind_ok {A B} (m : M A) (k : A -> M B) h a h' :
  m h = (Ok a, h') -> bind m k h = k a h'.
Proof. intros E. unfold bind. now rewrite E. Qed.

Lemma bind_throw {A B} (m : M A) (k : A -> M B) h e h' :
  m h = (Throw e, h') -> bind m k h = (Throw e, h').
Proof. intros E. unfold bind. now rewrite E. Qed.

Lemma read_ok h id x : tensors h !! id = Some x -> read id h = (Ok x, h).
Proof. intros E. unfold read. now rewrite E. Qed.

Lemma created_two n : seq n (S (S n) - n) = [n; S n].
Proof. replace (S (S n) - n) with 2 by lia. reflexivity. Qed.

Lemma tensor_add_same x y :
  Tensor.shape x = Tensor.shape y ->
  Tensor.add x y = Some (Tensor.mk (Tensor.shape x) (zip_with F32.add (Tensor.data x) (Tensor.data y))).
Proof.
  intros E. unfold Tensor.add, Tensor.broadcast_op, Tensor.shape_eqb.
  now rewrite bool_decide_eq_true_2.
Qed.

(** One element of the [map] in [averageWeights]. *)
Lemma average_step h w1 w2 x y :
  tensors h !! w1 = Some x -> tensors h !! w2 = Some y ->
  Tensor.shape x = Tensor.shape y ->
  tidy (let* s := add w1 w2 in div s F32.two) h =
    (Ok (S (next h)),
     mkHeap (delete (next h)
               (<[S (next h) := average x y]>
                  (<[next h := Tensor.mk (Tensor.shape x)
                                 (zip_with F32.add (Tensor.data x) (Tensor.data y))]>
                     (tensors h))))
            (S (S (next h)))).
Proof.
  intros Hx Hy Hs.
  assert (Ha : add w1 w2 h =
               (Ok (next h),
                mkHeap (<[next h := Tensor.mk (Tensor.shape x)
                            (zip_with F32.add (Tensor.data x) (Tensor.data y))]> (tensors h))
                       (S (next h)))).
  { unfold add. rewrite (bind_ok _ _ _ _ _ (read_ok _ _ _ Hx)).
    rewrite (bind_ok _ _ _ _ _ (read_ok _ _ _ Hy)).
    now rewrite (tensor_add_same _ _ Hs). }
  unfold tidy. rewrite (bind_ok _ _ _ _ _ Ha).
  unfold div. erewrite bind_ok; cycle 1.
  { apply read_ok. cbn [tensors]. apply lookup_insert_eq. }
  cbn [alloc alloc_with next tensors snd dispose_all].
  rewrite created_two.
  rewrite filter_cons_True by lia. rewrite filter_cons_False by lia.
  rewrite filter_nil. reflexivity.
Qed.

(** ** Frame reasoning *)

Lemma frames_ret {A} n (a : A) (Q : A -> Prop) : Q a -> frames n (ret a) Q.
Proof. intros HQ h _. cbn. repeat split; auto. intros a' [= <-]. exact HQ. Qed.

Lemma frames_throw {A} n e (Q : A -> Prop) : frames n (throw e) Q.
Proof. intros h _. cbn. repeat split; auto. intros a' [=]. Qed.

Lemma frames_bind {A B} n (m : M A) (k : A -> M B) P Q :
  frames n m P -> (forall a, P a -> frames n (k a) Q) -> frames n (bind m k) Q.
Proof.
  intros Hm Hk h Hn. destruct (Hm h Hn) as (H1 & H2 & H3).
  unfold bind. destruct (m h) as [[a|e] h1]; cbn in *.
  - destruct (Hk a (H3 a eq_refl) h1 ltac:(lia)) as (K1 & K2 & K3).
    repeat split; [lia | | exact K3].
    intros id Hid. rewrite K2 by exact Hid. now apply H2.
  - repeat split; auto. intros a [=].
Qed.

Lemma frames_weaken {A} n (m : M A) (P Q : A -> Prop) :
  frames n m P -> (forall a, P a -> Q a) -> frames n m Q.
Proof.
  intros Hm HPQ h Hn. destruct (Hm h Hn) as (H1 & H2 & H3). repeat split; auto.
Qed.

Lemma frames_alloc_with n f : frames n (alloc_with f) (fun id => n <= id).
Proof.
  intros h Hn. cbn. repeat split; [lia | | ].
  - intros id Hid. apply lookup_insert_ne. lia.
  - intros a [= <-]. exact Hn.
Qed.

Lemma frames_read n id : frames n (read id) (fun _ => True).
Proof.
  intros h Hn. unfold read. destruct (tensors h !! id); cbn; repeat split; auto.
Qed.

Lemma lookup_foldr_delete (m : gmap nat Tensor.t) ids id :
  id ∉ ids -> foldr delete m ids !! id = m !! id.
Proof.
  induction ids as [|j ids IH]; cbn; [reflexivity|].
  intros Hnot. rewrite not_elem_of_cons in Hnot. destruct Hnot as [Hne Hni].
  rewrite lookup_delete_ne by congruence. now apply IH.
Qed.

Lemma frames_dispose_all n ids :
  Forall (fun id => n <= id) ids -> frames n (dispose_all ids) (fun _ => True).
Proof.
  intros Hids h Hn. cbn. repeat split; auto.
  intros id Hid. apply lookup_foldr_delete. intros Hin.
  rewrite Forall_forall in Hids. specialize (Hids _ Hin). lia.
Qed.

Lemma frames_assign n var x : n <= var -> frames n (assign var x) (fun _ => True).
Proof.
  intros Hv. unfold assign. eapply frames_bind; [apply frames_read|].
  intros old _. destruct (Tensor.shape_eqb _ _); [|apply frames_throw].
  intros h Hn. cbn. repeat split; auto.
  intros id Hid. apply lookup_insert_ne. lia.
Qed.

Lemma frames_tidy n (fn : M nat) Q : frames n fn Q -> frames n (tidy fn) Q.
Proof.
  intros Hfn h Hn. destruct (Hfn h Hn) as (H1 & H2 & H3).
  unfold tidy. destruct (fn h) as [[r|e] h1]; cbn in *.
  - repeat split; [exact H1 | | exact H3].
    intros id Hid. rewrite lookup_foldr_delete; [now apply H2|].
    rewrite list_elem_of_filter, elem_of_seq. lia.
  - repeat split; [exact H1 | | intros a [=]].
    intros id Hid. rewrite lookup_foldr_delete; [now apply H2|].
    rewrite elem_of_seq. lia.
Qed.

Lemma frames_mapM {A B} n (f : A -> M B) (l : list A) (Q : B -> Prop) :
  (forall a, a ∈ l -> frames n (f a) Q) -> frames n (mapM f l) (Forall Q).
Proof.
  induction l as [|a l IH]; intros Hf; cbn [mapM].
  - apply frames_ret. constructor.
  - eapply frames_bind; [apply Hf; left|].
    intros b Hb. eapply frames_bind; [apply IH; intros; apply Hf; now right|].
    intros bs Hbs. apply frames_ret. now constructor.
Qed.

Section WithRuntime.
Variable rt : Runtime.

Lemma frames_createNetwork n :
  frames n (createNetwork rt) (fun net => Forall (fun id => n <= id) (weights net)).
Proof.
  unfold createNetwork.
  eapply frames_bind; [apply frames_alloc_with|]. intros k1 H1.
  eapply frames_bind; [apply frames_alloc_with|]. intros b1 H2.
  eapply frames_bind; [apply frames_alloc_with|]. intros k2 H3.
  eapply frames_bind; [apply frames_alloc_with|]. intros b2 H4.
  apply frames_ret. cbn. repeat constructor; assumption.
Qed.

Lemma frames_setWeights n net ws :
  Forall (fun id => n <= id) (weights net) -> frames n (setWeights net ws) (fun _ => True).
Proof.
  intros Hnet. unfold setWeights. destruct (negb _); [apply frames_throw|].
  eapply frames_bind; [apply frames_mapM; intros; apply frames_read|].
  intros values _.
  eapply frames_bind; [|intros; now apply frames_ret].
  apply (frames_mapM n _ _ (fun _ => True)).
  intros [var x] Hin. apply frames_assign.
  apply elem_of_zip_l in Hin. rewrite Forall_forall in Hnet. now apply Hnet.
Qed.

Lemma frames_averageWeights n net1 net2 :
  frames n (averageWeights rt net1 net2)
         (fun merged => Forall (fun id => n <= id) (weights merged)).
Proof.
  unfold averageWeights.
  eapply frames_bind; [apply frames_createNetwork|]. intros merged Hm.
  eapply frames_bind.
  - apply (frames_mapM n _ _ (fun _ => True)). intros [i w1] _.
    destruct (getWeights net2 !! i); [|apply frames_throw].
    apply frames_tidy. eapply frames_bind.
    + unfold add. eapply frames_bind; [apply frames_read|]. intros x _.
      eapply frames_bind; [apply frames_read|]. intros y _.
      destruct (Tensor.add x y); [|apply frames_throw].
      apply frames_alloc_with.
    + intros s _. unfold div. eapply frames_bind; [apply frames_read|].
      intros x _. eapply frames_weaken; [apply frames_alloc_with | auto].
  - intros avg _. eapply frames_bind; [now apply frames_setWeights|].
    intros _ _. now apply frames_ret.
Qed.

(** C9. Fusion leaves the parameter tensors of both inputs as they were,
    whether it returns or throws, and a network it returns is a new one:
    none of its variables existed before the call. *)
Theorem averageWeights_does_not_mutate (h : heap) (net1 net2 : Sequential) :
  allocated h net1 -> allocated h net2 ->
  params (snd (averageWeights rt net1 net2 h)) net1 = params h net1
  /\ params (snd (averageWeights rt net1 net2 h)) net2 = params h net2
  /\ forall merged, fst (averageWeights rt net1 net2 h) = Ok merged ->
       Forall (fun id => next h <= id) (weights merged).
Proof.
  intros A1 A2.
  destruct (frames_averageWeights (next h) net1 net2 h (le_n _)) as (_ & Hframe & Hnew).
  repeat split; [| |exact Hnew]; unfold params; apply map_ext_in;
    intros id Hin; apply Hframe.
  - unfold allocated in A1. rewrite Forall_forall in A1. apply A1.
    now apply list_elem_of_In.
  - unfold allocated in A2. rewrite Forall_forall in A2. apply A2.
    now apply list_elem_of_In.
Qed.

Lemma architecture_inv (h : heap) (net : Sequential) :
  has_architecture h net ->
  exists a1 a2 a3 a4 x1 x2 x3 x4,
    weights net = [a1; a2; a3; a4]
    /\ (tensors h !! a1 = Some x1 /\ Tensor.shape x1 = [2; 16] /\ Tensor.well_formed x1 /\ a1 < next h)
    /\ (tensors h !! a2 = Some x2 /\ Tensor.shape x2 = [16] /\ Tensor.well_formed x2 /\ a2 < next h)
    /\ (tensors h !! a3 = Some x3 /\ Tensor.shape x3 = [16; 1] /\ Tensor.well_formed x3 /\ a3 < next h)
    /\ (tensors h !! a4 = Some x4 /\ Tensor.shape x4 = [1] /\ Tensor.well_formed x4 /\ a4 < next h).
Proof.
  unfold has_architecture, architecture. intros H.
  destruct (weights net) as [|a1 [|a2 [|a3 [|a4 [|a5 l]]]]];
    repeat match goal with H : Forall2 _ _ _ |- _ => inversion H; clear H; subst end.
  repeat match goal with H : exists _, _ |- _ => destruct H as [? H] end.
  do 8 eexists. split; [reflexivity|]. repeat split; intuition eauto.
Qed.


Lemma assign_ok h var x old :
  tensors h !! var = Some old -> Tensor.shape old = Tensor.shape x ->
  assign var x h = (Ok tt, mkHeap (<[var := x]> (tensors h)) (next h)).
Proof.
  intros Hv Hs. unfold assign. rewrite (bind_ok _ _ _ _ _ (read_ok _ _ _ Hv)).
  unfold Tensor.shape_eqb. now rewrite bool_decide_eq_true_2.
Qed.

Lemma mapM_read_ok h ids xs :
  Forall2 (fun id x => tensors h !! id = Some x) ids xs -> mapM read ids h = (Ok xs, h).
Proof.
  induction 1 as [|id x ids xs Hx _ IH]; [reflexivity|].
  cbn [mapM]. rewrite (bind_ok _ _ _ _ _ (read_ok _ _ _ Hx)).
  now rewrite (bind_ok _ _ _ _ _ IH).
Qed.

Lemma average_shape x y : Tensor.shape (average x y) = Tensor.shape x.
Proof. reflexivity. Qed.



End WithRuntime.
End FusionFacts.

Module FusionWitness.
Import TF App FusionSpec FusionFacts Examples.

Lemma has_architecture_netA : has_architecture heap0 netA.
Proof.
  unfold has_architecture, architecture. cbn [weights netA].
  repeat constructor; eexists; (split; [vm_compute; reflexivity|]);
    (split; [reflexivity|]); (split; [vm_compute; reflexivity | vm_compute; lia]).
Defined.

Lemma has_architecture_netB : has_architecture heap0 netB.
Proof.
  unfold has_architecture, architecture. cbn [weights netB].
  repeat constructor; eexists; (split; [vm_compute; reflexivity|]);
    (split; [reflexivity|]); (split; [vm_compute; reflexivity | vm_compute; lia]).
Defined.


Lemma averageWeights_does_not_mutate_witness :
  allocated heap0 netA /\ allocated heap0 netB /\
  params (snd (averageWeights rt_ok netA netB heap0)) netA = params heap0 netA
  /\ params (snd (averageWeights rt_ok netA netB heap0)) netB = params heap0 netB
  /\ forall merged, fst (averageWeights rt_ok netA netB heap0) = Ok merged ->
       Forall (fun id => next heap0 <= id) (weights merged).
Proof.
  assert (A : allocated heap0 netA) by (repeat constructor; vm_compute; lia).
  assert (B : allocated heap0 netB) by (repeat constructor; vm_compute; lia).
  split; [exact A|]. split; [exact B|].
  exact (averageWeights_does_not_mutate rt_ok heap0 netA netB A B).
Defined.

(** The first kernel entries are 0 and 4, their mean is 2. *)
Example fused_first_entry :
  param (snd (averageWeights rt_ok netA netB heap0))
        (mkSequential [8; 9; 10; 11]) 0 0 = Some F32.two.
Proof. vm_compute. reflexivity. Qed.
End FusionWitness.

(* ===================================================================== *)
(** * Properties of the training session *)
(* ===================================================================== *)

Module TrainerFacts.
Import TF App TrainerSpec.

Lemma indexed_nil : indexed [].
Proof. reflexivity. Qed.

Lemma indexed_snoc l s : indexed l -> epoch s = length l + 1 -> indexed (l ++ [s]).
Proof.
  unfold indexed. intros Hl Hs.
  rewrite map_app, length_app, seq_app, Hl. cbn. rewrite Hs. do 2 f_equal. lia.
Qed.

Section WithRuntime.
Variable rt : Runtime.

Lemma consistent_enter_epoch s h l e :
  indexed (additionStats s) -> indexed (multiplicationStats s) -> indexed (mergedStats s) ->
  isTraining s = true ->
  length (additionStats s) = e -> length (multiplicationStats s) = e ->
  length (mergedStats s) = e ->
  consistent (enter_epoch s h l e).
Proof.
  intros I1 I2 I3 T L1 L2 L3. unfold enter_epoch.
  destruct (e <? epochs) eqn:E; unfold consistent; cbn.
  - apply Nat.ltb_lt in E. auto 10.
  - auto.
Qed.

Lemma consistent_trainNetworks c : consistent c -> consistent (trainNetworks rt c).
Proof.
  intros Hc. unfold trainNetworks. destruct (isTraining (app c)); [exact Hc|].
  destruct (bind _ _ (engine c)) as [[[addNet multNet]|err] h1].
  - destruct (bind _ _ h1) as [[l|err] h2].
    + apply consistent_enter_epoch; reflexivity.
    + unfold consistent; cbn. auto using indexed_nil.
  - unfold consistent; cbn. auto using indexed_nil.
Qed.

Lemma consistent_resume c : consistent c -> consistent (resume rt c).
Proof.
  intros Hc. unfold resume.
  destruct c as [s h t]. cbn [task app engine].
  destruct Hc as (I1 & I2 & I3 & Ht). cbn [task app] in *.
  destruct t as [|l e|l e|l e|err].
  - repeat split; assumption.
  - destruct Ht as (He & T & L1 & L2 & L3).
    destruct (bind _ _ h) as [[[addLoss addAcc]|err] h1].
    + unfold consistent; cbn. repeat split; try assumption; try lia.
      * apply indexed_snoc; [assumption | cbn; lia].
      * rewrite length_app. cbn. lia.
    + unfold consistent; cbn. auto.
  - destruct Ht as (He & T & L1 & L2 & L3).
    destruct (bind _ _ h) as [[[multLoss multAcc]|err] h1].
    + destruct (fuse rt l h1) as [[merged|err] h2].
      * destruct (test_merged rt l merged h2) as [[[divLossVal divAcc]|err] h3].
        -- unfold consistent; cbn. repeat split; try assumption; try lia.
           ++ apply indexed_snoc; [assumption | cbn; lia].
           ++ apply indexed_snoc; [assumption | cbn; lia].
           ++ rewrite length_app. cbn. lia.
           ++ rewrite length_app. cbn. lia.
        -- unfold consistent; cbn. repeat split; try assumption.
           apply indexed_snoc; [assumption | cbn; lia].
      * unfold consistent; cbn. repeat split; try assumption.
        apply indexed_snoc; [assumption | cbn; lia].
    + unfold consistent; cbn. auto.
  - destruct Ht as (He & T & L1 & L2 & L3).
    apply consistent_enter_epoch; try assumption; lia.
  - repeat split; assumption.
Qed.

Lemma consistent_step c ev : consistent c -> consistent (step rt c ev).
Proof. destruct ev; [apply consistent_trainNetworks | apply consistent_resume]. Qed.

Lemma consistent_run evs : forall c, consistent c -> consistent (run rt c evs).
Proof.
  induction evs as [|ev evs IH]; intros c Hc; [exact Hc|].
  cbn. apply IH. now apply consistent_step.
Qed.

Lemma consistent_mount : consistent (mount rt).
Proof.
  unfold mount. destruct (bind _ _ TF.empty) as [[[a m]|err] h];
    unfold consistent; cbn; auto using indexed_nil.
Qed.

Lemma run_cons c ev evs : run rt c (ev :: evs) = run rt (step rt c ev) evs.
Proof. reflexivity. Qed.

Lemma rejected_step c ev :
  is_rejected (task c) -> isTraining (app c) = true -> step rt c ev = c.
Proof.
  intros Hr Ht. destruct ev; cbn.
  - unfold trainNetworks. now rewrite Ht.
  - unfold resume. destruct (task c); try contradiction; reflexivity.
Qed.

Lemma rejected_run evs c :
  is_rejected (task c) -> isTraining (app c) = true -> run rt c evs = c.
Proof.
  intros Hr Ht. induction evs as [|ev evs IH]; [reflexivity|].
  cbn. now rewrite rejected_step.
Qed.

Lemma trainNetworks_fresh c :
  isTraining (app c) = false ->
  consistent (trainNetworks rt c)
  /\ histories (app (trainNetworks rt c)) = ([], [], [])
  /\ (is_rejected (task (trainNetworks rt c))
      \/ position (task (trainNetworks rt c)) = Some 0).
Proof.
  intros Ht. unfold trainNetworks. rewrite Ht.
  destruct (bind _ _ (engine c)) as [[[addNet multNet]|err] h1].
  - destruct (bind _ _ h1) as [[l|err] h2].
    + split; [apply consistent_enter_epoch; reflexivity|].
      split; [reflexivity|]. right. reflexivity.
    + split; [unfold consistent; cbn; auto using indexed_nil|].
      split; [reflexivity|]. left. exact I.
  - split; [unfold consistent; cbn; auto using indexed_nil|].
    split; [reflexivity|]. left. exact I.
Qed.

(** One resumption either rejects the activation, or moves it to its
    next suspension point, or ends the session after the last epoch. *)
Lemma resume_position c p :
  consistent c -> position (task c) = Some p ->
  is_rejected (task (resume rt c))
  \/ position (task (resume rt c)) = Some (S p)
  \/ (S p = 3 * epochs /\ task (resume rt c) = Idle
      /\ length (additionStats (app (resume rt c))) = epochs
      /\ length (multiplicationStats (app (resume rt c))) = epochs
      /\ length (mergedStats (app (resume rt c))) = epochs).
Proof.
  intros Hc Hp. unfold resume.
  destruct c as [s h t]. destruct Hc as (I1 & I2 & I3 & Ht). cbn [task app engine] in *.
  destruct t as [|l e|l e|l e|err]; try discriminate; injection Hp as <-.
  - destruct (bind _ _ h) as [[[addLoss addAcc]|err] h1]; cbn.
    + right. left. f_equal. lia.
    + left. exact I.
  - destruct (bind _ _ h) as [[[multLoss multAcc]|err] h1]; cbn; [|left; exact I].
    destruct (fuse rt l h1) as [[merged|err] h2]; cbn; [|left; exact I].
    destruct (test_merged rt l merged h2) as [[[divLossVal divAcc]|err] h3]; cbn;
      [|left; exact I].
    right. left. f_equal. lia.
  - destruct Ht as (He & T & L1 & L2 & L3). unfold enter_epoch.
    destruct (e + 1 <? epochs) eqn:E; cbn.
    + right. left. f_equal. lia.
    + apply Nat.ltb_ge in E. unfold epochs in *. right. right. repeat split; lia.
Qed.

Lemma run_position k : forall c p,
  consistent c -> position (task c) = Some p -> p + k <= 3 * epochs ->
  is_rejected (task (run rt c (repeat Resume k)))
  \/ position (task (run rt c (repeat Resume k))) = Some (p + k)
  \/ (p + k = 3 * epochs /\ task (run rt c (repeat Resume k)) = Idle
      /\ length (additionStats (app (run rt c (repeat Resume k)))) = epochs
      /\ length (multiplicationStats (app (run rt c (repeat Resume k)))) = epochs
      /\ length (mergedStats (app (run rt c (repeat Resume k)))) = epochs).
Proof.
  induction k as [|k IH]; intros c p Hc Hp Hk.
  - right. left. cbn. rewrite Hp. f_equal. lia.
  - cbn [repeat]. rewrite run_cons. cbn [step].
    destruct (resume_position c p Hc Hp) as [Hr | [Hn | (Hlast & Hidle & HL)]].
    + left. rewrite rejected_run; [exact Hr | exact Hr |].
      pose proof (consistent_resume c Hc) as (_ & _ & _ & Ht).
      destruct (task (resume rt c)); try contradiction. exact Ht.
    + replace (p + S k) with (S p + k) by lia.
      apply IH; [now apply consistent_resume | exact Hn | lia].
    + assert (k = 0) by lia. subst k. cbn [repeat run fold_left]. right. right.
      split; [lia|]. split; [exact Hidle | exact HL].
Qed.

Lemma indexed_length l n : indexed l -> length l = n -> map epoch l = seq 1 n.
Proof. unfold indexed. now intros -> ->. Qed.

(** C7. From the mounted component on, whatever happens, every history
    numbers its entries 1, 2, 3, ... by position.  A click while no
    session runs empties the three histories before anything is
    appended; 150 resumptions later the session has either completed
    or been rejected, and when it has completed each history holds
    exactly the epochs 1 to 50. *)
Theorem histories_follow_epochs (c : Config) :
  isTraining (app c) = false ->
  (forall evs,
     let s := app (run rt (mount rt) evs) in
     indexed (additionStats s) /\ indexed (multiplicationStats s) /\ indexed (mergedStats s))
  /\ histories (app (trainNetworks rt c)) = ([], [], [])
  /\ (let c' := run rt c (Click :: repeat Resume 150) in
      (task c' = Idle \/ is_rejected (task c'))
      /\ (task c' = Idle ->
          map epoch (additionStats (app c')) = seq 1 50
          /\ map epoch (multiplicationStats (app c')) = seq 1 50
          /\ map epoch (mergedStats (app c')) = seq 1 50)).
Proof.
  intros Ht. split; [|split].
  - intros evs. cbn zeta.
    destruct (consistent_run evs _ consistent_mount) as (I1 & I2 & I3 & _).
    auto.
  - apply (trainNetworks_fresh c Ht).
  - cbn zeta. rewrite run_cons. cbn [step].
    destruct (trainNetworks_fresh c Ht) as (Hc & _ & [Hr | Hp]).
    + rewrite rejected_run; [| exact Hr |].
      * split; [right; exact Hr|]. intros E. rewrite E in Hr. destruct Hr.
      * destruct Hc as (_ & _ & _ & Hc). destruct (task (trainNetworks rt c));
          try contradiction. exact Hc.
    + pose proof (consistent_run (repeat Resume 150) _ Hc) as (I1 & I2 & I3 & _).
      destruct (run_position 150 _ 0 Hc Hp ltac:(cbn; lia))
        as [Hr | [Hn | (_ & Hidle & L1 & L2 & L3)]].
      * split; [right; exact Hr|]. intros E. rewrite E in Hr. destruct Hr.
      * split; [|intros E; rewrite E in Hn; discriminate].
        exfalso. destruct (consistent_run (repeat Resume 150) _ Hc) as (_ & _ & _ & Hpos).
        destruct (task (run rt (trainNetworks rt c) (repeat Resume 150)));
          try discriminate; injection Hn as Hn; unfold epochs in Hpos; lia.
      * split; [left; exact Hidle|]. intros _.
        split; [|split]; apply indexed_length; assumption.
Qed.

End WithRuntime.
End TrainerFacts.

Module TrainerWitness.
Import TF App TrainerSpec TrainerFacts Examples.

(** A whole session in which nothing fails. *)
Lemma histories_follow_epochs_witness :
  isTraining (app (mount rt_ok)) = false
  /\ task (run rt_ok (mount rt_ok) (Click :: repeat Resume 150)) = Idle
  /\ (forall evs,
        let s := app (run rt_ok (mount rt_ok) evs) in
        indexed (additionStats s) /\ indexed (multiplicationStats s) /\ indexed (mergedStats s))
  /\ histories (app (trainNetworks rt_ok (mount rt_ok))) = ([], [], [])
  /\ (let c' := run rt_ok (mount rt_ok) (Click :: repeat Resume 150) in
      (task c' = Idle \/ is_rejected (task c'))
      /\ (task c' = Idle ->
          map epoch (additionStats (app c')) = seq 1 50
          /\ map epoch (multiplicationStats (app c')) = seq 1 50
          /\ map epoch (mergedStats (app c')) = seq 1 50)).
Proof.
  split; [reflexivity|]. split; [vm_compute; reflexivity|].
  apply (histories_follow_epochs rt_ok (mount rt_ok)). reflexivity.
Defined.



Example failed_epoch_histories :
  let c2 := run rt_mult_fails started [Resume; Resume] in
  task c2 = Rejected FitFailed
  /\ map epoch (additionStats (app c2)) = [1]
  /\ multiplicationStats (app c2) = []
  /\ mergedStats (app c2) = [].
Proof. vm_compute. auto. Qed.
End TrainerWitness.

(* ===================================================================== *)
(** * Properties of the simulated activations *)
(* ===================================================================== *)

Module ActivationFacts.
Import Viz.
Local Open Scope R_scope.


Lemma clamp_unit a : 0 <= Rmax 0 (Rmin 1 a) <= 1.
Proof.
  split; [apply Rmax_l|].
  apply Rmax_lub; [lra | apply Rmin_l].
Qed.










End ActivationFacts.

(* ===================================================================== *)
(** * Properties of the tolerance accuracy *)
(* ===================================================================== *)

Module AccuracyFacts.
Import TF App AccuracySpec FloatFacts Examples.

Lemma wrap32_small z : (- 2 ^ 31 <= z < 2 ^ 31)%Z -> Tensor.wrap32 z = z.
Proof. intros H. unfold Tensor.wrap32. rewrite Z.mod_small; lia. Qed.

Lemma sum_bool_from (bs : list bool) (acc : Z) :
  (0 <= acc)%Z -> (acc + Z.of_nat (length bs) < 2 ^ 31)%Z ->
  fold_left (fun a (b : bool) => Tensor.wrap32 (a + (if b then 1 else 0))%Z) bs acc
  = (acc + Z.of_nat (length (filter (fun b => b = true) bs)))%Z.
Proof.
  revert acc. induction bs as [|b bs IH]; intros acc H0 H; cbn [fold_left length] in *.
  - cbn. lia.
  - assert (Hf : (Z.of_nat (length (filter (fun b => b = true) bs)) <= Z.of_nat (length bs))%Z).
    { apply inj_le. apply length_filter. }
    destruct b.
    + rewrite filter_cons_True by reflexivity. cbn [length].
      rewrite wrap32_small by lia. rewrite IH by lia. lia.
    + rewrite filter_cons_False by discriminate.
      rewrite wrap32_small by lia. rewrite IH by lia. lia.
Qed.

Lemma sum_bool_count (bs : list bool) :
  (Z.of_nat (length bs) < 2 ^ 31)%Z ->
  Tensor.sum_bool bs = Z.of_nat (length (filter (fun b => b = true) bs)).
Proof. intros H. unfold Tensor.sum_bool. rewrite sum_bool_from; lia. Qed.

Lemma zip_cons {A B} (a : A) (b : B) l k : zip (a :: l) (b :: k) = (a, b) :: zip l k.
Proof. reflexivity. Qed.

Lemma hits_as_count (ps ts : list F32.f32) :
  length (filter (fun b => b = true)
            (map (fun x => F32.leb x F32.half) (map F32.abs (zip_with F32.sub ps ts))))
  = hits ps ts.
Proof.
  unfold hits. revert ts. induction ps as [|p ps IH]; intros [|t ts]; try reflexivity.
  rewrite zip_cons. cbn [zip_with map].
  destruct (F32.leb (F32.abs (F32.sub p t)) F32.half) eqn:E.
  - rewrite filter_cons_True by reflexivity.
    rewrite filter_cons_True by (cbn; unfold within_tolerance; assumption).
    cbn [length]. now rewrite IH.
  - rewrite filter_cons_False by congruence.
    rewrite filter_cons_False by (cbn; unfold within_tolerance; congruence). apply IH.
Qed.

Lemma hits_le (ps ts : list F32.f32) : hits ps ts <= length ps.
Proof.
  unfold hits. etransitivity; [apply length_filter|]. rewrite length_zip. lia.
Qed.









(** Predicting 0 for every sum is right for one record in a hundred;
    predicting the targets themselves is right for all of them. *)
Example accuracy_of_zero_predictions :
  calculateAccuracy zero_predictions (Dataset.outputs Dataset.generateAdditionData)
  = Ok (Num.lit 1 100).
Proof. vm_compute. reflexivity. Qed.

Example accuracy_of_exact_predictions :
  calculateAccuracy (Dataset.outputs Dataset.generateDivisionData)
                    (Dataset.outputs Dataset.generateDivisionData)
  = Ok Num.one.
Proof. vm_compute. reflexivity. Qed.

(** Targets given as a plain vector are broadcast against the column of
    predictions: the count runs over all pairs and the quotient leaves
    the unit interval.  The theorem is about two columns for this
    reason. *)
Example accuracy_of_broadcast_operands :
  calculateAccuracy (Tensor.mk [2; 1] [F32.of_Z 1; F32.of_Z 1])
                    (Tensor.mk [2] [F32.of_Z 1; F32.of_Z 1])
  = Ok (Num.of_Z 2).
Proof. vm_compute. reflexivity. Qed.
End AccuracyFacts.

(* ===================================================================== *)
(** * Properties of the selection of connections *)
(* ===================================================================== *)

Module VizFacts.
Import Viz VizSpec FloatSpec FloatFacts.

(** ** The ranking is a permutation *)

Section Sorting.
Context {A : Type} (compare : A -> A -> Num.number).

Lemma insert_perm x l : insert compare x l ≡ₚ x :: l.
Proof.
  induction l as [|y l IH]; cbn [insert]; [reflexivity|].
  destruct (Num.ltb _ _); [|reflexivity].
  rewrite IH. apply perm_swap.
Qed.

Lemma sort_perm l : sort compare l ≡ₚ l.
Proof.
  induction l as [|x l IH]; [reflexivity|].
  unfold sort in *. cbn [foldr]. rewrite insert_perm. now rewrite IH.
Qed.

Lemma length_sort l : length (sort compare l) = length l.
Proof. now rewrite sort_perm. Qed.
End Sorting.

(** ** The collected connections *)

Lemma length_flat_map_const {A B} (f : A -> list B) (l : list A) n :
  (forall a, length (f a) = n) -> length (flat_map f l) = length l * n.
Proof.
  intros Hf. induction l as [|a l IH]; [reflexivity|].
  cbn [flat_map length]. rewrite length_app, Hf, IH. lia.
Qed.

Lemma length_collect fromLen toLen w :
  Tensor.shape w = [fromLen; toLen] -> length (collect fromLen toLen w) = fromLen * toLen.
Proof.
  intros Hs. unfold collect. rewrite Hs. cbn [lookup list_lookup].
  rewrite !Nat.min_id.
  rewrite (length_flat_map_const _ _ toLen); [now rewrite length_seq|].
  intros a. now rewrite length_map, length_seq.
Qed.

Lemma length_ranked fromLen toLen w :
  Tensor.shape w = [fromLen; toLen] -> length (ranked fromLen toLen w) = fromLen * toLen.
Proof. intros Hs. unfold ranked. now rewrite length_sort, length_collect. Qed.

(** Every collected connection carries an entry of the matrix. *)
Lemma elem_of_collect fromLen toLen w c :
  Tensor.shape w = [fromLen; toLen] -> Tensor.well_formed w ->
  c ∈ collect fromLen toLen w ->
  exists x, x ∈ Tensor.data w /\ absWeight c = Num.abs (F32.to_number x).
Proof.
  intros Hs Hw. unfold collect. rewrite Hs. cbn [lookup list_lookup].
  rewrite !Nat.min_id. rewrite list_elem_of_In, in_flat_map.
  intros (fromIdx & Hf & Hc). rewrite in_map_iff in Hc. destruct Hc as (toIdx & <- & Ht).
  apply in_seq in Hf. apply in_seq in Ht. cbn [absWeight].
  unfold Tensor.well_formed in Hw. rewrite Hs in Hw. cbn in Hw.
  unfold weight_at.
  destruct (Tensor.data w !! (fromIdx * toLen + toIdx)) as [x|] eqn:E.
  - exists x. split; [|reflexivity]. eapply list_elem_of_lookup_2. exact E.
  - apply lookup_ge_None in E. nia.
Qed.

(** ** The drawing loop *)

Lemma draw_loop_total sorted thr n : forall i,
  i + n <= length sorted -> exists l, draw_loop sorted thr i n = Drawn l.
Proof.
  induction n as [|n IH]; intros i Hi; cbn [draw_loop]; [eauto|].
  destruct (sorted !! i) as [conn|] eqn:E.
  - destruct (Num.ltb _ _); [eauto|].
    destruct (IH (S i) ltac:(lia)) as [l ->]. eauto.
  - apply lookup_ge_None in E. lia.
Qed.

Lemma draw_loop_spec sorted thr n : forall i l,
  draw_loop sorted thr i n = Drawn l ->
  l = take (length l) (drop i sorted)
  /\ length l <= n
  /\ Forall (fun c => below_half thr c = false) l
  /\ (length l < n ->
      exists c, sorted !! (i + length l) = Some c /\ below_half thr c = true).
Proof.
  induction n as [|n IH]; intros i l; cbn [draw_loop].
  - intros [= <-]. cbn. split; [reflexivity|]. split; [lia|]. split; [constructor | lia].
  - destruct (sorted !! i) as [conn|] eqn:E; [|discriminate].
    destruct (Num.ltb (absWeight conn) (Num.mul thr Num.half)) eqn:B.
    + intros [= <-]. cbn [length take]. split; [reflexivity|]. split; [lia|].
      split; [constructor|].
      intros _. exists conn. rewrite Nat.add_0_r. auto.
    + destruct (draw_loop sorted thr (S i) n) as [l0|] eqn:R; [|discriminate].
      intros [= <-]. destruct (IH _ _ R) as (Hl & Hn & Hall & Hnext).
      cbn [length]. split; [|split; [|split]].
      * rewrite (drop_S _ _ _ E). cbn [take]. now rewrite <- Hl.
      * lia.
      * constructor; assumption.
      * intros Hlt. destruct (Hnext ltac:(lia)) as (c & Hc & Hb).
        exists c. split; [|exact Hb]. rewrite <- Hc. f_equal. lia.
Qed.

(** ** Magnitudes *)

Lemma abs_binary_round_aux s s' m e l :
  SFabs (binary_round_aux 53 1024 s m e l) = SFabs (binary_round_aux 53 1024 s' m e l).
Proof.
  unfold binary_round_aux. destruct (shr_fexp 53 1024 m e l) as [mrs' e'].
  destruct (shr_fexp 53 1024 _ e' loc_Exact) as [mrs'' e''].
  destruct (shr_m mrs''); try reflexivity. destruct (e'' <=? 1024 - 53)%Z; reflexivity.
Qed.

Lemma abs_to_number x : Num.abs (F32.to_number x) = Num.abs (F32.to_number (F32.abs x)).
Proof.
  destruct x as [s|s| |s m e]; try reflexivity.
  destruct s; [|reflexivity].
  change (Num.abs (binary_round 53 1024 true m e) = Num.abs (binary_round 53 1024 false m e)).
  unfold binary_round. destruct (shl_align m e _) as [mz ez]. apply abs_binary_round_aux.
Qed.

Lemma magnitude_of_f32 x :
  F32.valid x = true -> Num.is_nan x = false ->
  is_magnitude (Num.abs (F32.to_number x)).
Proof.
  intros Hv Hn. destruct x as [s|s| |s m e]; try discriminate; try exact I.
  destruct (to_number_normal s m e Hv) as (m' & e' & -> & Hd & He).
  cbn. split; [exact Hd | lia].
Qed.

(** The early stop never fires on a connection as strong as the one
    that gives the threshold. *)
Lemma half_not_above x :
  F32.valid x = true ->
  Num.ltb (Num.abs (F32.to_number x))
          (Num.mul (Num.or_zero (Num.abs (F32.to_number x))) Num.half) = false.
Proof.
  intros Hv. destruct x as [s|s| |s m e]; try reflexivity.
  destruct (to_number_normal s m e Hv) as (m' & e' & -> & Hd & He).
  cbn [Num.abs SFabs Num.or_zero]. rewrite mul_half by (assumption || lia).
  unfold Num.ltb, SFltb, SFcompare.
  destruct (Z.compare_spec e' (e' - 1)); try reflexivity; lia.
Qed.

(** ** The ranking is in descending order *)

Lemma by_magnitude_positive a b :
  has_magnitude a -> has_magnitude b ->
  Num.ltb Num.zero (by_magnitude a b) = Num.ltb (absWeight a) (absWeight b).
Proof. intros Ha Hb. unfold by_magnitude. now apply sub_positive. Qed.

Lemma insert_sorted x l :
  has_magnitude x -> Forall has_magnitude l ->
  StronglySorted stronger l -> StronglySorted stronger (insert by_magnitude x l).
Proof.
  intros Hx Hl Hs. induction Hs as [|y l Hs IH Hy]; cbn [insert].
  - repeat constructor.
  - apply Forall_cons in Hl as [My Ml].
    rewrite by_magnitude_positive by assumption.
    destruct (Num.ltb (absWeight x) (absWeight y)) eqn:E.
    + constructor; [now apply IH|].
      rewrite insert_perm. constructor; [|exact Hy].
      unfold stronger. now apply ltb_true_leb.
    + assert (Hxy : stronger x y) by (unfold stronger; now apply ltb_false_leb).
      constructor; [now constructor|]. constructor; [exact Hxy|].
      rewrite Forall_forall in Hy, Ml |- *. intros z Hz.
      unfold stronger in *.
      apply leb_trans with (absWeight y); auto. now apply Ml.
Qed.

Lemma sort_sorted l :
  Forall has_magnitude l -> StronglySorted stronger (sort by_magnitude l).
Proof.
  induction l as [|x l IH]; intros Hl; [constructor|].
  apply Forall_cons in Hl as [Hx Hl]. unfold sort in *. cbn [foldr].
  apply insert_sorted; [exact Hx | | now apply IH].
  change (foldr (insert by_magnitude) [] l) with (sort by_magnitude l).
  now rewrite sort_perm.
Qed.


Lemma collect_magnitudes fromLen toLen w :
  is_kernel fromLen toLen w ->
  Forall (fun x => Num.is_nan x = false) (Tensor.data w) ->
  Forall has_magnitude (collect fromLen toLen w).
Proof.
  intros (Hs & Hw & Hv) Hn. rewrite Forall_forall. intros c Hc.
  destruct (elem_of_collect _ _ _ _ Hs Hw Hc) as (x & Hx & E).
  unfold has_magnitude. rewrite E.
  rewrite Forall_forall in Hv, Hn. apply magnitude_of_f32; auto.
Qed.

(** ** The selection count *)

Lemma ceil_agrees_small total :
  total <= 4096 ->
  Num.ceil (Num.mul (Num.of_Z (Z.of_nat total)) (Num.lit 3 10))
  = ceil_30_percent (Z.of_nat total).
Proof.
  intros H.
  assert (All : forallb ceil_agrees (seq 0 4097) = true) by (vm_compute; reflexivity).
  rewrite forallb_forall in All. apply Z.eqb_eq. apply (All total).
  apply in_seq. lia.
Qed.

Lemma topConnections_bounds fromLen toLen :
  1 <= fromLen -> 1 <= toLen -> (Z.of_nat (fromLen * toLen) < 2 ^ 53)%Z ->
  (1 <= topConnections (fromLen * toLen) fromLen toLen <= Z.of_nat (fromLen * toLen))%Z
  /\ (Z.min (Z.of_nat fromLen) (Z.of_nat toLen)
      <= topConnections (fromLen * toLen) fromLen toLen)%Z.
Proof.
  intros H1 H2 H53. unfold topConnections.
  pose proof (ceil_three_tenths (Z.of_nat (fromLen * toLen)) ltac:(nia)) as [C0 C1].
  assert (Z.min (Z.of_nat fromLen) (Z.of_nat toLen) <= Z.of_nat (fromLen * toLen))%Z by nia.
  lia.
Qed.

Lemma threshold_at conns k :
  (1 <= k <= Z.of_nat (length conns))%Z ->
  exists c, at_index conns (k - 1) = Some c /\ c ∈ conns
            /\ threshold conns k = Num.or_zero (absWeight c).
Proof.
  intros Hk. unfold threshold, at_index.
  destruct (Z.ltb_spec (k - 1) 0); [lia|].
  destruct (conns !! Z.to_nat (k - 1)) as [c|] eqn:E.
  - exists c. split; [reflexivity|]. split; [|reflexivity].
    eapply list_elem_of_lookup_2. exact E.
  - apply lookup_ge_None in E. lia.
Qed.

Lemma elem_of_ranked fromLen toLen w c :
  is_kernel fromLen toLen w -> c ∈ ranked fromLen toLen w ->
  exists x, x ∈ Tensor.data w /\ F32.valid x = true
            /\ absWeight c = Num.abs (F32.to_number x).
Proof.
  intros (Hs & Hw & Hv) Hc. unfold ranked in Hc. rewrite sort_perm in Hc.
  destruct (elem_of_collect _ _ _ _ Hs Hw Hc) as (x & Hx & E).
  exists x. rewrite Forall_forall in Hv. auto.
Qed.


(** ** The three statements *)

(** C10. For two adjacent layers with at least one node each and a
    kernel of the matching shape, the selection count [k] lies between
    1 and the number of connections, which is the product of the two
    layer sizes; so the [k]-th ranked connection exists and the
    threshold is read from it: the branch for a missing connection is
    not taken. *)
Theorem kth_connection_exists (fromLen toLen : nat) (w : Tensor.t) :
  1 <= fromLen -> 1 <= toLen -> (Z.of_nat (fromLen * toLen) < 2 ^ 53)%Z ->
  Tensor.shape w = [fromLen; toLen] ->
  let conns := ranked fromLen toLen w in
  let k := topConnections (length conns) fromLen toLen in
  length conns = fromLen * toLen
  /\ (1 <= k <= Z.of_nat (length conns))%Z
  /\ exists c, at_index conns (k - 1) = Some c
               /\ threshold conns k = Num.or_zero (absWeight c).
Proof.
  intros H1 H2 H53 Hs. cbn zeta. rewrite (length_ranked _ _ _ Hs).
  destruct (topConnections_bounds _ _ H1 H2 H53) as [Hk _].
  split; [reflexivity|]. split; [exact Hk|].
  destruct (threshold_at (ranked fromLen toLen w)
              (topConnections (fromLen * toLen) fromLen toLen)) as (c & Hc & _ & Ht).
  { rewrite (length_ranked _ _ _ Hs). exact Hk. }
  exists c. auto.
Qed.

(** C5. For two adjacent layers with at least one node each and their
    kernel, the selection count is
    [k = max(ceil(0.3 * total), min(sourceCount, targetCount))] with
    [total = sourceCount * targetCount] (the product and the ceiling as
    JavaScript computes them, which is the exact ceiling for every
    total up to 4096, the two pairs of [draw] included); at most [k]
    connections are drawn; and when all entries of the kernel have the
    same magnitude exactly [k] are drawn, which is at least
    [min(sourceCount, targetCount)]. *)
Theorem selection_count (fromLen toLen : nat) (w : Tensor.t) :
  1 <= fromLen -> 1 <= toLen -> (Z.of_nat (fromLen * toLen) < 2 ^ 53)%Z ->
  is_kernel fromLen toLen w ->
  let conns := ranked fromLen toLen w in
  let k := topConnections (length conns) fromLen toLen in
  k = Z.max (Num.ceil (Num.mul (Num.of_Z (Z.of_nat (fromLen * toLen))) (Num.lit 3 10)))
            (Z.min (Z.of_nat fromLen) (Z.of_nat toLen))
  /\ (fromLen * toLen <= 4096 ->
      k = Z.max (ceil_30_percent (Z.of_nat (fromLen * toLen)))
                (Z.min (Z.of_nat fromLen) (Z.of_nat toLen)))
  /\ (exists l, draw_connections fromLen toLen w = Drawn l /\ (Z.of_nat (length l) <= k)%Z)
  /\ ((forall x y, x ∈ Tensor.data w -> y ∈ Tensor.data w -> F32.abs x = F32.abs y) ->
      exists l, draw_connections fromLen toLen w = Drawn l
                /\ Z.of_nat (length l) = k
                /\ Nat.min fromLen toLen <= length l).
Proof.
  intros H1 H2 H53 Hk. cbn zeta. pose proof Hk as (Hs & Hw & Hv).
  unfold draw_connections. fold (ranked fromLen toLen w).
  rewrite (length_ranked _ _ _ Hs).
  destruct (topConnections_bounds _ _ H1 H2 H53) as [Rk Mk].
  split; [reflexivity|].
  split; [intros Hsmall; unfold topConnections; now rewrite ceil_agrees_small|].
  set (k := topConnections (fromLen * toLen) fromLen toLen) in *.
  set (conns := ranked fromLen toLen w).
  assert (Hlen : length conns = fromLen * toLen) by apply (length_ranked _ _ _ Hs).
  destruct (draw_loop_total conns (threshold conns k) (Z.to_nat k) 0 ltac:(lia)) as [l El].
  destruct (draw_loop_spec _ _ _ _ _ El) as (Hl & Hn & Hall & Hnext).
  split; [exists l; split; [exact El | lia]|].
  intros Hsame. exists l. split; [exact El|].
  assert (Hfull : length l = Z.to_nat k).
  { destruct (Nat.eq_dec (length l) (Z.to_nat k)) as [E|N]; [exact E|exfalso].
    destruct (Hnext ltac:(lia)) as (c & Hc & Hb).
    apply list_elem_of_lookup_2 in Hc.
    destruct (elem_of_ranked _ _ _ _ Hk Hc) as (x & Hx & Vx & Ex).
    destruct (threshold_at conns k ltac:(lia)) as (ck & _ & Hck & Ethr).
    destruct (elem_of_ranked _ _ _ _ Hk Hck) as (xk & Hxk & Vxk & Exk).
    unfold below_half in Hb. rewrite Ethr, Exk, Ex in Hb.
    rewrite (abs_to_number x), (Hsame x xk Hx Hxk), <- (abs_to_number xk) in Hb.
    rewrite (half_not_above xk Vxk) in Hb. discriminate. }
  split; lia.
Qed.


(** ** The early stop on a ranking without NaN

    The threshold is the magnitude of the [k]-th ranked connection and
    the connections before it are at least as strong, so none of the
    first [k] is below half the threshold: all [k] are drawn. *)

Lemma StronglySorted_lookup {A} (R : A -> A -> Prop) l :
  StronglySorted R l ->
  forall i j a b, l !! i = Some a -> l !! j = Some b -> i < j -> R a b.
Proof.
  induction 1 as [|x l Hs IH Hx]; intros i j a b Hi Hj Hij; [discriminate|].
  destruct j as [|j]; [lia|]. cbn in Hj. destruct i as [|i]; cbn in Hi.
  - injection Hi as <-. rewrite Forall_forall in Hx. apply Hx.
    eapply list_elem_of_lookup_2. exact Hj.
  - apply (IH i j); auto. lia.
Qed.

Lemma leb_refl x : is_magnitude x -> Num.leb x x = true.
Proof.
  intros Hx. apply leb_key; [assumption..|].
  destruct (key x) as [[a b] c]. unfold key_le. lia.
Qed.

Lemma not_below_half x a :
  F32.valid x = true -> Num.is_nan x = false -> is_magnitude a ->
  Num.leb (Num.abs (F32.to_number x)) a = true ->
  Num.ltb a (Num.mul (Num.or_zero (Num.abs (F32.to_number x))) Num.half) = false.
Proof.
  intros Hv Hn Ha Hle.
  pose proof (magnitude_of_f32 x Hv Hn) as HT.
  apply (leb_key _ _ HT Ha) in Hle.
  destruct (Num.ltb a _) eqn:E; [exfalso|reflexivity].
  destruct x as [s|s| |s m e]; try discriminate.
  - cbn in *. apply (ltb_key a (S754_zero false) Ha I) in E. apply E.
    destruct a as [[]|[]| |[] ma ea]; cbn in *; try contradiction; lia.
  - cbn in *. apply (ltb_key a (S754_infinity false) Ha I) in E. apply E.
    destruct a as [[]|[]| |[] ma ea]; cbn in *; try contradiction; lia.
  - destruct (to_number_normal s m e Hv) as (m' & e' & Et & Hd & He).
    rewrite Et in *. cbn [Num.abs SFabs Num.or_zero] in *.
    rewrite mul_half in E by (assumption || lia).
    apply (ltb_key a (S754_finite false m' (e' - 1)) Ha) in E; [|cbn; split; [assumption | lia]].
    apply E. destruct a as [[]|[]| |[] ma ea]; cbn in *; try contradiction; lia.
Qed.

Lemma early_stop_never_fires (fromLen toLen : nat) (w : Tensor.t) :
  1 <= fromLen -> 1 <= toLen -> (Z.of_nat (fromLen * toLen) < 2 ^ 53)%Z ->
  is_kernel fromLen toLen w ->
  Forall (fun x => Num.is_nan x = false) (Tensor.data w) ->
  draw_connections fromLen toLen w
  = Drawn (take (Z.to_nat (topConnections (fromLen * toLen) fromLen toLen))
                (ranked fromLen toLen w)).
Proof.
  intros H1 H2 H53 Hk Hn. pose proof Hk as (Hs & Hw & Hv).
  assert (Hmag : Forall has_magnitude (ranked fromLen toLen w)).
  { unfold ranked. rewrite sort_perm. now apply collect_magnitudes. }
  assert (Hsorted : StronglySorted stronger (ranked fromLen toLen w)).
  { unfold ranked. apply sort_sorted. now apply collect_magnitudes. }
  unfold draw_connections. fold (ranked fromLen toLen w).
  rewrite (length_ranked _ _ _ Hs).
  set (conns := ranked fromLen toLen w) in *.
  assert (Hlen : length conns = fromLen * toLen) by apply (length_ranked _ _ _ Hs).
  destruct (topConnections_bounds _ _ H1 H2 H53) as [Rk _].
  set (k := topConnections (fromLen * toLen) fromLen toLen) in *.
  destruct (threshold_at conns k ltac:(lia)) as (ck & Hck & Hin & Ethr).
  destruct (draw_loop_total conns (threshold conns k) (Z.to_nat k) 0 ltac:(lia)) as [l El].
  destruct (draw_loop_spec _ _ _ _ _ El) as (Hl & Hle & Hall & Hnext).
  rewrite drop_0 in Hl. cbn [Nat.add] in Hnext.
  rewrite El. f_equal. rewrite Hl. f_equal.
  destruct (Nat.eq_dec (length l) (Z.to_nat k)) as [E|N]; [exact E|exfalso].
  destruct (Hnext ltac:(lia)) as (c & Hc & Hb).
  unfold at_index in Hck. destruct (Z.ltb_spec (k - 1) 0); [lia|].
  destruct (elem_of_ranked _ _ _ _ Hk Hin) as (xk & Hxk & Vxk & Exk).
  rewrite Forall_forall in Hmag. rewrite Forall_forall in Hn.
  assert (Hmc : has_magnitude c) by (apply Hmag; eapply list_elem_of_lookup_2; exact Hc).
  assert (Hge : stronger c ck).
  { destruct (Nat.eq_dec (length l) (Z.to_nat (k - 1))) as [Eq|Ne].
    - rewrite Eq, Hck in Hc. injection Hc as <-. unfold stronger. apply leb_refl.
      now apply Hmag.
    - apply (StronglySorted_lookup _ _ Hsorted (length l) (Z.to_nat (k - 1))); auto. lia. }
  unfold below_half in Hb. unfold stronger in Hge. rewrite Ethr, Exk in Hb. rewrite Exk in Hge.
  rewrite (not_below_half xk (absWeight c) Vxk (Hn _ Hxk) Hmc Hge) in Hb. discriminate.
Qed.
End VizFacts.

Module VizWitness.
Import Viz VizSpec VizFacts Examples.


Lemma is_kernel_flat : is_kernel 16 1 kernel_flat.
Proof.
  split; [reflexivity|]. split; [reflexivity|]. vm_compute. repeat constructor.
Defined.


Lemma size_2_16 : (Z.of_nat (2 * 16) < 2 ^ 53)%Z.
Proof. reflexivity. Defined.

Lemma size_16_1 : (Z.of_nat (16 * 1) < 2 ^ 53)%Z.
Proof. reflexivity. Defined.

Lemma kth_connection_exists_witness :
  1 <= 2 /\ 1 <= 16 /\ (Z.of_nat (2 * 16) < 2 ^ 53)%Z
  /\ Tensor.shape kernel_ramp = [2; 16]
  /\ length (ranked 2 16 kernel_ramp) = 2 * 16
  /\ (1 <= topConnections (length (ranked 2 16 kernel_ramp)) 2 16
      <= Z.of_nat (length (ranked 2 16 kernel_ramp)))%Z
  /\ exists c,
       at_index (ranked 2 16 kernel_ramp)
                (topConnections (length (ranked 2 16 kernel_ramp)) 2 16 - 1) = Some c
       /\ threshold (ranked 2 16 kernel_ramp)
                    (topConnections (length (ranked 2 16 kernel_ramp)) 2 16)
          = Num.or_zero (absWeight c).
Proof.
  split; [lia|]. split; [lia|]. split; [exact size_2_16|]. split; [reflexivity|].
  exact (kth_connection_exists 2 16 kernel_ramp ltac:(lia) ltac:(lia) size_2_16 eq_refl).
Defined.

Lemma selection_count_witness :
  1 <= 16 /\ 1 <= 1 /\ (Z.of_nat (16 * 1) < 2 ^ 53)%Z /\ is_kernel 16 1 kernel_flat
  /\ topConnections (length (ranked 16 1 kernel_flat)) 16 1
     = Z.max (Num.ceil (Num.mul (Num.of_Z (Z.of_nat (16 * 1))) (Num.lit 3 10)))
             (Z.min (Z.of_nat 16) (Z.of_nat 1))
  /\ (16 * 1 <= 4096 ->
      topConnections (length (ranked 16 1 kernel_flat)) 16 1
      = Z.max (ceil_30_percent (Z.of_nat (16 * 1))) (Z.min (Z.of_nat 16) (Z.of_nat 1)))
  /\ (exists l, draw_connections 16 1 kernel_flat = Drawn l
                /\ (Z.of_nat (length l)
                    <= topConnections (length (ranked 16 1 kernel_flat)) 16 1)%Z)
  /\ ((forall x y, x ∈ Tensor.data kernel_flat -> y ∈ Tensor.data kernel_flat ->
                   F32.abs x = F32.abs y) ->
      exists l, draw_connections 16 1 kernel_flat = Drawn l
                /\ Z.of_nat (length l) = topConnections (length (ranked 16 1 kernel_flat)) 16 1
                /\ Nat.min 16 1 <= length l).
Proof.
  split; [lia|]. split; [lia|]. split; [exact size_16_1|]. split; [exact is_kernel_flat|].
  exact (selection_count 16 1 kernel_flat ltac:(lia) ltac:(lia) size_16_1 is_kernel_flat).
Defined.


(** The ten strongest connections of the ramp are drawn, strongest
    first; they all leave the second input node. *)
Example ramp_drawn :
  match draw_connections 2 16 kernel_ramp with
  | Drawn l => map (fun c => (fromIdx c, toIdx c)) l
  | TypeError => []
  end
  = [(1, 15); (1, 14); (1, 13); (1, 12); (1, 11); (1, 10); (1, 9); (1, 8); (1, 7); (1, 6)].
Proof. vm_compute. reflexivity. Qed.

(** All magnitudes equal: five connections are drawn, in the order of
    the matrix (the sort is stable). *)
Example flat_drawn :
  match draw_connections 16 1 kernel_flat with
  | Drawn l => map (fun c => (fromIdx c, toIdx c)) l
  | TypeError => []
  end
  = [(0, 0); (1, 0); (2, 0); (3, 0); (4, 0)].
Proof. vm_compute. reflexivity. Qed.

(** A kernel that is smaller than the layers it connects: the count
    exceeds the number of connections, and the loop reads a property of
    [undefined]. *)
Example small_kernel_fails :
  draw_connections 2 16 (Tensor.mk [1; 1] [F32.of_Z 1]) = TypeError.
Proof. vm_compute. reflexivity. Qed.

(** A whole network of the fixed architecture. *)
Example draw_counts :
  match draw [kernel_ramp; Tensor.mk [16] []; kernel_flat; Tensor.mk [1] []] with
  | Drawn ls => map (@length Connection) ls
  | TypeError => []
  end = [10; 5].
Proof. vm_compute. reflexivity. Qed.
End VizWitness.

Module DrawFacts.
Import Viz VizSpec CanvasSpec FloatSpec FloatFacts VizFacts.

Lemma length_collect_any fromLen toLen w :
  length (collect fromLen toLen w) = connection_count fromLen toLen w.
Proof.
  unfold collect, connection_count.
  destruct (Tensor.shape w !! 0%nat) as [fromNodes|]; [|reflexivity].
  destruct (Tensor.shape w !! 1%nat) as [toNodes|]; [|reflexivity].
  rewrite (length_flat_map_const _ _ (Nat.min toLen toNodes)); [now rewrite length_seq|].
  intros a. now rewrite length_map, length_seq.
Qed.

Lemma collect_abs fromLen toLen w c :
  c ∈ collect fromLen toLen w -> absWeight c = Num.abs (weight c).
Proof.
  unfold collect.
  destruct (Tensor.shape w !! 0%nat) as [fromNodes|]; [|now intros ?%elem_of_nil].
  destruct (Tensor.shape w !! 1%nat) as [toNodes|]; [|now intros ?%elem_of_nil].
  rewrite list_elem_of_In, in_flat_map. intros (i & _ & Hc).
  rewrite in_map_iff in Hc. destruct Hc as (j & <- & _). reflexivity.
Qed.

Lemma abs_not_below_zero w :
  Num.ltb (Num.abs w) (Num.mul Num.zero Num.half) = false.
Proof. destruct w as [s|s| |s m e]; reflexivity. Qed.

Lemma draw_loop_overrun sorted n : forall i,
  Forall (fun c => absWeight c = Num.abs (weight c)) sorted ->
  i <= length sorted -> length sorted < i + n ->
  draw_loop sorted Num.zero i n = TypeError.
Proof.
  induction n as [|n IH]; intros i Ha Hi Hn; [lia|].
  cbn [draw_loop]. destruct (sorted !! i) as [conn|] eqn:E; [|reflexivity].
  assert (Hc : absWeight conn = Num.abs (weight conn)).
  { rewrite Forall_forall in Ha. apply Ha. eapply list_elem_of_lookup_2. exact E. }
  rewrite Hc, abs_not_below_zero.
  apply lookup_lt_Some in E.
  rewrite IH; [reflexivity | assumption | lia | lia].
Qed.

Lemma ceil_three_tenths_nonneg n :
  (0 <= n < 2 ^ 53)%Z ->
  (0 <= Num.ceil (Num.mul (Num.of_Z n) (Num.lit 3 10)) <= n)%Z.
Proof.
  intros H. destruct (Z.eq_dec n 0%Z) as [->|Hn]; [vm_compute; split; discriminate|].
  apply ceil_three_tenths. lia.
Qed.

Lemma topConnections_le count fromLen toLen :
  (Z.of_nat count < 2 ^ 53)%Z ->
  ((topConnections count fromLen toLen <= Z.of_nat count)%Z
   <-> Nat.min fromLen toLen <= count)
  /\ (0 <= topConnections count fromLen toLen)%Z.
Proof.
  intros H. unfold topConnections.
  pose proof (ceil_three_tenths_nonneg (Z.of_nat count) ltac:(lia)). lia.
Qed.

Lemma threshold_missing conns k :
  (Z.of_nat (length conns) < k)%Z -> threshold conns k = Num.zero.
Proof.
  intros Hk. unfold threshold, at_index.
  destruct (Z.ltb_spec (k - 1) 0); [reflexivity|].
  destruct (conns !! Z.to_nat (k - 1)) as [c|] eqn:E; [|reflexivity].
  apply lookup_lt_Some in E. lia.
Qed.

Lemma draw_connections_cases fromLen toLen w :
  (Z.of_nat (connection_count fromLen toLen w) < 2 ^ 53)%Z ->
  (connection_count fromLen toLen w < Nat.min fromLen toLen ->
   draw_connections fromLen toLen w = TypeError)
  /\ (Nat.min fromLen toLen <= connection_count fromLen toLen w ->
      exists l, draw_connections fromLen toLen w = Drawn l
                /\ (Z.of_nat (length l)
                    <= topConnections (connection_count fromLen toLen w) fromLen toLen)%Z).
Proof.
  intros H53. unfold draw_connections.
  rewrite length_sort, length_collect_any.
  set (count := connection_count fromLen toLen w) in *.
  set (sorted := sort by_magnitude (collect fromLen toLen w)).
  assert (Hlen : length sorted = count).
  { subst sorted. now rewrite length_sort, length_collect_any. }
  destruct (topConnections_le count fromLen toLen H53) as [Hk Hk0].
  set (k := topConnections count fromLen toLen) in *.
  split.
  - intros Hlt. assert (Hgt : (Z.of_nat count < k)%Z) by lia.
    rewrite threshold_missing by lia.
    apply draw_loop_overrun; [|lia|lia].
    rewrite Forall_forall. intros c Hc. subst sorted. rewrite sort_perm in Hc.
    eapply collect_abs. exact Hc.
  - intros Hm. apply Hk in Hm.
    destruct (draw_loop_total sorted (threshold sorted k) (Z.to_nat k) 0) as [l Hl]; [lia|].
    exists l. split; [exact Hl|].
    destruct (draw_loop_spec _ _ _ _ _ Hl) as (_ & Hn & _). lia.
Qed.

(** ** The entries behind the connections *)

Lemma chunks_lookup w n : forall l i,
  i < n -> Tensor.chunks w n l !! i = Some (take w (drop (i * w) l)).
Proof.
  induction n as [|n IH]; intros l i Hi; [lia|].
  cbn [Tensor.chunks]. destruct i as [|i]; [reflexivity|].
  cbn [lookup list_lookup]. change (Tensor.chunks w n (drop w l) !! i = Some (take w (drop (S i * w) l))).
  rewrite IH by lia. rewrite drop_drop. reflexivity.
Qed.

Lemma entry_lookup w fromNodes toNodes i j :
  Tensor.shape w = [fromNodes; toNodes] -> i < fromNodes -> j < toNodes ->
  entry w i j = Tensor.data w !! (i * toNodes + j).
Proof.
  intros Hs Hi Hj. unfold entry, Tensor.rows. rewrite Hs.
  rewrite chunks_lookup by assumption.
  rewrite lookup_take_lt by assumption. now rewrite lookup_drop.
Qed.

Lemma NoDup_pairs {A B} (la : list A) (lb : list B) :
  NoDup la -> NoDup lb -> NoDup (flat_map (fun a => map (pair a) lb) la).
Proof.
  intros Ha Hb. induction Ha as [|a la Hn Ha IH]; cbn [flat_map]; [constructor|].
  apply NoDup_app. split; [|split; [|exact IH]].
  - apply (NoDup_fmap_2 (pair a)). exact Hb.
  - intros [a' b] H1 H2. apply list_elem_of_In in H1, H2.
    apply in_map_iff in H1 as (b1 & [= <- <-] & _).
    apply in_flat_map in H2 as (a2 & Ha2 & H2).
    apply in_map_iff in H2 as (b2 & [= <- <-] & _).
    apply Hn. now apply list_elem_of_In.
Qed.

Lemma map_flat_map {A B C} (g : B -> C) (f : A -> list B) l :
  map g (flat_map f l) = flat_map (fun a => map g (f a)) l.
Proof.
  induction l as [|a l IH]; [reflexivity|]. cbn [flat_map]. now rewrite map_app, IH.
Qed.

Lemma collect_ends fromLen toLen w :
  NoDup (map ends (collect fromLen toLen w)).
Proof.
  unfold collect.
  destruct (Tensor.shape w !! 0%nat) as [fromNodes|]; [|constructor].
  destruct (Tensor.shape w !! 1%nat) as [toNodes|]; [|constructor].
  rewrite map_flat_map.
  erewrite flat_map_ext; [apply (NoDup_pairs (seq 0 (Nat.min fromLen fromNodes))
                                             (seq 0 (Nat.min toLen toNodes)));
                          apply NoDup_seq|].
  intros a. rewrite map_map. reflexivity.
Qed.

Lemma collect_entry fromLen toLen fromNodes toNodes w c :
  Tensor.shape w = [fromNodes; toNodes] ->
  c ∈ collect fromLen toLen w ->
  fromIdx c < Nat.min fromLen fromNodes /\ toIdx c < Nat.min toLen toNodes
  /\ weight c = weight_at (Tensor.data w) (fromIdx c * toNodes + toIdx c)
  /\ absWeight c = Num.abs (weight c).
Proof.
  intros Hs. unfold collect. rewrite Hs. cbn [lookup list_lookup].
  rewrite list_elem_of_In, in_flat_map. intros (i & Hi & Hc).
  rewrite in_map_iff in Hc. destruct Hc as (j & <- & Hj).
  apply in_seq in Hi, Hj. cbn [fromIdx toIdx weight absWeight].
  repeat split; lia.
Qed.

Lemma drawn_prefix fromLen toLen w l :
  draw_connections fromLen toLen w = Drawn l ->
  l = take (length l) (ranked fromLen toLen w).
Proof.
  unfold draw_connections. intros Hl.
  destruct (draw_loop_spec _ _ _ _ _ Hl) as (E & _). exact E.
Qed.

(** ** The whole drawing *)

Lemma draw_pairs_architecture ws k1 k2 :
  ws !! 0 = Some k1 -> ws !! 2 = Some k2 ->
  Tensor.shape k1 = [2; 16] -> Tensor.shape k2 = [16; 1] ->
  exists l1 l2,
    draw_connections 2 16 k1 = Drawn l1 /\ draw_connections 16 1 k2 = Drawn l2
    /\ draw ws = Drawn [l1; l2]
    /\ length l1 <= 10 /\ length l2 <= 5.
Proof.
  intros H0 H2 S1 S2.
  destruct (draw_connections_cases 2 16 k1) as (_ & G1).
  { unfold connection_count. rewrite S1. vm_compute. reflexivity. }
  destruct (draw_connections_cases 16 1 k2) as (_ & G2).
  { unfold connection_count. rewrite S2. vm_compute. reflexivity. }
  unfold connection_count in G1, G2. rewrite S1 in G1. rewrite S2 in G2.
  destruct G1 as (l1 & D1 & L1); [vm_compute; lia|].
  destruct G2 as (l2 & D2 & L2); [vm_compute; lia|].
  exists l1, l2. split; [exact D1|]. split; [exact D2|].
  split.
  - unfold draw, layers. cbn [draw_pairs Nat.mul]. rewrite H0, D1.
    change (2 + 0) with 2. rewrite H2, D2. reflexivity.
  - change (Z.of_nat (length l1) <= 10)%Z in L1.
    change (Z.of_nat (length l2) <= 5)%Z in L2. lia.
Qed.

(** ** Statements *)

(** X1. Drawing the connections of a pair of layers raises a TypeError
    exactly when the kernel provides fewer connections than the smaller
    of the two layers has nodes; otherwise it draws at most [k]
    connections.  The number of connections is the product of the two
    loop bounds of lines 115 and 116. *)
Theorem draw_connections_fails_iff (fromLen toLen : nat) (w : Tensor.t) :
  (Z.of_nat (connection_count fromLen toLen w) < 2 ^ 53)%Z ->
  length (collect fromLen toLen w) = connection_count fromLen toLen w
  /\ (draw_connections fromLen toLen w = TypeError
      <-> connection_count fromLen toLen w < Nat.min fromLen toLen)
  /\ (Nat.min fromLen toLen <= connection_count fromLen toLen w ->
      exists l, draw_connections fromLen toLen w = Drawn l
                /\ (Z.of_nat (length l)
                    <= topConnections (connection_count fromLen toLen w) fromLen toLen)%Z).
Proof.
  intros H53. split; [apply length_collect_any|].
  destruct (draw_connections_cases fromLen toLen w H53) as [Bad Good].
  split; [|exact Good]. split; [|exact Bad].
  intros Herr.
  destruct (Nat.lt_ge_cases (connection_count fromLen toLen w) (Nat.min fromLen toLen))
    as [|Hm]; [assumption|].
  destruct (Good Hm) as (l & Hl & _). congruence.
Qed.

(** X2. Every connection that is drawn joins a node of the first layer
    to a node of the second, no pair of nodes is joined twice, and the
    weight a connection is drawn with is the entry of the kernel at the
    row of its source and the column of its target. *)
Theorem drawn_connections_are_entries (fromLen toLen fromNodes toNodes : nat)
        (w : Tensor.t) (l : list Connection) :
  Tensor.shape w = [fromNodes; toNodes] -> Tensor.well_formed w ->
  draw_connections fromLen toLen w = Drawn l ->
  NoDup (map ends l)
  /\ Forall (fun c =>
               fromIdx c < fromLen /\ toIdx c < toLen
               /\ exists x, entry w (fromIdx c) (toIdx c) = Some x
                            /\ weight c = F32.to_number x
                            /\ absWeight c = Num.abs (F32.to_number x)) l.
Proof.
  intros Hs Hw Hl. pose proof (drawn_prefix _ _ _ _ Hl) as E.
  assert (Hsub : forall c, c ∈ l -> c ∈ collect fromLen toLen w).
  { intros c Hc. rewrite E in Hc. apply subseteq_take in Hc.
    unfold ranked in Hc. now rewrite sort_perm in Hc. }
  split.
  - assert (N : NoDup (map ends (ranked fromLen toLen w))).
    { unfold ranked. rewrite sort_perm. apply collect_ends. }
    rewrite <- (take_drop (length l) (ranked fromLen toLen w)), <- E in N.
    rewrite map_app in N. apply NoDup_app in N. tauto.
  - rewrite Forall_forall. intros c Hc. apply Hsub in Hc.
    destruct (collect_entry _ _ _ _ _ _ Hs Hc) as (Hi & Hj & Hwt & Ha).
    split; [lia|]. split; [lia|].
    rewrite (entry_lookup _ _ _ _ _ Hs) by lia.
    unfold weight_at in Hwt.
    destruct (Tensor.data w !! (fromIdx c * toNodes + toIdx c)) as [x|] eqn:Ex.
    + exists x. rewrite Ha, Hwt. auto.
    + apply lookup_ge_None in Ex. unfold Tensor.well_formed in Hw.
      rewrite Hs in Hw. cbn in Hw. nia.
Qed.


(** X3. For the weights of a network of the fixed architecture, [draw]
    goes through both pairs of layers, takes the kernels at positions 0
    and 2 of the weights (the biases are skipped), and raises no
    TypeError; it draws at most 10 and 5 connections, and exactly the
    10 and the 5 strongest when the kernels hold no NaN. *)
Theorem draw_fixed_architecture (ws : list Tensor.t) (k1 k2 : Tensor.t) :
  ws !! 0 = Some k1 -> ws !! 2 = Some k2 ->
  Tensor.shape k1 = [2; 16] -> Tensor.shape k2 = [16; 1] ->
  exists l1 l2,
    draw ws = Drawn [l1; l2]
    /\ length l1 <= 10 /\ length l2 <= 5
    /\ (is_kernel 2 16 k1 -> Forall (fun x => Num.is_nan x = false) (Tensor.data k1) ->
        l1 = take 10 (ranked 2 16 k1) /\ length l1 = 10)
    /\ (is_kernel 16 1 k2 -> Forall (fun x => Num.is_nan x = false) (Tensor.data k2) ->
        l2 = take 5 (ranked 16 1 k2) /\ length l2 = 5).
Proof.
  intros H0 H2 S1 S2.
  destruct (draw_pairs_architecture ws k1 k2 H0 H2 S1 S2)
    as (l1 & l2 & D1 & D2 & Hd & L1 & L2).
  exists l1, l2. split; [exact Hd|]. split; [exact L1|]. split; [exact L2|].
  split.
  - intros K N.
    pose proof (early_stop_never_fires 2 16 k1 ltac:(lia) ltac:(lia) eq_refl K N) as E.
    assert (Hk : Z.to_nat (topConnections (2 * 16) 2 16) = 10) by (vm_compute; reflexivity).
    rewrite Hk, D1 in E. clear Hk. assert (E' : l1 = take 10 (ranked 2 16 k1)) by congruence.
    split; [exact E'|]. rewrite E', length_take, (length_ranked _ _ _ S1). reflexivity.
  - intros K N.
    pose proof (early_stop_never_fires 16 1 k2 ltac:(lia) ltac:(lia) eq_refl K N) as E.
    assert (Hk : Z.to_nat (topConnections (16 * 1) 16 1) = 5) by (vm_compute; reflexivity).
    rewrite Hk, D2 in E. clear Hk. assert (E' : l2 = take 5 (ranked 16 1 k2)) by congruence.
    split; [exact E'|]. rewrite E', length_take, (length_ranked _ _ _ S2). reflexivity.
Qed.
End DrawFacts.

(* ===================================================================== *)
(** * Properties of the activity animation *)
(* ===================================================================== *)

Module WaveFacts.
Import Viz Canvas ActivationFacts.
Local Open Scope R_scope.






Lemma glow_unit activations isTraining time layerIdx nodeIdx :
  0 <= glowIntensity activations isTraining time layerIdx nodeIdx <= 1.
Proof.
  unfold glowIntensity. destruct isTraining; [apply clamp_unit | lra].
Qed.

(** X5. Whatever the activations are, a node is drawn as a disc of a
    radius between 4 and 6 pixels inside a halo of three times that
    radius; the opacities of the three colour stops of the halo lie
    between 0 and 0.8, the opacity of the disc between 0.5 and 1 and
    the blur of its shadow between 0 and 8.  When no training runs
    every node has the radius 5, the halo 15, the opacity 0.75 and the
    blur 4. *)
Theorem node_style_ranges (activations : list (list R)) (isTraining : bool)
        (time : R) (layerIdx nodeIdx : nat) :
  let g := glowIntensity activations isTraining time layerIdx nodeIdx in
  4 <= nodeSize g <= 6
  /\ 12 <= haloRadius g <= 18
  /\ Forall (fun stop => 0 <= snd stop <= 0.8) (haloStops g)
  /\ 0.5 <= brightness g <= 1
  /\ 0 <= shadowBlur g <= 8
  /\ (isTraining = false ->
      nodeSize g = 5 /\ haloRadius g = 15 /\ brightness g = 0.75 /\ shadowBlur g = 4).
Proof.
  cbn zeta. pose proof (glow_unit activations isTraining time layerIdx nodeIdx) as G.
  unfold haloRadius, nodeSize, nodeRadius, brightness, shadowBlur, haloStops.
  split; [lra|]. split; [lra|]. split; [|split; [lra|split; [lra|]]].
  - repeat (apply Forall_cons_2; [cbn [snd]; lra|]). apply Forall_nil_2.
  - intros ->. unfold glowIntensity. repeat split; lra.
Qed.
End WaveFacts.

(* ===================================================================== *)
(** * What the panels show of a session *)
(* ===================================================================== *)

Module ProgressFacts.
Import TF App Panel TrainerSpec SessionSpec TrainerFacts.

Lemma getLatestStats_indexed l :
  indexed l -> epoch (getLatestStats l) = length l.
Proof.
  unfold indexed, getLatestStats, Viz.at_index. intros H.
  destruct l as [|x l] using rev_ind; [reflexivity|].
  rewrite length_app. cbn [length].
  destruct (Z.ltb_spec (Z.of_nat (length l + 1) - 1) 0); [lia|].
  replace (Z.to_nat (Z.of_nat (length l + 1) - 1)) with (length l) by lia.
  rewrite lookup_app_r by lia. rewrite Nat.sub_diag. cbn [lookup list_lookup].
  rewrite map_app, length_app in H. cbn [map length] in H.
  rewrite seq_app in H. apply app_inj_tail in H as [_ H].
  cbn in H. lia.
Qed.

Section WithRuntime.
Variable rt : Runtime.

Lemma trainNetworks_starts c :
  isTraining (app c) = false ->
  exists l s h,
    trainNetworks rt c = mkConfig s h (AwaitAddFit l 0)
    /\ isTraining s = true /\ currentEpoch s = 1
    /\ additionStats s = [] /\ multiplicationStats s = [] /\ mergedStats s = [].
Proof.
  intros Ht. unfold trainNetworks. rewrite Ht.
  unfold createNetwork, alloc_dataset, alloc.
  cbn [bind ret alloc_with next tensors].
  unfold enter_epoch. change (0 <? epochs) with true. cbv iota.
  do 3 eexists. split; [reflexivity|]. repeat split.
Qed.

Lemma progress_enter_epoch s h l e :
  isTraining s = true -> e <= epochs ->
  length (additionStats s) = e -> length (multiplicationStats s) = e ->
  length (mergedStats s) = e -> (e = epochs -> currentEpoch s = epochs) ->
  progress (enter_epoch s h l e).
Proof.
  intros Ht He Ha Hm Hg Hc. unfold enter_epoch.
  destruct (Nat.ltb_spec e epochs) as [Hlt|Hge].
  - unfold progress. cbn. repeat split; assumption || lia.
  - assert (e = epochs) by lia. specialize (Hc H).
    unfold progress. cbn. repeat split; lia.
Qed.

Lemma progress_trainNetworks c : progress c -> progress (trainNetworks rt c).
Proof.
  intros Hp. destruct (isTraining (app c)) eqn:Ht.
  - unfold trainNetworks. now rewrite Ht.
  - destruct (trainNetworks_starts c Ht) as (l & s & h & -> & H1 & H2 & H3 & H4 & H5).
    unfold progress. cbn [app task]. rewrite H3, H4, H5. cbn [length].
    unfold epochs. repeat split; lia || assumption.
Qed.

Lemma progress_resume c : progress c -> progress (resume rt c).
Proof.
  unfold resume. destruct c as [s h t]. cbn [app engine task].
  destruct t as [|l e|l e|l e|err]; intros Hp; try exact Hp.
  - unfold progress in Hp. cbn [app task] in Hp.
    destruct Hp as (Ht & He & Hc & Ha & Hm & Hg).
    destruct (bind _ _ h) as [[[addLoss addAcc]|err] h1].
    + unfold progress. cbn. rewrite length_app. cbn. repeat split; lia || assumption.
    + unfold progress. cbn [app task]. repeat split; lia || assumption.
  - unfold progress in Hp. cbn [app task] in Hp.
    destruct Hp as (Ht & He & Hc & Ha & Hm & Hg).
    destruct (bind _ _ h) as [[[multLoss multAcc]|err] h1].
    + destruct (fuse rt l h1) as [[merged|err] h2].
      * destruct (test_merged rt l merged h2) as [[[divLossVal divAcc]|err] h3].
        -- unfold progress. cbn. rewrite !length_app. cbn.
           repeat split; lia || assumption.
        -- unfold progress. cbn. rewrite !length_app. cbn.
           repeat split; lia || assumption.
      * unfold progress. cbn. rewrite !length_app. cbn.
        repeat split; lia || assumption.
    + unfold progress. cbn [app task]. repeat split; lia || assumption.
  - unfold progress in Hp. cbn [app task] in Hp.
    destruct Hp as (Ht & He & Hc & Ha & Hm & Hg).
    apply progress_enter_epoch; try assumption; lia.
Qed.

Lemma progress_run evs : forall c, progress c -> progress (run rt c evs).
Proof.
  induction evs as [|ev evs IH]; intros c Hc; [exact Hc|].
  rewrite run_cons. apply IH. destruct ev; [now apply progress_trainNetworks|].
  now apply progress_resume.
Qed.

Lemma progress_mount : progress (mount rt).
Proof. unfold progress. cbn. repeat split. now left. Qed.

(** X6. Whatever the user and the runtime do, the epoch shown on each
    panel is the number of entries of its history; the panel of the
    merged network is never ahead of the panel of the multiplication
    network, which is never ahead of the panel of the addition network,
    which is never ahead of the epoch of the button, and the button is
    at most one epoch ahead of the merged panel and never beyond 50. *)
Theorem panels_follow_session (evs : list Event) :
  let s := app (run rt (mount rt) evs) in
  let a := length (additionStats s) in
  let m := length (multiplicationStats s) in
  let g := length (mergedStats s) in
  epoch (getLatestStats (additionStats s)) = a
  /\ epoch (getLatestStats (multiplicationStats s)) = m
  /\ epoch (getLatestStats (mergedStats s)) = g
  /\ g <= m /\ m <= a /\ a <= currentEpoch s
  /\ currentEpoch s <= g + 1 /\ currentEpoch s <= 50.
Proof.
  cbn zeta.
  destruct (consistent_run rt evs _ (consistent_mount rt)) as (I1 & I2 & I3 & _).
  pose proof (progress_run evs _ progress_mount) as P.
  split; [now apply getLatestStats_indexed|].
  split; [now apply getLatestStats_indexed|].
  split; [now apply getLatestStats_indexed|].
  unfold progress in P. cbn zeta in P. unfold epochs in P.
  destruct (task (run rt (mount rt) evs)); lia.
Qed.

(** X7. The button is enabled exactly when no activation of
    [trainNetworks] is pending or rejected.  When it is enabled the
    three histories are all empty or all hold 50 entries; when it is
    disabled its label shows an epoch between 1 and 50 and a click does
    nothing. *)
Theorem button_follows_session (evs : list Event) :
  let c := run rt (mount rt) evs in
  let s := app c in
  (disabled (button s) = false <-> task c = Idle)
  /\ (label (button s) = StartTraining ->
      (additionStats s = [] /\ multiplicationStats s = [] /\ mergedStats s = [])
      \/ (length (additionStats s) = 50 /\ length (multiplicationStats s) = 50
          /\ length (mergedStats s) = 50))
  /\ (forall n, label (button s) = TrainingEpoch n -> 1 <= n <= 50)
  /\ (disabled (button s) = true -> step rt c Click = c).
Proof.
  cbn zeta. pose proof (progress_run evs _ progress_mount) as P.
  set (c := run rt (mount rt) evs) in *.
  unfold progress in P. cbn zeta in P. unfold epochs in P.
  unfold button. cbn [disabled label].
  split; [|split; [|split]].
  - destruct (task c); split; intros H; try discriminate; try reflexivity;
      destruct P as [P _]; congruence.
  - destruct (isTraining (app c)) eqn:Ht; [discriminate|]. intros _.
    destruct (task c); destruct P as (P0 & P); try congruence.
    destruct P as (Ha & Hm & Hg & [H0 | H50]).
    + left. rewrite H0 in *. repeat split; now apply length_zero_iff_nil.
    + right. lia.
  - intros n. destruct (isTraining (app c)) eqn:Ht; [|discriminate].
    intros [= <-]. destruct (task c); destruct P as (P0 & P); try congruence; lia.
  - intros Ht. cbn [step]. unfold trainNetworks. now rewrite Ht.
Qed.
End WithRuntime.
End ProgressFacts.

(* ===================================================================== *)
(** * More about the tolerance accuracy *)
(* ===================================================================== *)

Module AccuracyMore.
Import TF App AccuracySpec FloatFacts AccuracyFacts.

Lemma calculateAccuracy_columns n predictions targets :
  column n predictions -> column n targets -> (Z.of_nat n < 2 ^ 31)%Z ->
  calculateAccuracy predictions targets
  = Ok (Num.div (Num.of_Z (Z.of_nat (hits (Tensor.data predictions) (Tensor.data targets))))
                (Num.of_Z (Z.of_nat n))).
Proof.
  intros [Sp Lp] [St Lt] Hn31.
  unfold calculateAccuracy, Tensor.sub, Tensor.broadcast_op, Tensor.shape_eqb.
  rewrite bool_decide_eq_true_2 by congruence.
  rewrite Sp. cbn [lookup list_lookup].
  unfold Tensor.lessEqual, Tensor.abs. cbn [Tensor.data].
  rewrite sum_bool_count; cycle 1.
  { rewrite !length_map, length_zip_with. lia. }
  rewrite hits_as_count. reflexivity.
Qed.
End AccuracyMore.

(* ===================================================================== *)
(** * The engine during a session *)
(* ===================================================================== *)

Module EngineFacts.
Import TF App FusionSpec FusionFacts SessionSpec.

Lemma frames_dispose n id : n <= id -> frames n (dispose id) (fun _ => True).
Proof.
  intros Hid h Hn. cbn. split; [lia|]. split; [|trivial].
  intros id' Hlt. apply lookup_delete_ne. lia.
Qed.

Lemma frames_lift {A} n (r : result A) : frames n (lift r) (fun _ => True).
Proof. intros h Hn. cbn. auto. Qed.

Lemma mapM_read_heap ids h : snd (mapM read ids h) = h.
Proof.
  induction ids as [|id ids IH]; [reflexivity|].
  cbn [mapM]. unfold bind at 1. unfold read at 1.
  destruct (tensors h !! id) as [x|]; [|reflexivity].
  unfold bind. specialize IH. destruct (mapM read ids h) as [[xs|e] h']; cbn in *; congruence.
Qed.

Lemma mapM_read_inv ids h xs h' :
  mapM read ids h = (Ok xs, h') ->
  Forall2 (fun id x => tensors h !! id = Some x) ids xs.
Proof.
  revert xs. induction ids as [|id ids IH]; intros xs; cbn [mapM].
  - intros [= <- <-]. constructor.
  - unfold bind at 1. unfold read at 1.
    destruct (tensors h !! id) as [x|] eqn:E; [|discriminate].
    unfold bind. pose proof (mapM_read_heap ids h) as Hh.
    destruct (mapM read ids h) as [[ys|e] h1]; [|discriminate].
    cbn. intros [= <- <-]. constructor; [exact E|]. eapply IH. reflexivity.
Qed.

Section WithRuntime.
Variable rt : Runtime.

(** ** Fitting *)

Lemma run_fit_cases e net d h :
  run_fit rt e net d h = (Throw FitFailed, h)
  \/ (exists err, run_fit rt e net d h = (Throw err, h))
  \/ exists ws x y ws' l,
       Forall2 (fun id w => tensors h !! id = Some w) (weights net) ws
       /\ fit rt e ws x y batchSize = Some (ws', l)
       /\ run_fit rt e net d h = (Ok l, mkHeap (store (tensors h) (zip (weights net) ws')) (next h)).
Proof.
  destruct (run_fit rt e net d h) as [r h'] eqn:R.
  unfold run_fit in R. unfold bind at 1 in R.
  pose proof (mapM_read_heap (weights net) h) as Hh.
  destruct (mapM read (weights net) h) as [[ws|err] h1] eqn:E; cbn in Hh; subst h1;
    [|right; left; exists err; congruence].
  apply mapM_read_inv in E.
  unfold bind at 1, read at 1 in R.
  destruct (tensors h !! fst d) as [x|]; [|right; left; eexists; symmetry; exact R].
  unfold bind at 1, read at 1 in R.
  destruct (tensors h !! snd d) as [y|]; [|right; left; eexists; symmetry; exact R].
  destruct (fit rt e ws x y batchSize) as [[ws' l]|] eqn:F; [|left; symmetry; exact R].
  right. right. exists ws, x, y, ws', l. split; [exact E|]. split; [exact F|].
  symmetry. exact R.
Qed.

Lemma store_other m l id :
  id ∉ map fst l -> store m l !! id = m !! id.
Proof.
  induction l as [|[var w] l IH]; intros Hid; [reflexivity|].
  cbn [store foldr]. cbn [map fst] in Hid. apply not_elem_of_cons in Hid as [Hne Hid].
  rewrite lookup_insert_ne by congruence. now apply IH.
Qed.

Lemma store_shape m ids : forall ws ws',
  Forall2 (fun id w => m !! id = Some w) ids ws ->
  Forall2 (fun w w' => Tensor.shape w' = Tensor.shape w) ws ws' ->
  forall id x, m !! id = Some x ->
    exists x', store m (zip ids ws') !! id = Some x' /\ Tensor.shape x' = Tensor.shape x.
Proof.
  induction ids as [|i ids IH]; intros ws ws' H1 H2 id x Hx.
  - exists x. auto.
  - inversion H1 as [|? w ? ws1 Hi H1']; subst. inversion H2 as [|? w' ? ws1' Hs H2']; subst.
    cbn [zip zip_with store foldr]. destruct (decide (id = i)) as [->|Hne].
    + rewrite lookup_insert_eq. exists w'. split; [reflexivity|]. congruence.
    + rewrite lookup_insert_ne by congruence. eapply IH; eassumption.
Qed.

Lemma run_fit_next e net d h : next (snd (run_fit rt e net d h)) = next h.
Proof.
  destruct (run_fit_cases e net d h) as [-> | [[err ->] | (ws & x & y & ws' & l & _ & _ & ->)]];
    reflexivity.
Qed.

Lemma run_fit_other e net d h id :
  id ∉ weights net ->
  tensors (snd (run_fit rt e net d h)) !! id = tensors h !! id.
Proof.
  intros Hid.
  destruct (run_fit_cases e net d h) as [-> | [[err ->] | (ws & x & y & ws' & l & _ & _ & ->)]];
    try reflexivity.
  cbn [snd tensors]. apply store_other. intros Hin. apply Hid.
  apply list_elem_of_fmap in Hin as ([i w] & -> & Hin). cbn.
  apply elem_of_zip_l in Hin. exact Hin.
Qed.

Lemma run_fit_shapes e net d h id x :
  fit_keeps_shapes rt -> tensors h !! id = Some x ->
  exists x', tensors (snd (run_fit rt e net d h)) !! id = Some x'
             /\ Tensor.shape x' = Tensor.shape x.
Proof.
  intros Hfit Hx.
  destruct (run_fit_cases e net d h) as [-> | [[err ->] | (ws & x0 & y & ws' & l & Hr & F & ->)]];
    [exists x; auto | exists x; auto |].
  cbn [snd tensors]. eapply store_shape; [exact Hr | | exact Hx].
  eapply Hfit. exact F.
Qed.

(** ** Inference and evaluation *)

Lemma frames_run_predict n net inputs :
  frames n (run_predict rt net inputs) (fun id => n <= id).
Proof.
  unfold run_predict.
  eapply frames_bind; [apply (frames_mapM n _ _ (fun _ => True)); intros; apply frames_read|].
  intros ws _. eapply frames_bind; [apply frames_read|]. intros x _.
  destruct (predict rt ws x); [apply frames_alloc_with | apply frames_throw].
Qed.

Lemma frames_evaluate n net d : frames n (evaluate rt net d) (fun _ => True).
Proof.
  unfold evaluate. eapply frames_bind; [apply frames_run_predict|]. intros pred Hp.
  eapply frames_bind; [apply frames_read|]. intros p _.
  eapply frames_bind; [apply frames_read|]. intros y _.
  eapply frames_bind; [apply frames_lift|]. intros acc _.
  eapply frames_bind; [apply frames_dispose; exact Hp|]. intros _ _.
  now apply frames_ret.
Qed.

Lemma frames_test_merged n l merged : frames n (test_merged rt l merged) (fun _ => True).
Proof.
  unfold test_merged. eapply frames_bind; [apply frames_run_predict|]. intros divPred Hp.
  eapply frames_bind; [apply frames_read|]. intros p _.
  eapply frames_bind; [apply frames_read|]. intros y _.
  eapply frames_bind.
  { destruct (meanSquaredError rt y p); [|apply frames_throw].
    apply frames_tidy. apply frames_alloc_with. }
  intros divLoss Hl.
  eapply frames_bind; [apply frames_read|]. intros lossT _.
  eapply frames_bind; [apply frames_dispose; exact Hl|]. intros _ _.
  eapply frames_bind; [apply frames_lift|]. intros divAcc _.
  eapply frames_bind; [apply frames_dispose; exact Hp|]. intros _ _.
  now apply frames_ret.
Qed.

(** ** Fusion inside a session *)

Lemma averageWeights_allocated net1 net2 h merged h' :
  averageWeights rt net1 net2 h = (Ok merged, h') -> allocated h' merged.
Proof.
  unfold averageWeights. unfold bind at 1.
  destruct (createNetwork rt h) as [[m0|e] h1] eqn:C; [|discriminate].
  assert (A0 : allocated h1 m0).
  { unfold createNetwork, alloc in C. cbn [bind ret alloc_with next tensors] in C.
    injection C as <- <-. unfold allocated. cbn [weights next].
    repeat constructor; lia. }
  intros R.
  assert (F : frames 0
                (let* averagedWeights :=
                   mapM (fun '(i, w1) =>
                           match getWeights net2 !! i with
                           | None => throw NotATensor
                           | Some w2 => tidy (let* s := add w1 w2 in div s F32.two)
                           end)
                        (imap pair (getWeights net1)) in
                 setWeights m0 averagedWeights ;; ret m0)
                (fun r => r = m0)).
  { eapply frames_bind.
    - apply (frames_mapM 0 _ _ (fun _ => True)). intros [i w1] _.
      destruct (getWeights net2 !! i); [|apply frames_throw].
      apply frames_tidy. eapply frames_bind.
      + unfold add. eapply frames_bind; [apply frames_read|]. intros x _.
        eapply frames_bind; [apply frames_read|]. intros y _.
        destruct (Tensor.add x y); [|apply frames_throw].
        apply frames_alloc_with.
      + intros s _. unfold div. eapply frames_bind; [apply frames_read|].
        intros x _. eapply frames_weaken; [apply frames_alloc_with | auto].
    - intros avg _. eapply frames_bind.
      + apply frames_setWeights. apply Forall_forall. intros; lia.
      + intros _ _. now apply frames_ret. }
  destruct (F h1 (Nat.le_0_l _)) as (Hn & _ & Hr).
  rewrite R in Hn, Hr. cbn [fst snd] in Hn, Hr. specialize (Hr _ eq_refl). subst m0.
  unfold allocated in *. eapply Forall_impl; [exact A0|]. cbn. intros. lia.
Qed.

Lemma fuse_heap l h :
  next h <= next (snd (fuse rt l h))
  /\ (forall id, id < next h ->
        (forall m, staleMerged l = Some m -> id ∉ weights m) ->
        tensors (snd (fuse rt l h)) !! id = tensors h !! id)
  /\ (forall merged, fst (fuse rt l h) = Ok merged -> allocated (snd (fuse rt l h)) merged).
Proof.
  destruct (frames_averageWeights rt (next h) (addNet l) (multNet l) h (le_n _))
    as (Hn & Hk & _).
  destruct (fuse rt l h) as [r h'] eqn:R. cbn [fst snd].
  unfold fuse in R. unfold bind at 1 in R.
  destruct (averageWeights rt (addNet l) (multNet l) h) as [[merged|err] h1] eqn:A;
    cbn [fst snd] in *.
  - apply averageWeights_allocated in A.
    destruct (staleMerged l) as [m|];
      cbn [bind dispose_model dispose_all ret] in R; injection R as <- <-;
      cbn [next tensors].
    + split; [exact Hn|]. split.
      * intros id Hid Hs. rewrite lookup_foldr_delete by (now apply Hs). now apply Hk.
      * intros merged' [= <-]. exact A.
    + split; [exact Hn|]. split.
      * intros id Hid _. now apply Hk.
      * intros merged' [= <-]. exact A.
  - injection R as <- <-. split; [exact Hn|]. split; [|intros ? [=]].
    intros id Hid _. now apply Hk.
Qed.

(** ** The accuracy that an evaluation records *)

Lemma run_predict_inv net inputs h pred h' :
  run_predict rt net inputs h = (Ok pred, h') ->
  exists ws x p,
    tensors h !! inputs = Some x /\ predict rt ws x = Some p
    /\ pred = next h /\ h' = mkHeap (<[next h := p]> (tensors h)) (S (next h)).
Proof.
  unfold run_predict. unfold bind at 1.
  pose proof (mapM_read_heap (weights net) h) as Hh.
  destruct (mapM read (weights net) h) as [[ws|err] h1]; cbn in Hh; subst h1; [|discriminate].
  unfold bind at 1, read at 1.
  destruct (tensors h !! inputs) as [x|]; [|discriminate].
  destruct (predict rt ws x) as [p|] eqn:P; [|discriminate].
  cbn [alloc alloc_with]. intros [= <- <-]. exists ws, x, p. auto.
Qed.

Lemma tidy_alloc x h :
  tidy (alloc x) h = (Ok (next h), mkHeap (<[next h := x]> (tensors h)) (S (next h))).
Proof.
  unfold tidy, alloc, alloc_with. cbn [fst snd next tensors].
  replace (S (next h) - next h) with 1 by lia. cbn [seq].
  rewrite filter_cons_False by (intros H; now apply H). rewrite filter_nil.
  reflexivity.
Qed.

Lemma evaluate_fraction net d data n h acc h' :
  predicts_columns rt ->
  holds h d data -> snd d < next h ->
  hd 0 (Tensor.shape (Dataset.inputs data)) = n ->
  AccuracySpec.column n (Dataset.outputs data) -> (Z.of_nat n < 2 ^ 31)%Z ->
  evaluate rt net d h = (Ok acc, h') -> fraction_of n acc.
Proof.
  intros Hp [Hi Ho] Hlt Hn Hc H31.
  unfold evaluate. unfold bind at 1.
  destruct (run_predict rt net (fst d) h) as [[pred|err] h1] eqn:R; [|discriminate].
  apply run_predict_inv in R as (ws & x & p & Hx & P & -> & ->).
  assert (x = Dataset.inputs data) by congruence. subst x.
  apply Hp in P. rewrite Hn in P.
  unfold bind at 1. erewrite read_ok by (cbn [tensors]; apply lookup_insert_eq).
  unfold bind at 1. erewrite read_ok
    by (cbn [tensors]; rewrite lookup_insert_ne by lia; exact Ho).
  rewrite (AccuracyMore.calculateAccuracy_columns n p _ P Hc H31).
  cbn [bind lift dispose ret]. intros [= <- _].
  eexists. split; [|reflexivity].
  pose proof (AccuracyFacts.hits_le (Tensor.data p) (Tensor.data (Dataset.outputs data))) as Hle.
  destruct P as [_ Lp]. lia.
Qed.

Lemma test_merged_fraction l merged data n h divLossVal divAcc h' :
  predicts_columns rt ->
  holds h (divData l) data -> snd (divData l) < next h ->
  hd 0 (Tensor.shape (Dataset.inputs data)) = n ->
  AccuracySpec.column n (Dataset.outputs data) -> (Z.of_nat n < 2 ^ 31)%Z ->
  test_merged rt l merged h = (Ok (divLossVal, divAcc), h') ->
  fraction_of n divAcc.
Proof.
  intros Hp [Hi Ho] Hlt Hn Hc H31.
  unfold test_merged. unfold bind at 1.
  destruct (run_predict rt merged (fst (divData l)) h) as [[pred|err] h1] eqn:R; [|discriminate].
  apply run_predict_inv in R as (ws & x & p & Hx & P & -> & ->).
  assert (x = Dataset.inputs data) by congruence. subst x.
  apply Hp in P. rewrite Hn in P.
  unfold bind at 1. erewrite read_ok by (cbn [tensors]; apply lookup_insert_eq).
  unfold bind at 1. erewrite read_ok
    by (cbn [tensors]; rewrite lookup_insert_ne by lia; exact Ho).
  unfold bind at 1.
  destruct (meanSquaredError rt _ p) as [v|]; [|discriminate].
  rewrite tidy_alloc. cbn [next tensors].
  unfold bind at 1. erewrite read_ok by (cbn [tensors]; apply lookup_insert_eq).
  unfold bind at 1. cbn [dispose].
  unfold bind at 1.
  rewrite (AccuracyMore.calculateAccuracy_columns n p _ P Hc H31).
  cbn [bind lift dispose ret]. intros [= _ <- _].
  eexists. split; [|reflexivity].
  pose proof (AccuracyFacts.hits_le (Tensor.data p) (Tensor.data (Dataset.outputs data))) as Hle.
  destruct P as [_ Lp]. lia.
Qed.
End WithRuntime.
End EngineFacts.

(* ===================================================================== *)
(** * The engine and the histories over whole sessions *)
(* ===================================================================== *)

Module SessionFacts.
Import TF App FusionSpec FusionFacts SessionSpec EngineFacts TrainerFacts.

Lemma datasets_live_frame n0 h h' :
  (forall id, 8 + n0 <= id < 14 + n0 -> tensors h' !! id = tensors h !! id) ->
  datasets_live n0 h -> datasets_live n0 h'.
Proof.
  intros Hf ((A1 & A2) & (M1 & M2) & (D1 & D2)). unfold datasets_live, holds in *.
  cbn [fst snd] in *. rewrite !Hf by lia. auto.
Qed.

Lemma allocated_mono h h' net :
  next h <= next h' -> allocated h net -> allocated h' net.
Proof.
  intros Hn Ha. unfold allocated in *. eapply Forall_impl; [exact Ha|]. cbn. intros. lia.
Qed.

Section WithRuntime.
Variable rt : Runtime.

(** One half of an epoch: fitting a network, then evaluating it. *)
Lemma half_epoch_heap e net d h :
  next h <= next (snd ((let* loss := run_fit rt e net d in
                        let* acc := evaluate rt net d in
                        ret (loss, acc)) h))
  /\ forall id, id < next h -> id ∉ weights net ->
       tensors (snd ((let* loss := run_fit rt e net d in
                      let* acc := evaluate rt net d in
                      ret (loss, acc)) h)) !! id
       = tensors h !! id.
Proof.
  unfold bind at 1 3.
  pose proof (run_fit_next rt e net d h) as Hn.
  pose proof (run_fit_other rt e net d h) as Ho.
  destruct (run_fit rt e net d h) as [[loss|err] h1]; cbn [fst snd] in *.
  - destruct (frames_evaluate rt (next h1) net d h1 (le_n _)) as (En & Ek & _).
    unfold bind.
    destruct (evaluate rt net d h1) as [[acc|err] h2]; cbn [fst snd ret] in *.
    + split; [lia|]. intros id Hid Hnot. rewrite Ek by lia. now apply Ho.
    + split; [lia|]. intros id Hid Hnot. rewrite Ek by lia. now apply Ho.
  - split; [lia|]. intros id _ Hnot. now apply Ho.
Qed.

Lemma enter_epoch_next s h l e : next (engine (enter_epoch s h l e)) = next h.
Proof. unfold enter_epoch. destruct (e <? epochs); reflexivity. Qed.

Lemma resume_next c : next (engine c) <= next (engine (resume rt c)).
Proof.
  unfold resume. destruct c as [s h t]. cbn [app engine task].
  destruct t as [|l e|l e|l e|err]; cbn [engine]; try lia.
  - pose proof (half_epoch_heap e (addNet l) (addData l) h) as [Hn _].
    destruct (bind _ _ h) as [[[addLoss addAcc]|err] h1]; exact Hn.
  - pose proof (half_epoch_heap e (multNet l) (multData l) h) as [Hn _].
    destruct (bind _ _ h) as [[[multLoss multAcc]|err] h1]; cbn [fst snd engine] in *; [|exact Hn].
    pose proof (fuse_heap rt l h1) as (Fn & _ & _).
    destruct (fuse rt l h1) as [[merged|err] h2]; cbn [fst snd engine] in *; [|lia].
    destruct (frames_test_merged rt (next h2) l merged h2 (le_n _)) as (Tn & _ & _).
    destruct (test_merged rt l merged h2) as [[[divLossVal divAcc]|err] h3];
      cbn [fst snd engine] in *; lia.
  - rewrite enter_epoch_next. lia.
Qed.

Lemma session_ids n0 l :
  l = session_locals n0 (staleMerged l) ->
  weights (addNet l) = [n0; 1 + n0; 2 + n0; 3 + n0]
  /\ weights (multNet l) = [4 + n0; 5 + n0; 6 + n0; 7 + n0]
  /\ addData l = (8 + n0, 9 + n0) /\ multData l = (10 + n0, 11 + n0)
  /\ divData l = (12 + n0, 13 + n0).
Proof. intros H. rewrite H. repeat split. Qed.

Ltac not_in :=
  repeat (apply not_elem_of_cons; split; [lia|]); apply not_elem_of_nil.

Lemma datasets_gone_after n0 h :
  datasets_gone n0
    (snd (dispose_all [8 + n0; 9 + n0; 10 + n0; 11 + n0; 12 + n0; 13 + n0] h)).
Proof.
  intros id Hid. cbn [dispose_all snd tensors foldr].
  assert (C : id = 8 + n0 \/ id = 9 + n0 \/ id = 10 + n0 \/ id = 11 + n0
              \/ id = 12 + n0 \/ id = 13 + n0) by lia.
  destruct C as [-> | [-> | [-> | [-> | [-> | ->]]]]];
    repeat first [ apply lookup_delete_eq | rewrite lookup_delete_ne by lia ].
Qed.

Lemma in_session_resume n0 c : in_session n0 c -> in_session n0 (resume rt c).
Proof.
  unfold resume. destruct c as [s h t]. cbn [app engine task].
  destruct t as [|l e|l e|l e|err]; intros Hs; try exact Hs.
  - unfold in_session in Hs. cbn [task engine] in Hs. destruct Hs as (Hl & Hst & Hn & Hd).
    destruct (session_ids _ _ Hl) as (Wa & Wm & Da & Dm & Dd).
    pose proof (half_epoch_heap e (addNet l) (addData l) h) as [Gn Gk].
    assert (Hd' : datasets_live n0
                    (snd ((let* loss := run_fit rt e (addNet l) (addData l) in
                           let* acc := evaluate rt (addNet l) (addData l) in
                           ret (loss, acc)) h))).
    { eapply datasets_live_frame; [|exact Hd]. intros id Hid. apply Gk; [lia|].
      rewrite Wa. not_in. }
    destruct (bind _ _ h) as [[[addLoss addAcc]|err] h1]; cbn [fst snd] in *;
      unfold in_session; cbn [task engine]; [|exact Hd'].
    split; [exact Hl|]. split; [exact Hst|]. split; [lia | exact Hd'].
  - unfold in_session in Hs. cbn [task engine] in Hs. destruct Hs as (Hl & Hst & Hn & Hd).
    destruct (session_ids _ _ Hl) as (Wa & Wm & Da & Dm & Dd).
    pose proof (half_epoch_heap e (multNet l) (multData l) h) as [Gn Gk].
    assert (Hd1 : datasets_live n0
                    (snd ((let* loss := run_fit rt e (multNet l) (multData l) in
                           let* acc := evaluate rt (multNet l) (multData l) in
                           ret (loss, acc)) h))).
    { eapply datasets_live_frame; [|exact Hd]. intros id Hid. apply Gk; [lia|].
      rewrite Wm. not_in. }
    destruct (bind _ _ h) as [[[multLoss multAcc]|err] h1]; cbn [fst snd] in *;
      [|unfold in_session; cbn [task engine]; exact Hd1].
    pose proof (fuse_heap rt l h1) as (Fn & Fk & _).
    assert (Hd2 : datasets_live n0 (snd (fuse rt l h1))).
    { eapply datasets_live_frame; [|exact Hd1]. intros id Hid. apply Fk; [lia|].
      intros m Hm Hin. specialize (Hst m Hm). rewrite Forall_forall in Hst.
      specialize (Hst _ Hin). lia. }
    destruct (fuse rt l h1) as [[merged|err] h2]; cbn [fst snd] in *;
      [|unfold in_session; cbn [task engine]; exact Hd2].
    destruct (frames_test_merged rt (next h2) l merged h2 (le_n _)) as (Tn & Tk & _).
    assert (Hd3 : datasets_live n0 (snd (test_merged rt l merged h2))).
    { eapply datasets_live_frame; [|exact Hd2]. intros id Hid. apply Tk. lia. }
    destruct (test_merged rt l merged h2) as [[[divLossVal divAcc]|err] h3];
      cbn [fst snd] in *; unfold in_session; cbn [task engine]; [|exact Hd3].
    split; [exact Hl|]. split; [exact Hst|]. split; [lia | exact Hd3].
  - unfold in_session in Hs. cbn [task engine] in Hs. destruct Hs as (Hl & Hst & Hn & Hd).
    destruct (session_ids _ _ Hl) as (Wa & Wm & Da & Dm & Dd).
    unfold enter_epoch. destruct (e + 1 <? epochs).
    + unfold in_session. cbn [task engine]. auto.
    + unfold in_session. cbn [task engine]. rewrite Da, Dm, Dd. cbn [fst snd].
      apply datasets_gone_after.
Qed.

Lemma in_session_run n0 k : forall c,
  in_session n0 c -> in_session n0 (run rt c (repeat Resume k)).
Proof.
  induction k as [|k IH]; intros c Hc; [exact Hc|].
  cbn [repeat]. rewrite run_cons. apply IH. cbn [step]. now apply in_session_resume.
Qed.

(** A click starts the session numbered by the next handle of the
    engine. *)
Lemma in_session_trainNetworks c :
  isTraining (app c) = false ->
  (forall m, mergedNet (app c) = Some m -> allocated (engine c) m) ->
  in_session (next (engine c)) (trainNetworks rt c)
  /\ pending (task (trainNetworks rt c))
     = Some (session_locals (next (engine c)) (mergedNet (app c)))
  /\ additionNet (app (trainNetworks rt c))
     = Some (addNet (session_locals (next (engine c)) (mergedNet (app c))))
  /\ multiplicationNet (app (trainNetworks rt c))
     = Some (multNet (session_locals (next (engine c)) (mergedNet (app c))))
  /\ mergedNet (app (trainNetworks rt c)) = mergedNet (app c)
  /\ next (engine (trainNetworks rt c)) = 14 + next (engine c).
Proof.
  intros Ht Hm. unfold trainNetworks. rewrite Ht.
  unfold createNetwork, alloc_dataset, alloc.
  cbn [bind ret alloc_with next tensors].
  unfold enter_epoch. change (0 <? epochs) with true. cbv iota.
  cbn [task app engine pending next].
  split; [|repeat split].
  unfold in_session. cbn [task engine staleMerged next tensors].
  split; [reflexivity|]. split; [exact Hm|]. split; [lia|].
  unfold datasets_live, holds. cbn [fst snd tensors].
  repeat split;
    repeat first [ apply lookup_insert_eq | rewrite lookup_insert_ne by lia ].
Qed.

(** ** Every reachable configuration is sound *)

Lemma resume_state c :
  additionNet (app (resume rt c)) = additionNet (app c)
  /\ multiplicationNet (app (resume rt c)) = multiplicationNet (app c)
  /\ (mergedNet (app (resume rt c)) = mergedNet (app c)
      \/ exists merged, mergedNet (app (resume rt c)) = Some merged
                        /\ allocated (engine (resume rt c)) merged)
  /\ (forall l, pending (task (resume rt c)) = Some l -> pending (task c) = Some l).
Proof.
  unfold resume. destruct c as [s h t]. cbn [app engine task].
  destruct t as [|l e|l e|l e|err]; try (cbn; auto; fail).
  - destruct (bind _ _ h) as [[[addLoss addAcc]|err] h1]; cbn; auto.
    repeat split; auto. intros ? [=].
  - destruct (bind _ _ h) as [[[multLoss multAcc]|err] h1];
      [|cbn; repeat split; auto; intros ? [=]].
    pose proof (fuse_heap rt l h1) as (_ & _ & Fa).
    destruct (fuse rt l h1) as [[merged|err] h2]; cbn [fst snd] in Fa;
      [|cbn; repeat split; auto; intros ? [=]].
    specialize (Fa _ eq_refl).
    destruct (frames_test_merged rt (next h2) l merged h2 (le_n _)) as (Tn & _ & _).
    destruct (test_merged rt l merged h2) as [[[divLossVal divAcc]|err] h3];
      cbn [fst snd] in Tn; cbn; repeat split; auto;
        try (right; exists merged; split; [reflexivity | now apply (allocated_mono h2)]).
    intros ? [=].
  - unfold enter_epoch. destruct (e + 1 <? epochs); cbn; repeat split; auto.
    intros ? [=].
Qed.

Lemma sound_resume c : sound c -> sound (resume rt c).
Proof.
  intros (Ha & Hm & Hg & Hp).
  pose proof (resume_next c) as Hn.
  destruct (resume_state c) as (Sa & Sm & Sg & Sp).
  unfold sound. cbn zeta. rewrite Sa, Sm.
  split; [intros net E; eapply allocated_mono; eauto|].
  split; [intros net E; eapply allocated_mono; eauto|].
  split.
  - intros net E. destruct Sg as [Sg | (merged & Sg & A)].
    + rewrite Sg in E. eapply allocated_mono; eauto.
    + rewrite Sg in E. injection E as <-. exact A.
  - intros l Hl. apply Sp in Hl. destruct (Hp l Hl) as (E1 & E2 & n0 & Hs).
    split; [exact E1|]. split; [exact E2|]. exists n0. now apply in_session_resume.
Qed.

Lemma sound_trainNetworks c : sound c -> sound (trainNetworks rt c).
Proof.
  intros Hs. destruct (isTraining (app c)) eqn:Ht.
  { unfold trainNetworks. now rewrite Ht. }
  destruct Hs as (Ha & Hm & Hg & Hp).
  destruct (in_session_trainNetworks c Ht Hg) as (Is & Pe & Ea & Em & Eg & En).
  unfold sound. cbn zeta. rewrite Ea, Em, Eg, Pe.
  split; [intros net [= <-]; unfold allocated; rewrite En; cbn; repeat constructor; lia|].
  split; [intros net [= <-]; unfold allocated; rewrite En; cbn; repeat constructor; lia|].
  split.
  - intros net E. specialize (Hg _ E). unfold allocated in *. rewrite En.
    eapply Forall_impl; [exact Hg|]. cbn. intros. lia.
  - intros l [= <-]. split; [reflexivity|]. split; [reflexivity|]. eauto.
Qed.

Lemma sound_mount : sound (mount rt).
Proof.
  unfold mount, createNetwork, alloc.
  cbn [bind ret alloc_with next tensors TF.empty].
  unfold sound. cbn [app engine task pending additionNet multiplicationNet mergedNet].
  split; [intros net [= <-]; unfold allocated; cbn; repeat constructor; lia|].
  split; [intros net [= <-]; unfold allocated; cbn; repeat constructor; lia|].
  split; intros ? [=].
Qed.

Lemma sound_run evs : forall c, sound c -> sound (run rt c evs).
Proof.
  induction evs as [|ev evs IH]; intros c Hc; [exact Hc|].
  rewrite run_cons. apply IH. destruct ev; [now apply sound_trainNetworks|].
  now apply sound_resume.
Qed.

(** X8. The six tensors of the datasets of a session are disposed when
    the session completes, and only then: while the activation is
    pending, and for good once it is rejected, they stay in the engine
    as they were created. *)
Theorem datasets_disposed_on_completion_only (evs : list Event) (k : nat) :
  let c := run rt (mount rt) evs in
  isTraining (app c) = false ->
  let n0 := next (engine c) in
  let c' := run rt c (Click :: repeat Resume k) in
  (task c' = Idle -> datasets_gone n0 (engine c'))
  /\ (task c' <> Idle -> datasets_live n0 (engine c')).
Proof.
  cbn zeta. intros Ht. set (c := run rt (mount rt) evs) in *.
  destruct (sound_run evs _ sound_mount) as (_ & _ & Hg & _). fold c in Hg.
  destruct (in_session_trainNetworks c Ht Hg) as (Is & _).
  rewrite run_cons. cbn [step].
  pose proof (in_session_run (next (engine c)) k _ Is) as Hk.
  unfold in_session in Hk.
  destruct (task (run rt (trainNetworks rt c) (repeat Resume k))).
  - split; [intros _; exact Hk | intros H; now destruct H].
  - split; [discriminate | intros _; apply Hk].
  - split; [discriminate | intros _; apply Hk].
  - split; [discriminate | intros _; apply Hk].
  - split; [discriminate | intros _; apply Hk].
Qed.

(** ** The recorded accuracies *)

Lemma half_epoch_fraction e net d data n h loss acc h' :
  predicts_columns rt ->
  holds h d data -> snd d < next h -> fst d ∉ weights net -> snd d ∉ weights net ->
  hd 0 (Tensor.shape (Dataset.inputs data)) = n ->
  AccuracySpec.column n (Dataset.outputs data) -> (Z.of_nat n < 2 ^ 31)%Z ->
  (let* loss := run_fit rt e net d in
   let* acc := evaluate rt net d in
   ret (loss, acc)) h = (Ok (loss, acc), h') ->
  fraction_of n acc.
Proof.
  intros Hp [Hi Ho] Hlt N1 N2 Hn Hc H31. unfold bind at 1.
  pose proof (run_fit_next rt e net d h) as Fn.
  pose proof (run_fit_other rt e net d h) as Fo.
  destruct (run_fit rt e net d h) as [[loss0|err] h1]; cbn [fst snd] in *; [|discriminate].
  unfold bind.
  destruct (evaluate rt net d h1) as [[acc0|err] h2] eqn:E; [|discriminate].
  cbn [ret]. intros [= _ <- _].
  eapply (evaluate_fraction rt net d data n h1); try eassumption.
  - split; rewrite Fo by assumption; assumption.
  - lia.
Qed.

Lemma recorded_snoc n stats st :
  recorded n stats -> fraction_of n (accuracy st) -> recorded n (stats ++ [st]).
Proof. intros H1 H2. apply Forall_app. split; [exact H1|]. now constructor. Qed.

Lemma scores_resume c :
  predicts_columns rt -> sound c -> scores c -> scores (resume rt c).
Proof.
  intros Hp (_ & _ & _ & Hs) (R1 & R2 & R3 & R4).
  unfold resume. destruct c as [s h t]. cbn [app engine task] in *.
  destruct t as [|l e|l e|l e|err]; try (repeat split; assumption).
  - destruct (Hs l eq_refl) as (_ & _ & n0 & Is).
    unfold in_session in Is. cbn [task engine] in Is. destruct Is as (Hl & Hst & Hn & Hd).
    destruct (session_ids _ _ Hl) as (Wa & Wm & Da & Dm & Dd).
    destruct Hd as (Ha & _ & _).
    destruct (bind _ _ h) as [[[addLoss addAcc]|err] h1] eqn:E;
      [|repeat split; assumption].
    unfold scores. cbn. repeat split; try assumption.
    apply recorded_snoc; [exact R1|]. cbn [accuracy].
    eapply (half_epoch_fraction e (addNet l) (addData l) Dataset.generateAdditionData 100 h);
      try exact E; try assumption; try reflexivity.
    + rewrite Da. exact Ha.
    + rewrite Da. cbn. lia.
    + rewrite Wa, Da. cbn [fst]. not_in.
    + rewrite Wa, Da. cbn [snd]. not_in.
    + split; reflexivity.
  - destruct (Hs l eq_refl) as (_ & _ & n0 & Is).
    unfold in_session in Is. cbn [task engine] in Is. destruct Is as (Hl & Hst & Hn & Hd).
    destruct (session_ids _ _ Hl) as (Wa & Wm & Da & Dm & Dd).
    pose proof (half_epoch_heap e (multNet l) (multData l) h) as [Gn Gk].
    destruct (bind _ _ h) as [[[multLoss multAcc]|err] h1] eqn:E;
      [|repeat split; assumption].
    cbn [fst snd] in Gn, Gk.
    assert (F2 : fraction_of 100 multAcc).
    { destruct Hd as (_ & Hm & _).
      eapply (half_epoch_fraction e (multNet l) (multData l)
                Dataset.generateMultiplicationData 100 h);
        try exact E; try assumption; try reflexivity.
      + rewrite Dm. exact Hm.
      + rewrite Dm. cbn. lia.
      + rewrite Wm, Dm. cbn [fst]. not_in.
      + rewrite Wm, Dm. cbn [snd]. not_in.
      + split; reflexivity. }
    pose proof (fuse_heap rt l h1) as (Fn & Fk & _).
    destruct (fuse rt l h1) as [[merged|err] h2]; cbn [fst snd] in Fn, Fk.
    2:{ unfold scores. cbn. repeat split; try assumption. now apply recorded_snoc. }
    destruct (test_merged rt l merged h2) as [[[divLossVal divAcc]|err] h3] eqn:T.
    2:{ unfold scores. cbn. repeat split; try assumption. now apply recorded_snoc. }
    assert (F3 : fraction_of 81 divAcc).
    { eapply (test_merged_fraction rt l merged Dataset.generateDivisionData 81 h2);
        try exact T; try assumption; try reflexivity.
      + destruct Hd as (_ & _ & [D1 D2]). rewrite Dd. unfold holds. cbn [fst snd] in *.
        assert (S1 : forall id, 8 + n0 <= id < 14 + n0 ->
                       tensors h2 !! id = tensors h !! id).
        { intros id Hid. rewrite Fk; [apply Gk; [lia|rewrite Wm; not_in]|lia|].
          intros m Hm Hin. specialize (Hst m Hm). rewrite Forall_forall in Hst.
          specialize (Hst _ Hin). lia. }
        split; rewrite S1 by lia; assumption.
      + rewrite Dd. cbn. lia.
      + split; reflexivity. }
    unfold scores. cbn. repeat split; try assumption.
    + now apply recorded_snoc.
    + now apply recorded_snoc.
    + apply Forall_app. split; [exact R4|]. constructor; [|constructor]. cbn. auto.
  - unfold enter_epoch. destruct (e + 1 <? epochs); repeat split; assumption.
Qed.

Lemma scores_trainNetworks c : scores c -> scores (trainNetworks rt c).
Proof.
  intros Hs. destruct (isTraining (app c)) eqn:Ht.
  { unfold trainNetworks. now rewrite Ht. }
  destruct (ProgressFacts.trainNetworks_starts rt c Ht) as (l & s & h & -> & _ & _ & A & M & G).
  unfold scores, recorded. cbn [app]. rewrite A, M, G. repeat split; constructor.
Qed.

Lemma scores_mount : scores (mount rt).
Proof. unfold scores, recorded. cbn. repeat split; constructor. Qed.

Lemma scores_run evs :
  predicts_columns rt ->
  forall c, sound c -> scores c -> scores (run rt c evs).
Proof.
  intros Hp. induction evs as [|ev evs IH]; intros c Hc Hs; [exact Hs|].
  rewrite run_cons. destruct ev; cbn [step].
  - apply IH; [now apply sound_trainNetworks | now apply scores_trainNetworks].
  - apply IH; [now apply sound_resume | now apply scores_resume].
Qed.

Lemma fraction_in_unit n a :
  0 < n -> (Z.of_nat n < 2 ^ 53)%Z -> fraction_of n a -> Num.in_unit a = true.
Proof.
  intros H0 H53 (k & Hk & ->).
  apply (FloatFacts.div_of_Z_unit (Z.of_nat k) (Z.of_nat n)); lia.
Qed.

(** X9. With an inference that answers one value per record, every
    accuracy in the three histories is the fraction of the 100, 100 and
    81 records that are within tolerance, hence a number in [0,1]; the
    entries of the merged network repeat loss and accuracy as test loss
    and test accuracy. *)
Theorem recorded_accuracies_are_fractions (evs : list Event) :
  predicts_columns rt ->
  let s := app (run rt (mount rt) evs) in
  Forall (fun st => fraction_of 100 (accuracy st) /\ Num.in_unit (accuracy st) = true)
         (additionStats s)
  /\ Forall (fun st => fraction_of 100 (accuracy st) /\ Num.in_unit (accuracy st) = true)
            (multiplicationStats s)
  /\ Forall (fun st => fraction_of 81 (accuracy st) /\ Num.in_unit (accuracy st) = true
                       /\ testLoss st = Some (loss st)
                       /\ testAccuracy st = Some (accuracy st))
            (mergedStats s).
Proof.
  intros Hp. cbn zeta.
  destruct (scores_run evs Hp _ sound_mount scores_mount) as (R1 & R2 & R3 & R4).
  unfold recorded in *. split; [|split].
  - eapply Forall_impl; [exact R1|]. cbn. intros st F. split; [exact F|].
    apply (fraction_in_unit 100); [lia | reflexivity | exact F].
  - eapply Forall_impl; [exact R2|]. cbn. intros st F. split; [exact F|].
    apply (fraction_in_unit 100); [lia | reflexivity | exact F].
  - rewrite Forall_forall in R3, R4 |- *. intros st Hst.
    specialize (R3 _ Hst). specialize (R4 _ Hst). destruct R4 as [T1 T2].
    repeat split; try assumption.
    apply (fraction_in_unit 81); [lia | reflexivity | exact R3].
Qed.

(** ** The networks on the canvas *)

Lemma keeps_trans n0 h1 h2 h3 : keeps n0 h1 h2 -> keeps n0 h2 h3 -> keeps n0 h1 h3.
Proof.
  intros [N1 K1] [N2 K2]. split; [lia|]. intros id x Hid Hx.
  destruct (K1 id x Hid Hx) as (x' & Hx' & S1).
  destruct (K2 id x' Hid Hx') as (x'' & Hx'' & S2).
  exists x''. split; [exact Hx'' | congruence].
Qed.

Lemma keeps_frame n0 h h' :
  next h <= next h' ->
  (forall id, n0 <= id < 8 + n0 -> tensors h' !! id = tensors h !! id) ->
  keeps n0 h h'.
Proof.
  intros Hn Hk. split; [exact Hn|]. intros id x Hid Hx. exists x.
  rewrite Hk by exact Hid. auto.
Qed.

Lemma half_epoch_keeps n0 e net d h :
  fit_keeps_shapes rt -> 8 + n0 <= next h ->
  keeps n0 h (snd ((let* loss := run_fit rt e net d in
                    let* acc := evaluate rt net d in
                    ret (loss, acc)) h)).
Proof.
  intros Hfit Hn. unfold bind at 1.
  pose proof (run_fit_next rt e net d h) as Fn.
  pose proof (fun id x => run_fit_shapes rt e net d h id x Hfit) as Fs.
  destruct (run_fit rt e net d h) as [[loss|err] h1]; cbn [fst snd] in *.
  - apply keeps_trans with h1.
    + split; [lia|]. intros id x _ Hx. now apply Fs.
    + destruct (frames_evaluate rt (next h1) net d h1 (le_n _)) as (En & Ek & _).
      unfold bind.
      destruct (evaluate rt net d h1) as [[acc|err] h2]; cbn [fst snd ret] in *;
        (apply keeps_frame; [lia|]; intros id Hid; apply Ek; lia).
  - split; [lia|]. intros id x _ Hx. now apply Fs.
Qed.

Lemma shaped_keeps n0 h h' net :
  keeps n0 h h' -> Forall (fun id => n0 <= id < 8 + n0) (weights net) ->
  shaped h net -> shaped h' net.
Proof.
  intros [Hn Hk] Hids Hs. unfold shaped in *.
  revert Hids. induction Hs as [|id s ids ss (Hlt & x & Hx & Hsx) _ IH]; intros Hids;
    [constructor|].
  apply Forall_cons in Hids as [Hid Hids]. constructor; [|now apply IH].
  split; [lia|]. destruct (Hk id x Hid Hx) as (x' & Hx' & S'). exists x'. split; [exact Hx'|].
  congruence.
Qed.

Lemma resume_keeps n0 c :
  fit_keeps_shapes rt -> in_session n0 c -> pending (task c) <> None ->
  keeps n0 (engine c) (engine (resume rt c)).
Proof.
  intros Hfit Is Hp. unfold resume. destruct c as [s h t]. cbn [app engine task] in *.
  destruct t as [|l e|l e|l e|err]; try (now destruct Hp);
    unfold in_session in Is; cbn [task engine] in Is; destruct Is as (Hl & Hst & Hn & Hd);
    destruct (session_ids _ _ Hl) as (Wa & Wm & Da & Dm & Dd).
  - pose proof (half_epoch_keeps n0 e (addNet l) (addData l) h Hfit ltac:(lia)) as K.
    destruct (bind _ _ h) as [[[addLoss addAcc]|err] h1]; exact K.
  - pose proof (half_epoch_keeps n0 e (multNet l) (multData l) h Hfit ltac:(lia)) as K.
    destruct (bind _ _ h) as [[[multLoss multAcc]|err] h1]; cbn [fst snd engine] in *;
      [|exact K].
    pose proof (fuse_heap rt l h1) as (Fn & Fk & _).
    assert (K2 : keeps n0 h (snd (fuse rt l h1))).
    { apply keeps_trans with h1; [exact K|]. apply keeps_frame; [exact Fn|].
      intros id Hid. apply Fk; [destruct K; lia|].
      intros m Hm Hin. specialize (Hst m Hm). rewrite Forall_forall in Hst.
      specialize (Hst _ Hin). lia. }
    destruct (fuse rt l h1) as [[merged|err] h2]; cbn [fst snd engine] in *; [|exact K2].
    destruct (frames_test_merged rt (next h2) l merged h2 (le_n _)) as (Tn & Tk & _).
    assert (K3 : keeps n0 h (snd (test_merged rt l merged h2))).
    { apply keeps_trans with h2; [exact K2|]. apply keeps_frame; [exact Tn|].
      intros id Hid. apply Tk. destruct K2. lia. }
    destruct (test_merged rt l merged h2) as [[[divLossVal divAcc]|err] h3];
      cbn [fst snd engine] in *; exact K3.
  - unfold enter_epoch. destruct (e + 1 <? epochs); cbn [engine].
    + apply keeps_frame; [lia | reflexivity].
    + apply keeps_frame; [cbn; lia|]. intros id Hid.
      cbn [dispose_all snd tensors]. apply lookup_foldr_delete.
      rewrite Da, Dm, Dd. cbn [fst snd]. not_in.
Qed.

Lemma shaped_resume c :
  fit_keeps_shapes rt -> sound c -> shaped_nets c -> shaped_nets (resume rt c).
Proof.
  intros Hfit (_ & _ & _ & Hp) (a & m & Ea & Em & Sa & Sm).
  destruct (resume_state c) as (Ra & Rm & _ & _).
  exists a, m. rewrite Ra, Rm. split; [exact Ea|]. split; [exact Em|].
  destruct (pending (task c)) as [l|] eqn:P.
  - destruct (Hp l eq_refl) as (E1 & E2 & n0 & Is).
    assert (a = addNet l) by congruence. assert (m = multNet l) by congruence. subst a m.
    pose proof (resume_keeps n0 c Hfit Is ltac:(congruence)) as K.
    assert (Hl : l = session_locals n0 (staleMerged l)).
    { unfold in_session in Is. destruct (task c); try discriminate;
        injection P as ->; apply Is. }
    destruct (session_ids _ _ Hl) as (Wa & Wm & _).
    split; (eapply shaped_keeps; [exact K | | assumption]).
    + rewrite Wa. repeat constructor; lia.
    + rewrite Wm. repeat constructor; lia.
  - assert (resume rt c = c) as ->; [|auto].
    unfold resume. destruct c as [s h t]. cbn [task] in *.
    destruct t; try discriminate; reflexivity.
Qed.

Lemma shaped_trainNetworks c : shaped_nets c -> shaped_nets (trainNetworks rt c).
Proof.
  intros Hs. destruct (isTraining (app c)) eqn:Ht.
  { unfold trainNetworks. now rewrite Ht. }
  unfold trainNetworks. rewrite Ht.
  unfold createNetwork, alloc_dataset, alloc.
  cbn [bind ret alloc_with next tensors].
  unfold enter_epoch. change (0 <? epochs) with true. cbv iota.
  unfold shaped_nets. cbn [app engine additionNet multiplicationNet setCurrentEpoch].
  do 2 eexists. split; [reflexivity|]. split; [reflexivity|].
  unfold shaped, architecture. cbn [weights next tensors].
  split; repeat (apply List.Forall2_cons; [split; [lia|]; eexists; split;
                   [repeat first [ apply lookup_insert_eq | rewrite lookup_insert_ne by lia ]
                   | reflexivity] |]); apply List.Forall2_nil.
Qed.

Lemma shaped_mount : shaped_nets (mount rt).
Proof.
  unfold mount, createNetwork, alloc.
  cbn [bind ret alloc_with next tensors TF.empty].
  unfold shaped_nets. cbn [app engine additionNet multiplicationNet].
  do 2 eexists. split; [reflexivity|]. split; [reflexivity|].
  unfold shaped, architecture. cbn [weights next tensors].
  split; repeat (apply List.Forall2_cons; [split; [lia|]; eexists; split;
                   [repeat first [ apply lookup_insert_eq | rewrite lookup_insert_ne by lia ]
                   | reflexivity] |]); apply List.Forall2_nil.
Qed.

Lemma shaped_run evs :
  fit_keeps_shapes rt ->
  forall c, sound c -> shaped_nets c -> shaped_nets (run rt c evs).
Proof.
  intros Hfit. induction evs as [|ev evs IH]; intros c Hc Hs; [exact Hs|].
  rewrite run_cons. destruct ev; cbn [step].
  - apply IH; [now apply sound_trainNetworks | now apply shaped_trainNetworks].
  - apply IH; [now apply sound_resume | now apply shaped_resume].
Qed.

Lemma shaped_renders h net : shaped h net -> renders (Canvas.draw h (Some net)).
Proof.
  unfold shaped, architecture. intros Hs.
  destruct (weights net) as [|a1 [|a2 [|a3 [|a4 [|a5 ws]]]]] eqn:W;
    try (exfalso; repeat match goal with
                         | H : Forall2 _ _ _ |- _ => inversion H; clear H; subst
                         end; fail).
  repeat match goal with
         | H : Forall2 _ (_ :: _) _ |- _ => inversion H; clear H; subst
         end.
  repeat match goal with
         | H : _ /\ exists _, _ |- _ => destruct H as (_ & ? & ? & ?)
         end.
  unfold Canvas.draw, getWeights. rewrite W.
  erewrite mapM_read_ok by (repeat constructor; eassumption).
  match goal with
  | |- context [Viz.draw ?l] =>
      edestruct (DrawFacts.draw_pairs_architecture l)
        as (l1 & l2 & _ & _ & E & L1 & L2);
        [reflexivity | reflexivity | eassumption | eassumption |]
  end.
  rewrite E. exists l1, l2. auto.
Qed.

(** X10. With an optimiser that returns weights of the shapes it was
    given, the panels of the two networks that are trained never show
    the placeholder nor the error text: whatever the user and the
    runtime do, both networks are there, none of their tensors is
    disposed, and each frame shows at most 10 and 5 connections. *)
Theorem training_networks_always_render (evs : list Event) :
  fit_keeps_shapes rt ->
  let c := run rt (mount rt) evs in
  renders (Canvas.draw (engine c) (additionNet (app c)))
  /\ renders (Canvas.draw (engine c) (multiplicationNet (app c))).
Proof.
  intros Hfit. cbn zeta.
  destruct (shaped_run evs Hfit _ sound_mount shaped_mount) as (a & m & -> & -> & Sa & Sm).
  split; now apply shaped_renders.
Qed.
End WithRuntime.
End SessionFacts.

(* ===================================================================== *)
(** * More about the fusion *)
(* ===================================================================== *)

Module FusionMore.
Import TF App FusionSpec FusionFacts.

Lemma add_comm32 x y : F32.add x y = F32.add y x.
Proof.
  unfold F32.add, SFadd.
  destruct x as [sx|sx| |sx mx ex], y as [sy|sy| |sy my ey]; try reflexivity.
  - destruct sx, sy; reflexivity.
  - destruct sx, sy; reflexivity.
  - rewrite (Z.min_comm ey ex). f_equal. apply Z.add_comm.
Qed.

Lemma zip_with_add_comm xs : forall ys,
  zip_with F32.add xs ys = zip_with F32.add ys xs.
Proof.
  induction xs as [|x xs IH]; intros [|y ys]; cbn; try reflexivity.
  now rewrite add_comm32, IH.
Qed.

Lemma average_comm x y : Tensor.shape x = Tensor.shape y -> average x y = average y x.
Proof. intros Hs. unfold average. now rewrite Hs, zip_with_add_comm. Qed.




Ltac heap_at :=
  cbn [tensors next];
  repeat first [ rewrite lookup_delete_ne by lia | rewrite lookup_insert_ne by lia ];
  try rewrite lookup_insert_eq; try eassumption; try reflexivity.

Section WithRuntime.
Variable rt : Runtime.

(** The engine after a fusion of two networks of the fixed
    architecture: the four variables of the new network hold the
    averages, the four sums are disposed, the four averaged tensors are
    still there. *)
Lemma averageWeights_result (h : heap) (net1 net2 : Sequential) :
  has_architecture h net1 -> has_architecture h net2 ->
  exists x1 x2 x3 x4 y1 y2 y3 y4 m,
    params h net1 = [Some x1; Some x2; Some x3; Some x4]
    /\ params h net2 = [Some y1; Some y2; Some y3; Some y4]
    /\ Forall2 (fun x y => Tensor.shape x = Tensor.shape y) [x1; x2; x3; x4] [y1; y2; y3; y4]
    /\ averageWeights rt net1 net2 h
       = (Ok (mkSequential [next h; 1 + next h; 2 + next h; 3 + next h]),
          mkHeap m (12 + next h))
    /\ (forall id, id < next h -> m !! id = tensors h !! id)
    /\ map (fun k => m !! (k + next h)) (seq 0 12)
       = [Some (average x1 y1); Some (average x2 y2); Some (average x3 y3);
          Some (average x4 y4);
          None; Some (average x1 y1); None; Some (average x2 y2);
          None; Some (average x3 y3); None; Some (average x4 y4)].
Proof.
  intros H1 H2.
  destruct (architecture_inv _ _ H1)
    as (a1 & a2 & a3 & a4 & x1 & x2 & x3 & x4 & W1 & A1 & A2 & A3 & A4).
  destruct (architecture_inv _ _ H2)
    as (b1 & b2 & b3 & b4 & y1 & y2 & y3 & y4 & W2 & B1 & B2 & B3 & B4).
  destruct A1 as (A1 & SA1 & WA1 & LA1), A2 as (A2 & SA2 & WA2 & LA2),
           A3 as (A3 & SA3 & WA3 & LA3), A4 as (A4 & SA4 & WA4 & LA4).
  destruct B1 as (B1 & SB1 & WB1 & LB1), B2 as (B2 & SB2 & WB2 & LB2),
           B3 as (B3 & SB3 & WB3 & LB3), B4 as (B4 & SB4 & WB4 & LB4).
  exists x1, x2, x3, x4, y1, y2, y3, y4.
  unfold params. rewrite W1, W2. cbn [map]. rewrite A1, A2, A3, A4, B1, B2, B3, B4.
  unfold averageWeights, getWeights. rewrite W1, W2.
  unfold createNetwork.
  unfold bind at 1. cbn [alloc alloc_with bind ret next tensors].
  cbn [imap mapM lookup list_lookup compose].
  set (n := next h) in *.
  set (m1 := <[S (S (S n)):=zeros [1]]> _).
  erewrite bind_ok; cycle 1.
  { erewrite bind_ok; cycle 1.
    { apply average_step with (x := x1) (y := y1);
        [subst m1; heap_at.. | congruence]. }
    cbn [next tensors].
    erewrite bind_ok; cycle 1.
    { erewrite bind_ok; cycle 1.
      { apply average_step with (x := x2) (y := y2);
          [subst m1; heap_at.. | congruence]. }
      cbn [next tensors].
      erewrite bind_ok; cycle 1.
      { erewrite bind_ok; cycle 1.
        { apply average_step with (x := x3) (y := y3);
            [subst m1; heap_at.. | congruence]. }
        cbn [next tensors].
        erewrite bind_ok; cycle 1.
        { erewrite bind_ok; cycle 1.
          { apply average_step with (x := x4) (y := y4);
              [subst m1; heap_at.. | congruence]. }
          cbn [next tensors]. reflexivity. }
        reflexivity. }
      reflexivity. }
    reflexivity. }
  set (m5 := delete _ _).
  set (hh := mkHeap m5 _).
  assert (R1 : m5 !! S (S (S (S (S n)))) = Some (average x1 y1)) by (subst m5 m1; heap_at).
  assert (R2 : m5 !! S (S (S (S (S (S (S n)))))) = Some (average x2 y2))
    by (subst m5 m1; heap_at).
  assert (R3 : m5 !! S (S (S (S (S (S (S (S (S n)))))))) = Some (average x3 y3))
    by (subst m5 m1; heap_at).
  assert (R4 : m5 !! S (S (S (S (S (S (S (S (S (S (S n)))))))))) = Some (average x4 y4))
    by (subst m5 m1; heap_at).
  assert (V1 : m5 !! n = Some (random_tensor rt [2; 16] n)) by (subst m5 m1; heap_at).
  assert (V2 : m5 !! S n = Some (zeros [16])) by (subst m5 m1; heap_at).
  assert (V3 : m5 !! S (S n) = Some (random_tensor rt [16; 1] (S (S n))))
    by (subst m5 m1; heap_at).
  assert (V4 : m5 !! S (S (S n)) = Some (zeros [1])) by (subst m5 m1; heap_at).
  assert (D1 : m5 !! S (S (S (S n))) = None).
  { subst m5 m1. cbn [tensors next].
    repeat first [ apply lookup_delete_eq | rewrite lookup_delete_ne by lia
                 | rewrite lookup_insert_ne by lia ]. }
  assert (D2 : m5 !! S (S (S (S (S (S n))))) = None).
  { subst m5 m1. cbn [tensors next].
    repeat first [ apply lookup_delete_eq | rewrite lookup_delete_ne by lia
                 | rewrite lookup_insert_ne by lia ]. }
  assert (D3 : m5 !! S (S (S (S (S (S (S (S n))))))) = None).
  { subst m5 m1. cbn [tensors next].
    repeat first [ apply lookup_delete_eq | rewrite lookup_delete_ne by lia
                 | rewrite lookup_insert_ne by lia ]. }
  assert (D4 : m5 !! S (S (S (S (S (S (S (S (S (S n))))))))) = None).
  { subst m5 m1. cbn [tensors next].
    repeat first [ apply lookup_delete_eq | rewrite lookup_delete_ne by lia
                 | rewrite lookup_insert_ne by lia ]. }
  assert (Old : forall id, id < n -> m5 !! id = tensors h !! id).
  { intros id Hid. subst m5 m1. cbn [tensors next].
    repeat first [ rewrite lookup_delete_ne by lia | rewrite lookup_insert_ne by lia ].
    reflexivity. }
  clearbody m5. clear m1.
  unfold setWeights. cbn [weights length Nat.eqb negb].
  erewrite bind_ok; cycle 1.
  { erewrite bind_ok; cycle 1.
    { apply mapM_read_ok. repeat constructor; subst hh; cbn [tensors]; eassumption. }
    cbn [zip zip_with mapM].
    erewrite bind_ok; cycle 1.
    { erewrite bind_ok; cycle 1.
      { eapply assign_ok; [subst hh; heap_at | rewrite average_shape, SA1; reflexivity]. }
      erewrite bind_ok; cycle 1.
      { erewrite bind_ok; cycle 1.
        { eapply assign_ok; [subst hh; heap_at | rewrite average_shape, SA2; reflexivity]. }
        erewrite bind_ok; cycle 1.
        { erewrite bind_ok; cycle 1.
          { eapply assign_ok; [subst hh; heap_at | rewrite average_shape, SA3; reflexivity]. }
          erewrite bind_ok; cycle 1.
          { erewrite bind_ok; cycle 1.
            { eapply assign_ok; [subst hh; heap_at | rewrite average_shape, SA4; reflexivity]. }
            reflexivity. }
          reflexivity. }
        reflexivity. }
      reflexivity. }
    reflexivity. }
  cbn [ret next tensors]. subst hh. cbn [next tensors].
  eexists. split; [reflexivity|]. split; [reflexivity|].
  split; [repeat constructor; congruence|].
  split; [reflexivity|]. split.
  - intros id Hid. repeat rewrite lookup_insert_ne by lia. now apply Old.
  - cbn [seq map Nat.add].
    repeat (apply (f_equal2 cons);
            [repeat first [ apply lookup_insert_eq | rewrite lookup_insert_ne by lia ];
             assumption |]).
    reflexivity.
Qed.

(** ** When the fusion throws *)

Lemma mapM_length {A B} (f : A -> M B) l : forall h bs h',
  mapM f l h = (Ok bs, h') -> length bs = length l.
Proof.
  induction l as [|a l IH]; intros h bs h'; cbn [mapM].
  - intros [= <- _]. reflexivity.
  - unfold bind at 1. destruct (f a h) as [[b|e] h1]; [|discriminate].
    unfold bind at 1. destruct (mapM f l h1) as [[bs0|e] h2] eqn:E; [|discriminate].
    intros [= <- _]. cbn. f_equal. eapply IH. exact E.
Qed.

Lemma mapM_throws {A B} (f : A -> M B) l a e :
  a ∈ l -> (forall h, f a h = (Throw e, h)) ->
  forall h bs h', mapM f l h <> (Ok bs, h').
Proof.
  intros Ha Hf. induction l as [|a0 l IH]; [now apply elem_of_nil in Ha|].
  intros h bs h'. cbn [mapM]. unfold bind at 1.
  apply elem_of_cons in Ha as [<-|Ha].
  - rewrite Hf. discriminate.
  - destruct (f a0 h) as [[b|e0] h1]; [|discriminate].
    unfold bind at 1. destruct (mapM f l h1) as [[bs0|e0] h2] eqn:E; [|discriminate].
    exfalso. eapply IH; eauto.
Qed.

Lemma assign_live var x h id :
  tensors h !! id <> None -> tensors (snd (assign var x h)) !! id <> None.
Proof.
  intros Hl. unfold assign, bind, read.
  destruct (tensors h !! var) as [old|]; [|exact Hl].
  destruct (Tensor.shape_eqb _ _); [|exact Hl].
  cbn [snd tensors]. destruct (decide (id = var)) as [->|Hne].
  - rewrite lookup_insert_eq. discriminate.
  - now rewrite lookup_insert_ne by congruence.
Qed.

Lemma mapM_assign_live l id : forall h,
  tensors h !! id <> None ->
  tensors (snd (mapM (fun '(var, x) => assign var x) l h)) !! id <> None.
Proof.
  induction l as [|[var x] l IH]; intros h Hl; [exact Hl|].
  cbn [mapM]. unfold bind at 1.
  pose proof (assign_live var x h id Hl) as H1.
  destruct (assign var x h) as [[u|e] h1]; cbn [snd] in *; [|exact H1].
  unfold bind. specialize (IH h1 H1).
  destruct (mapM _ l h1) as [[us|e] h2]; cbn [snd ret] in *; exact IH.
Qed.

Lemma setWeights_live net ws h id :
  tensors h !! id <> None -> tensors (snd (setWeights net ws h)) !! id <> None.
Proof.
  intros Hl. unfold setWeights. destruct (negb _); [exact Hl|].
  unfold bind at 1.
  pose proof (EngineFacts.mapM_read_heap ws h) as R.
  destruct (mapM read ws h) as [[values|e] h1]; cbn [snd] in R; subst h1; [|exact Hl].
  unfold bind. pose proof (mapM_assign_live (zip (weights net) values) id h Hl) as H1.
  destruct (mapM _ (zip (weights net) values) h) as [[us|e] h2]; exact H1.
Qed.

Lemma frames_averaging n (weights2 : list nat) (l : list (nat * nat)) :
  frames n
    (mapM (fun '(i, w1) =>
             match weights2 !! i with
             | None => throw NotATensor
             | Some w2 => tidy (let* s := add w1 w2 in div s F32.two)
             end) l)
    (fun _ => True).
Proof.
  eapply frames_weaken; [|auto].
  apply (frames_mapM n _ _ (fun _ => True)). intros [i w1] _.
  destruct (weights2 !! i); [|apply frames_throw].
  apply frames_tidy. eapply frames_bind.
  - unfold add. eapply frames_bind; [apply frames_read|]. intros x _.
    eapply frames_bind; [apply frames_read|]. intros y _.
    destruct (Tensor.add x y); [|apply frames_throw].
    apply frames_alloc_with.
  - intros s _. unfold div. eapply frames_bind; [apply frames_read|].
    intros x _. eapply frames_weaken; [apply frames_alloc_with | auto].
Qed.

(** X11. Fusion is symmetric: for two networks of the fixed
    architecture, fusing them in either order returns the same network
    with the same parameter values. *)
Theorem averageWeights_symmetric (h : heap) (net1 net2 : Sequential) :
  has_architecture h net1 -> has_architecture h net2 ->
  exists merged h12 h21,
    averageWeights rt net1 net2 h = (Ok merged, h12)
    /\ averageWeights rt net2 net1 h = (Ok merged, h21)
    /\ params h12 merged = params h21 merged
    /\ Forall (fun t => t <> None) (params h12 merged).
Proof.
  intros H1 H2.
  destruct (averageWeights_result h net1 net2 H1 H2)
    as (x1 & x2 & x3 & x4 & y1 & y2 & y3 & y4 & m & P1 & P2 & Hs & E & _ & L).
  destruct (averageWeights_result h net2 net1 H2 H1)
    as (y1' & y2' & y3' & y4' & x1' & x2' & x3' & x4' & m' & P2' & P1' & _ & E' & _ & L').
  rewrite P1 in P1'. rewrite P2 in P2'.
  injection P1' as <- <- <- <-. injection P2' as <- <- <- <-.
  do 3 eexists. split; [exact E|]. split; [exact E'|].
  cbn [seq map] in L, L'. cbn [Nat.add] in L, L'.
  injection L as L0 L1 L2 L3 _. injection L' as L0' L1' L2' L3' _.
  unfold params. cbn [weights map tensors Nat.add].
  rewrite L0, L1, L2, L3, L0', L1', L2', L3'.
  inversion Hs as [|? ? ? ? S1 Hs1]; subst. inversion Hs1 as [|? ? ? ? S2 Hs2]; subst.
  inversion Hs2 as [|? ? ? ? S3 Hs3]; subst. inversion Hs3 as [|? ? ? ? S4 _]; subst.
  rewrite (average_comm x1 y1 S1), (average_comm x2 y2 S2),
    (average_comm x3 y3 S3), (average_comm x4 y4 S4).
  split; [reflexivity|]. repeat constructor; discriminate.
Qed.


(** X13. Fusion throws when the first network does not have exactly
    four weight tensors or the second has fewer than the first.  The
    network that [averageWeights] creates before it looks at its inputs
    is then left in the engine (its four tensors are not disposed),
    and the tensors that existed before are untouched. *)
Theorem averageWeights_throws (h : heap) (net1 net2 : Sequential) :
  length (weights net1) <> 4 \/ length (weights net2) < length (weights net1) ->
  exists e h',
    averageWeights rt net1 net2 h = (Throw e, h')
    /\ (forall id, id < next h -> tensors h' !! id = tensors h !! id)
    /\ Forall (fun id => tensors h' !! id <> None)
              [next h; 1 + next h; 2 + next h; 3 + next h].
Proof.
  intros Hbad. unfold averageWeights. unfold bind at 1.
  unfold createNetwork, alloc. cbn [bind ret alloc_with next tensors].
  set (n := next h).
  set (h1 := mkHeap _ (S (S (S (S n))))).
  assert (Old1 : forall id, id < n -> tensors h1 !! id = tensors h !! id).
  { intros id Hid. subst h1. cbn [tensors]. now rewrite !lookup_insert_ne by lia. }
  assert (New1 : Forall (fun id => tensors h1 !! id <> None) [n; 1 + n; 2 + n; 3 + n]).
  { subst h1. cbn [tensors Nat.add].
    repeat (apply Forall_cons_2;
            [repeat first [ rewrite lookup_insert_eq | rewrite lookup_insert_ne by lia ];
             discriminate |]).
    apply Forall_nil_2. }
  destruct (frames_averaging (4 + n) (getWeights net2) (imap pair (getWeights net1)) h1
              ltac:(subst h1; cbn; lia)) as (_ & Fk & _).
  unfold bind at 1.
  destruct (mapM _ (imap pair (getWeights net1)) h1) as [[avg|e] h2] eqn:Mp; cbn [snd] in Fk.
  - assert (Hlen : length avg = length (weights net1)).
    { rewrite (mapM_length _ _ _ _ _ Mp). now rewrite length_imap. }
    destruct Hbad as [H4 | Hlt].
    + unfold setWeights. cbn [weights length].
      destruct (Nat.eqb_spec 4 (length avg)) as [E4|_]; [congruence|].
      cbn [negb bind throw]. exists ShapeMismatch, h2. split; [reflexivity|].
      split.
      * intros id Hid. rewrite Fk by lia. now apply Old1.
      * rewrite Forall_forall in New1 |- *. intros id Hin. specialize (New1 id Hin).
        rewrite Fk; [exact New1|].
        cbn [Nat.add] in Hin. repeat (apply elem_of_cons in Hin as [->|Hin]; [lia|]).
        now apply elem_of_nil in Hin.
    + exfalso. destruct (lookup_lt_is_Some_2 (weights net1) (length (weights net2)) Hlt)
        as [w Hw].
      eapply (mapM_throws _ _ (length (weights net2), w) NotATensor); [| |exact Mp].
      * apply (list_elem_of_lookup_2 _ (length (weights net2))).
        rewrite list_lookup_imap. unfold getWeights. now rewrite Hw.
      * intros h0. unfold getWeights.
        now rewrite (lookup_ge_None_2 (weights net2) (length (weights net2))) by lia.
  - exists e, h2. split; [reflexivity|]. split.
    + intros id Hid. rewrite Fk by lia. now apply Old1.
    + rewrite Forall_forall in New1 |- *. intros id Hin. specialize (New1 id Hin).
      rewrite Fk; [exact New1|].
      cbn [Nat.add] in Hin. repeat (apply elem_of_cons in Hin as [->|Hin]; [lia|]).
      now apply elem_of_nil in Hin.
Qed.
End WithRuntime.
End FusionMore.

(* ===================================================================== *)
(** * Edge cases of the tolerance accuracy *)
(* ===================================================================== *)

Module AccuracyEdges.
Import TF App AccuracySpec FloatFacts AccuracyFacts.



End AccuracyEdges.

(* ===================================================================== *)
(** * The targets of the datasets *)
(* ===================================================================== *)

Module DatasetMore.
Import Dataset DatasetSpec.

(** X15. In every record of the addition and of the multiplication
    data the target is the exact sum and the exact product of the two
    inputs; in the division data it is the binary64 quotient of the two
    inputs, rounded to binary32.  All targets are finite. *)
Theorem dataset_targets :
  Tensor.data (outputs generateAdditionData)
  = map (fun p => F32.of_Z (fst p + snd p)) (list_prod digits digits)
  /\ Tensor.data (outputs generateMultiplicationData)
     = map (fun p => F32.of_Z (fst p * snd p)) (list_prod digits digits)
  /\ Tensor.data (outputs generateDivisionData)
     = map (fun p => F32.fround (Num.div (Num.of_Z (fst p)) (Num.of_Z (snd p))))
           (list_prod nonzero_digits nonzero_digits)
  /\ forallb (fun y => Num.is_finite y && F32.valid y)
       (Tensor.data (outputs generateAdditionData)
        ++ Tensor.data (outputs generateMultiplicationData)
        ++ Tensor.data (outputs generateDivisionData)) = true.
Proof. repeat split; vm_compute; reflexivity. Qed.
End DatasetMore.

(* ===================================================================== *)
(** * The charts *)
(* ===================================================================== *)

Module ChartFacts.
Import TF App Panel SessionSpec FloatSpec FloatFacts.
Local Open Scope Z_scope.

(** ** [slice(-10)] *)

Lemma length_slice_last {A} n (l : list A) :
  length (slice_last n l) = Nat.min n (length l).
Proof. unfold slice_last. rewrite length_drop. lia. Qed.

Lemma slice_last_elem {A} n (l : list A) x : x ∈ slice_last n l -> x ∈ l.
Proof. unfold slice_last. intros H. eapply subseteq_drop, H. Qed.

(** ** [Math.max] *)

Lemma ten_value : Num.of_Z 10 = S754_finite false 5629499534213120 (-49).
Proof. reflexivity. Qed.

Lemma hundred_value : Num.of_Z 100 = S754_finite false 7036874417766400 (-46).
Proof. reflexivity. Qed.

Lemma max_with_ten x :
  Math_max [Num.of_Z 10; x] =
  match x with
  | S754_nan => S754_nan
  | _ => if Num.ltb (Num.of_Z 10) x then x else Num.of_Z 10
  end.
Proof.
  unfold Math_max. cbn [fold_left]. rewrite ten_value.
  destruct x as [s|s| |s m e]; reflexivity.
Qed.

Lemma ltb_leb a b : Num.ltb a b = true -> Num.leb a b = true.
Proof.
  unfold Num.ltb, Num.leb, SFltb, SFleb. destruct (SFcompare a b) as [[]|]; congruence.
Qed.

Lemma max_nan_l b : max2 S754_nan b = S754_nan.
Proof. reflexivity. Qed.

Lemma max_nan_r a : max2 a S754_nan = S754_nan.
Proof. destruct a; reflexivity. Qed.

Lemma fold_max_nan xs : fold_left max2 xs S754_nan = S754_nan.
Proof. induction xs as [|x xs IH]; [reflexivity|]. cbn [fold_left]. exact IH. Qed.

Lemma Math_max_nan xs : forall a, S754_nan ∈ xs -> fold_left max2 xs a = S754_nan.
Proof.
  induction xs as [|x xs IH]; intros a H.
  - inversion H.
  - cbn [fold_left]. apply elem_of_cons in H as [<- | H].
    + rewrite max_nan_r. apply fold_max_nan.
    + now apply IH.
Qed.

(** A bar is NaN or at least 10 percent high. *)
Lemma bar_floor x :
  let h := Math_max [Num.of_Z 10; x] in
  h = S754_nan \/ Num.leb (Num.of_Z 10) h = true.
Proof.
  cbn zeta. rewrite max_with_ten.
  destruct x as [s|s| |s m e]; try (left; reflexivity);
    (destruct (Num.ltb (Num.of_Z 10) _) eqn:L; right; [now apply ltb_leb | reflexivity]).
Qed.

(** ** A fraction, in percent *)

(** The quotient of two integers [0 <= c <= n] is 0, 1 or a normal
    number below 1. *)
Lemma fraction_shape c n :
  0 <= c <= n -> 0 < n < 2 ^ 53 ->
  Num.div (Num.of_Z c) (Num.of_Z n) = Num.zero
  \/ Num.div (Num.of_Z c) (Num.of_Z n) = Num.one
  \/ exists m e,
       Num.div (Num.of_Z c) (Num.of_Z n) = S754_finite false m e
       /\ Zpos (digits2_pos m) = 53 /\ -105 <= e <= -53.
Proof.
  intros Hc Hn.
  destruct (div_of_Z_unit c n Hc Hn) as (_ & H1 & H0).
  destruct (Z.eq_dec c 0) as [Hc0|Hc0]; [left; auto|].
  destruct (Z.eq_dec c n) as [Hcn|Hne]; [right; left; auto|].
  clear H1 H0.
  destruct (of_Z_normal n Hn) as (mN & eN & EN & DN & RN & VN & LN).
  destruct (of_Z_normal c ltac:(lia)) as (mc & ec & Ec & Dc & Rc & Vc & Lc).
  rewrite Ec, EN. unfold Num.div, Num.prec, Num.emax, SFdiv. cbn [xorb].
  rewrite div_core by (assumption || lia).
  assert (Hle : ec <= eN).
  { rewrite Lc, LN. destruct c as [|pc|pc], n as [|pn|pn]; try lia.
    cbn [Z.to_pos]. pose proof (digits_mono pc pn ltac:(lia)). lia. }
  pose proof (digits_bounds mc) as Bc. pose proof (digits_bounds mN) as BN.
  rewrite Dc in Bc. rewrite DN in BN.
  change (2 ^ (53 - 1)) with 4503599627370496 in *.
  change (2 ^ 53) with 9007199254740992 in *.
  set (q := Zpos mc * 9007199254740992 / Zpos mN).
  assert (Hq : 2 ^ 52 <= q < 2 ^ 54).
  { subst q. change (2 ^ 52) with 4503599627370496. change (2 ^ 54) with 18014398509481984.
    split; [apply Z.div_le_lower_bound; lia | apply Z.div_lt_upper_bound; lia]. }
  destruct (binary_round_aux_bounds false q (ec - eN - 53)
              (new_location (Zpos mN) ((Zpos mc * 9007199254740992) mod Zpos mN)) Hq
              ltac:(lia)) as (m' & e' & E & D & C).
  rewrite E.
  assert (Hu : e' < -52 \/ (e' = -52 /\ Zpos m' = 2 ^ 52)).
  { destruct (Z.eq_dec ec eN) as [Heq|Hlt].
    - assert (Hmlt : Zpos mc < Zpos mN).
      { rewrite Vc, VN, Heq.
        apply Z.mul_lt_mono_pos_r; [apply Z.pow_pos_nonneg; lia | lia]. }
      assert (q < 2 ^ 53).
      { subst q. change (2 ^ 53) with 9007199254740992.
        apply Z.div_lt_upper_bound; lia. }
      change (2 ^ 53) with 9007199254740992 in *.
      destruct C as [[_ [-> | [-> Hm]]] | [Hge _]]; lia.
    - change (2 ^ 52) with 4503599627370496 in *.
      destruct C as [[_ [-> | [-> Hm]]] | [_ [-> | [-> Hm]]]]; lia. }
  assert (Hl : ec - eN - 53 <= e').
  { destruct C as [[_ [-> | [-> _]]] | [_ [-> | [-> _]]]]; lia. }
  destruct Hu as [Hu | [-> Hm]].
  - right. right. exists m', e'. split; [reflexivity|]. split; [exact D | lia].
  - right. left. change (2 ^ 52) with 4503599627370496 in Hm.
    assert (m' = 4503599627370496%positive) as -> by lia. reflexivity.
Qed.

(** A normal number below 1, times 100, does not exceed 100. *)
Lemma mul_hundred m e :
  Zpos (digits2_pos m) = 53 -> -105 <= e <= -53 ->
  exists m' e',
    Num.mul (S754_finite false m e) (Num.of_Z 100) = S754_finite false m' e'
    /\ Zpos (digits2_pos m') = 53 /\ -1074 <= e' <= 971
    /\ Num.leb (S754_finite false m' e') (Num.of_Z 100) = true.
Proof.
  intros Dm He. rewrite hundred_value.
  unfold Num.mul, Num.prec, Num.emax, SFmul. cbn [xorb].
  pose proof (digits_bounds m) as Bm. rewrite Dm in Bm.
  change (2 ^ (53 - 1)) with 4503599627370496 in Bm.
  change (2 ^ 53) with 9007199254740992 in Bm.
  set (P := (m * 7036874417766400)%positive).
  assert (HP : Zpos P = Zpos m * 7036874417766400) by (subst P; apply Pos2Z.inj_mul).
  pose proof (digits_bounds P) as BP.
  assert (HdP : 105 <= Zpos (digits2_pos P) <= 106).
  { assert (104 < Zpos (digits2_pos P)).
    { apply (Z.pow_lt_mono_r_iff 2); [lia | lia |].
      eapply Z.le_lt_trans; [|apply BP]. rewrite HP.
      change (2 ^ 104) with (4503599627370496 * 4503599627370496). nia. }
    assert (Zpos (digits2_pos P) - 1 < 106).
    { apply (Z.pow_lt_mono_r_iff 2); [lia | lia |].
      eapply Z.le_lt_trans; [apply BP|]. rewrite HP.
      change (2 ^ 106) with (9007199254740992 * 9007199254740992). nia. }
    lia. }
  destruct (binary_round_aux_upper false P (e + -46) loc_Exact)
    as (m' & e' & -> & D' & Re' & Hup); [lia | lia | lia |].
  set (d := Zpos (digits2_pos P)) in *.
  exists m', e'. split; [reflexivity|]. split; [exact D'|]. split; [lia|].
  apply leb_key; [cbn; lia | cbn; lia |]. unfold key, key_le.
  right. split; [reflexivity|].
  destruct (Z_lt_le_dec e' (-46)) as [Hlt|Hge]; [left; exact Hlt | right].
  pose proof (digits_bounds m') as Bm'. rewrite D' in Bm'.
  change (2 ^ (53 - 1)) with 4503599627370496 in Bm'.
  change (2 ^ 53) with 9007199254740992 in Bm'.
  assert (H2n : 2 ^ (d - 53) <= 2 ^ 53) by (apply Z.pow_le_mono_r; lia).
  change (2 ^ 53) with 9007199254740992 in H2n.
  set (t := e' + 46 + (-53 - e)).
  assert (Ht : 0 <= t) by (subst t; lia).
  assert (Hsplit : 2 ^ (e' - (e + -46)) = 9007199254740992 * 2 ^ t).
  { change 9007199254740992 with (2 ^ 53). rewrite <- Z.pow_add_r by lia.
    f_equal. subst t. lia. }
  rewrite Hsplit in Hup.
  assert (Hval : Zpos m' * 2 ^ t <= 7036874417766400) by nia.
  destruct (Z.eq_dec t 0) as [Ht0|Ht0].
  - rewrite Ht0 in Hval. change (2 ^ 0) with 1 in Hval. subst t. split; lia.
  - pose proof (pow2_ge_2 t ltac:(lia)). nia.
Qed.

(** The bar of a fraction is between 10 and 100 percent high. *)
Lemma fraction_bar n a :
  0 < Z.of_nat n < 2 ^ 53 -> fraction_of n a ->
  let h := Math_max [Num.of_Z 10; Num.mul (Num.or_zero a) (Num.of_Z 100)] in
  Num.leb (Num.of_Z 10) h = true /\ Num.leb h (Num.of_Z 100) = true.
Proof.
  intros Hn (k & Hk & ->). cbn zeta.
  destruct (fraction_shape (Z.of_nat k) (Z.of_nat n) ltac:(lia) Hn)
    as [-> | [-> | (m & e & -> & D & He)]].
  - split; reflexivity.
  - split; reflexivity.
  - cbn [Num.or_zero].
    destruct (mul_hundred m e D He) as (m' & e' & -> & D' & He' & L).
    rewrite max_with_ten.
    destruct (Num.ltb (Num.of_Z 10) (S754_finite false m' e')) eqn:L10.
    + split; [now apply ltb_leb | exact L].
    + split; reflexivity.
Qed.

(** X16. A loss chart has one bar for each of the last ten epochs of the
    history, or for all of them when there are fewer; the height of a
    bar is NaN or at least 10 percent; and a single NaN loss anywhere in
    the history, even outside the last ten epochs, makes the height of
    every bar NaN. *)
Theorem loss_chart_bars (stats : list NetworkStats) :
  length (loss_bars stats) = Nat.min 10 (length stats)
  /\ Forall (fun h => h = S754_nan \/ Num.leb (Num.of_Z 10) h = true) (loss_bars stats)
  /\ ((exists st, st ∈ stats /\ loss st = S754_nan) ->
      Forall (fun h => h = S754_nan) (loss_bars stats)).
Proof.
  unfold loss_bars. split; [|split].
  - rewrite length_map. apply length_slice_last.
  - apply Forall_map, Forall_forall. intros st _. apply bar_floor.
  - intros (st0 & Hin & Hnan). apply Forall_map, Forall_forall. intros st _.
    cbn zeta.
    assert (E : Math_max (map loss stats ++ [Num.lit 1 10]) = S754_nan).
    { unfold Math_max. apply Math_max_nan. apply elem_of_app. left.
      rewrite <- Hnan. apply list_elem_of_fmap. exists st0. split; [reflexivity | exact Hin]. }
    rewrite E.
    assert (D : Num.div (loss st) S754_nan = S754_nan) by (destruct (loss st); reflexivity).
    rewrite D. reflexivity.
Qed.

Section WithRuntime.
Variable rt : Runtime.

(** X17. With an inference that answers one value per record, the
    accuracy chart of the merged network has one bar for each of the
    last ten recorded epochs (all of them when there are fewer), and
    the height of every bar is a number between 10 and 100 percent. *)
Theorem accuracy_chart_bars (evs : list Event) :
  predicts_columns rt ->
  let stats := mergedStats (app (run rt (mount rt) evs)) in
  length (accuracy_bars stats) = Nat.min 10 (length stats)
  /\ Forall (fun h => Num.leb (Num.of_Z 10) h = true /\ Num.leb h (Num.of_Z 100) = true)
            (accuracy_bars stats).
Proof.
  intros Hp. cbn zeta.
  destruct (SessionFacts.scores_run rt evs Hp _ (SessionFacts.sound_mount rt)
              (SessionFacts.scores_mount rt)) as (_ & _ & R3 & R4).
  unfold accuracy_bars. split.
  - rewrite length_map. apply length_slice_last.
  - apply Forall_map, Forall_forall. intros st Hst. cbn zeta.
    apply slice_last_elem in Hst.
    unfold recorded in R3. rewrite Forall_forall in R3, R4.
    destruct (R4 _ Hst) as [_ ->].
    apply (fraction_bar 81); [lia | apply R3, Hst].
Qed.
End WithRuntime.
End ChartFacts.

(* ===================================================================== *)
(** * Columns of different lengths *)
(* ===================================================================== *)

Module AccuracyBroadcast.
Import TF App AccuracySpec AccuracyFacts.

Lemma map_nth_seq {A B} (f : A -> B) (d : A) (g : nat -> nat) (l : list A) :
  (forall i, i < length l -> g i = i) ->
  map (fun i => f (nth (g i) l d)) (seq 0 (length l)) = map f l.
Proof.
  intros Hg. apply (nth_ext _ _ (f d) (f d)).
  - now rewrite !length_map, length_seq.
  - intros i Hi. rewrite length_map, length_seq in Hi.
    rewrite (map_nth f l d).
    rewrite (nth_indep _ (f d) (f (nth (g 0) l d)))
      by (now rewrite length_map, length_seq).
    rewrite (map_nth (fun i => f (nth (g i) l d)) (seq 0 (length l)) 0).
    rewrite seq_nth by exact Hi. cbn [Nat.add]. now rewrite Hg.
Qed.

Lemma count_true {A} (f : A -> bool) (l : list A) :
  length (filter (fun b => b = true) (map f l)) = length (filter (fun x => f x = true) l).
Proof.
  induction l as [|x l IH]; [reflexivity|]. cbn [map].
  destruct (f x) eqn:E.
  - rewrite (filter_cons_True (fun b => b = true)) by reflexivity.
    rewrite (filter_cons_True (fun x => f x = true)) by exact E.
    cbn [length]. now rewrite IH.
  - rewrite (filter_cons_False (fun b => b = true)) by discriminate.
    rewrite (filter_cons_False (fun x => f x = true)) by congruence. exact IH.
Qed.

(** X18. When the column of predictions and the column of targets have
    different lengths, [calculateAccuracy] throws unless one of them
    has a single record.  A single prediction is compared with every
    target and the count is divided by 1, the number of predictions; a
    single target is compared with every prediction and the count is
    divided by their number. *)
Theorem calculateAccuracy_unequal_columns (n m : nat) (predictions targets : Tensor.t) :
  column n predictions -> column m targets -> n <> m ->
  (Z.of_nat n < 2 ^ 31)%Z -> (Z.of_nat m < 2 ^ 31)%Z ->
  (n <> 1 -> m <> 1 -> calculateAccuracy predictions targets = Throw ShapeMismatch)
  /\ (forall p, Tensor.data predictions = [p] ->
        calculateAccuracy predictions targets
        = Ok (Num.div
                (Num.of_Z (Z.of_nat (length (filter (fun t => within_tolerance p t = true)
                                               (Tensor.data targets)))))
                (Num.of_Z 1)))
  /\ (forall t, Tensor.data targets = [t] ->
        calculateAccuracy predictions targets
        = Ok (Num.div
                (Num.of_Z (Z.of_nat (length (filter (fun p => within_tolerance p t = true)
                                               (Tensor.data predictions)))))
                (Num.of_Z (Z.of_nat n)))).
Proof.
  intros [Sp Lp] [St Lt] Hne Hn Hm.
  assert (Hs : Tensor.shape_eqb (Tensor.shape predictions) (Tensor.shape targets) = false).
  { unfold Tensor.shape_eqb. apply bool_decide_eq_false_2. rewrite Sp, St. congruence. }
  unfold calculateAccuracy, Tensor.sub, Tensor.broadcast_op. rewrite Hs, Sp, St.
  unfold Tensor.broadcast_shape. cbn [rev List.app Tensor.broadcast_rev Nat.eqb].
  split; [|split].
  - intros Hn1 Hm1.
    rewrite (proj2 (Nat.eqb_neq n m) Hne), (proj2 (Nat.eqb_neq n 1) Hn1),
      (proj2 (Nat.eqb_neq m 1) Hm1).
    reflexivity.
  - intros p Hp. assert (n = 1) as -> by (rewrite <- Lp, Hp; reflexivity).
    assert (Hm1 : m <> 1) by congruence.
    rewrite (proj2 (Nat.eqb_neq 1 m) Hne). cbn [Nat.eqb option_map rev List.app].
    cbn [lookup list_lookup]. f_equal. f_equal. f_equal.
    unfold Tensor.lessEqual, Tensor.abs. cbn [Tensor.data Tensor.shape Tensor.size fold_right].
    rewrite Hp. cbn [Tensor.operand_index Nat.eqb Nat.add Nat.mul nth].
    rewrite (proj2 (Nat.eqb_neq m 1) Hm1).
    replace (m * 1) with (length (Tensor.data targets)) by lia.
    rewrite (map_nth_seq (F32.sub p) S754_nan
               (fun i => (i / 1) mod m + m * 0 + 0) (Tensor.data targets)); cycle 1.
    { intros i Hi. rewrite Nat.div_1_r, Nat.mod_small by lia. lia. }
    rewrite sum_bool_count by (rewrite !length_map; lia).
    rewrite !map_map, count_true. reflexivity.
  - intros t Ht. assert (m = 1) as -> by (rewrite <- Lt, Ht; reflexivity).
    assert (Hn1 : n <> 1) by congruence.
    rewrite (proj2 (Nat.eqb_neq n 1) Hn1).
    cbn [Nat.eqb option_map rev List.app lookup list_lookup]. f_equal. f_equal. f_equal.
    unfold Tensor.lessEqual, Tensor.abs. cbn [Tensor.data Tensor.shape Tensor.size fold_right].
    rewrite Ht. cbn [Tensor.operand_index Nat.eqb Nat.add Nat.mul nth].
    rewrite (proj2 (Nat.eqb_neq n 1) Hn1).
    replace (n * 1) with (length (Tensor.data predictions)) by lia.
    rewrite (map_nth_seq (fun p => F32.sub p t) S754_nan
               (fun i => (i / 1) mod n + n * 0 + 0) (Tensor.data predictions)); cycle 1.
    { intros i Hi. rewrite Nat.div_1_r, Nat.mod_small by lia. lia. }
    rewrite sum_bool_count by (rewrite !length_map; lia).
    rewrite !map_map, count_true. reflexivity.
Qed.
End AccuracyBroadcast.

(* ===================================================================== *)
(** * The statements above, on the examples *)
(* ===================================================================== *)

Module DrawWitness.
Import Viz VizSpec CanvasSpec Examples Scenarios DrawFacts WaveFacts.

Lemma draw_connections_fails_iff_witness :
  (Z.of_nat (connection_count 2 16 kernel_single) < 2 ^ 53)%Z
  /\ length (collect 2 16 kernel_single) = connection_count 2 16 kernel_single
  /\ (draw_connections 2 16 kernel_single = TypeError
      <-> connection_count 2 16 kernel_single < Nat.min 2 16)
  /\ (Nat.min 2 16 <= connection_count 2 16 kernel_single ->
      exists l, draw_connections 2 16 kernel_single = Drawn l
                /\ (Z.of_nat (length l)
                    <= topConnections (connection_count 2 16 kernel_single) 2 16)%Z).
Proof.
  split; [reflexivity|].
  exact (draw_connections_fails_iff 2 16 kernel_single eq_refl).
Defined.

(** The single connection of that kernel is too few for layers of 2 and
    16 nodes. *)
Example single_connection_fails : draw_connections 2 16 kernel_single = TypeError.
Proof. vm_compute. reflexivity. Qed.

Lemma ramp_connections_drawn : draw_connections 2 16 kernel_ramp = Drawn ramp_connections.
Proof. vm_compute. reflexivity. Defined.

Lemma well_formed_ramp : Tensor.well_formed kernel_ramp.
Proof. reflexivity. Defined.

Lemma drawn_connections_are_entries_witness :
  Tensor.shape kernel_ramp = [2; 16] /\ Tensor.well_formed kernel_ramp
  /\ draw_connections 2 16 kernel_ramp = Drawn ramp_connections
  /\ NoDup (map ends ramp_connections)
  /\ Forall (fun c =>
               fromIdx c < 2 /\ toIdx c < 16
               /\ exists x, entry kernel_ramp (fromIdx c) (toIdx c) = Some x
                            /\ weight c = F32.to_number x
                            /\ absWeight c = Num.abs (F32.to_number x)) ramp_connections.
Proof.
  split; [reflexivity|]. split; [exact well_formed_ramp|]. split; [exact ramp_connections_drawn|].
  exact (drawn_connections_are_entries 2 16 2 16 kernel_ramp ramp_connections
           eq_refl well_formed_ramp ramp_connections_drawn).
Defined.

Lemma draw_fixed_architecture_witness :
  ramp_weights !! 0 = Some kernel_ramp /\ ramp_weights !! 2 = Some kernel_flat
  /\ Tensor.shape kernel_ramp = [2; 16] /\ Tensor.shape kernel_flat = [16; 1]
  /\ exists l1 l2,
       draw ramp_weights = Drawn [l1; l2]
       /\ length l1 <= 10 /\ length l2 <= 5
       /\ (is_kernel 2 16 kernel_ramp ->
           Forall (fun x => Num.is_nan x = false) (Tensor.data kernel_ramp) ->
           l1 = take 10 (ranked 2 16 kernel_ramp) /\ length l1 = 10)
       /\ (is_kernel 16 1 kernel_flat ->
           Forall (fun x => Num.is_nan x = false) (Tensor.data kernel_flat) ->
           l2 = take 5 (ranked 16 1 kernel_flat) /\ length l2 = 5).
Proof.
  split; [reflexivity|]. split; [reflexivity|]. split; [reflexivity|]. split; [reflexivity|].
  exact (draw_fixed_architecture ramp_weights kernel_ramp kernel_flat
           eq_refl eq_refl eq_refl eq_refl).
Defined.

End DrawWitness.

Module SessionWitness.
Import TF App Panel SessionSpec AccuracySpec FusionSpec Examples Scenarios.
Import SessionFacts FusionMore AccuracyEdges ChartFacts AccuracyBroadcast.

Lemma rt_ok_predicts_columns : predicts_columns rt_ok.
Proof.
  intros ws x p H. injection H as <-. split; [reflexivity|]. apply repeat_length.
Defined.

Lemma rt_ok_fit_keeps_shapes : fit_keeps_shapes rt_ok.
Proof.
  intros e ws x y b ws' l H. injection H as <- _.
  induction ws as [|w ws IH]; constructor; [reflexivity | exact IH].
Defined.

Lemma datasets_disposed_on_completion_only_witness :
  isTraining (app (run rt_ok (mount rt_ok) [])) = false
  /\ (let c := run rt_ok (mount rt_ok) [] in
      let n0 := next (engine c) in
      let c' := run rt_ok c (Click :: repeat Resume 150) in
      (task c' = Idle -> datasets_gone n0 (engine c'))
      /\ (task c' <> Idle -> datasets_live n0 (engine c'))).
Proof.
  split; [reflexivity|].
  exact (datasets_disposed_on_completion_only rt_ok [] 150 eq_refl).
Defined.

Lemma recorded_accuracies_are_fractions_witness :
  predicts_columns rt_ok
  /\ (let s := app (run rt_ok (mount rt_ok) (Click :: repeat Resume 150)) in
      Forall (fun st => fraction_of 100 (accuracy st) /\ Num.in_unit (accuracy st) = true)
             (additionStats s)
      /\ Forall (fun st => fraction_of 100 (accuracy st) /\ Num.in_unit (accuracy st) = true)
                (multiplicationStats s)
      /\ Forall (fun st => fraction_of 81 (accuracy st) /\ Num.in_unit (accuracy st) = true
                           /\ testLoss st = Some (loss st)
                           /\ testAccuracy st = Some (accuracy st))
                (mergedStats s)).
Proof.
  split; [exact rt_ok_predicts_columns|].
  exact (recorded_accuracies_are_fractions rt_ok (Click :: repeat Resume 150)
           rt_ok_predicts_columns).
Defined.

Lemma training_networks_always_render_witness :
  fit_keeps_shapes rt_ok
  /\ (let c := run rt_ok (mount rt_ok) (Click :: repeat Resume 150) in
      renders (Canvas.draw (engine c) (additionNet (app c)))
      /\ renders (Canvas.draw (engine c) (multiplicationNet (app c)))).
Proof.
  split; [exact rt_ok_fit_keeps_shapes|].
  exact (training_networks_always_render rt_ok (Click :: repeat Resume 150)
           rt_ok_fit_keeps_shapes).
Defined.

Lemma accuracy_chart_bars_witness :
  predicts_columns rt_ok
  /\ (let stats := mergedStats (app (run rt_ok (mount rt_ok) (Click :: repeat Resume 150))) in
      length (accuracy_bars stats) = Nat.min 10 (length stats)
      /\ Forall (fun h => Num.leb (Num.of_Z 10) h = true /\ Num.leb h (Num.of_Z 100) = true)
                (accuracy_bars stats)).
Proof.
  split; [exact rt_ok_predicts_columns|].
  exact (accuracy_chart_bars rt_ok (Click :: repeat Resume 150) rt_ok_predicts_columns).
Defined.

Lemma averageWeights_symmetric_witness :
  has_architecture heap0 netA /\ has_architecture heap0 netB
  /\ exists merged h12 h21,
       averageWeights rt_ok netA netB heap0 = (Ok merged, h12)
       /\ averageWeights rt_ok netB netA heap0 = (Ok merged, h21)
       /\ params h12 merged = params h21 merged
       /\ Forall (fun t => t <> None) (params h12 merged).
Proof.
  split; [exact FusionWitness.has_architecture_netA|].
  split; [exact FusionWitness.has_architecture_netB|].
  exact (averageWeights_symmetric rt_ok heap0 netA netB
           FusionWitness.has_architecture_netA FusionWitness.has_architecture_netB).
Defined.


Lemma netShort_is_short :
  length (weights netA) <> 4 \/ length (weights netShort) < length (weights netA).
Proof. right. cbn. lia. Defined.

Lemma averageWeights_throws_witness :
  (length (weights netA) <> 4 \/ length (weights netShort) < length (weights netA))
  /\ exists e h',
       averageWeights rt_ok netA netShort heap0 = (Throw e, h')
       /\ (forall id, id < next heap0 -> tensors h' !! id = tensors heap0 !! id)
       /\ Forall (fun id => tensors h' !! id <> None)
                 [next heap0; 1 + next heap0; 2 + next heap0; 3 + next heap0].
Proof.
  split; [exact netShort_is_short|].
  exact (averageWeights_throws rt_ok heap0 netA netShort netShort_is_short).
Defined.


Lemma calculateAccuracy_unequal_columns_witness :
  column 1 one_prediction /\ column 2 two_targets /\ 1 <> 2
  /\ (Z.of_nat 1 < 2 ^ 31)%Z /\ (Z.of_nat 2 < 2 ^ 31)%Z
  /\ (1 <> 1 -> 2 <> 1 -> calculateAccuracy one_prediction two_targets = Throw ShapeMismatch)
  /\ (forall p, Tensor.data one_prediction = [p] ->
        calculateAccuracy one_prediction two_targets
        = Ok (Num.div
                (Num.of_Z (Z.of_nat (length (filter (fun t => within_tolerance p t = true)
                                               (Tensor.data two_targets)))))
                (Num.of_Z 1)))
  /\ (forall t, Tensor.data two_targets = [t] ->
        calculateAccuracy one_prediction two_targets
        = Ok (Num.div
                (Num.of_Z (Z.of_nat (length (filter (fun p => within_tolerance p t = true)
                                               (Tensor.data one_prediction)))))
                (Num.of_Z (Z.of_nat 1)))).
Proof.
  assert (C1 : column 1 one_prediction) by (split; reflexivity).
  assert (C2 : column 2 two_targets) by (split; reflexivity).
  assert (N : 1 <> 2) by discriminate.
  split; [exact C1|]. split; [exact C2|]. split; [exact N|].
  split; [reflexivity|]. split; [reflexivity|].
  exact (calculateAccuracy_unequal_columns 1 2 _ _ C1 C2 N eq_refl eq_refl).
Defined.

(** One prediction that fits both targets has the accuracy 2. *)
Example accuracy_of_one_prediction :
  calculateAccuracy one_prediction two_targets = Ok (Num.of_Z 2).
Proof. vm_compute. reflexivity. Qed.
End SessionWitness.
